(** * Mini-React: scheduler, fiber reconciler, hooks and commit phase

    A shallow embedding of [scheduler.js], [fiber.js], [reconciler.js] and
    [hooks.js] of the mini-react sources.  JavaScript objects that are
    mutated through aliases (fibers, hook records) live in explicit heaps
    addressed by natural numbers; the module-level variables of the three
    JavaScript modules are the fields of one [State] record; the browser
    (DOM calls, console, clock, macro- and microtask queues) is recorded
    next to them so that host calls and their order can be observed. *)

From Stdlib Require Import ZArith NArith String Ascii List Bool Lia.
From Stdlib Require Import Sorting.Sorted Sorting.Permutation.
From stdpp Require Import base list.
Import ListNotations.

Local Open Scope string_scope.
Local Open Scope Z_scope.
Local Open Scope list_scope.

(** ** JavaScript values *)

Inductive Val :=
| VUndefined
| VNull
| VBool (b : bool)
| VNum (n : Z)
| VStr (s : string)
| VObj (a : nat)
| VFun (f : nat).

(** [a === b] on the values above.  Numbers are integers: [NaN], the one
    value that is not [===] to itself, is not among them. *)
Definition strict_eq (a b : Val) : bool :=
  match a, b with
  | VUndefined, VUndefined => true
  | VNull, VNull => true
  | VBool x, VBool y => Bool.eqb x y
  | VNum x, VNum y => Z.eqb x y
  | VStr x, VStr y => String.eqb x y
  | VObj x, VObj y => Nat.eqb x y
  | VFun x, VFun y => Nat.eqb x y
  | _, _ => false
  end.

(** The entries of a props object other than [children], in the order in
    which [Object.keys] lists them. *)
Definition Attrs := list (string * Val).

Fixpoint get_attr (k : string) (o : Attrs) : Val :=
  match o with
  | [] => VUndefined
  | (k', v) :: o' => if String.eqb k k' then v else get_attr k o'
  end.

Fixpoint has_attr (k : string) (o : Attrs) : bool :=
  match o with
  | [] => false
  | (k', _) :: o' => String.eqb k k' || has_attr k o'
  end.

(** The props objects are plain objects ([createElement] builds them with
    an object literal, [createDom] passes [{}]): a name they do not have
    themselves is looked up in [Object.prototype]. *)
Definition Object_prototype : list string :=
  ["constructor"; "__defineGetter__"; "__defineSetter__"; "hasOwnProperty";
   "__lookupGetter__"; "__lookupSetter__"; "isPrototypeOf"; "propertyIsEnumerable";
   "toString"; "valueOf"; "__proto__"; "toLocaleString"].

Definition inherited (key : string) : bool :=
  existsb (String.eqb key) Object_prototype.

(** [key in o] *)
Definition has_member (key : string) (o : Attrs) : bool :=
  has_attr key o || inherited key.

(** What [o[key]] reads: the entry of the object itself, else the member
    it inherits, else [undefined].  The members of [Object.prototype] are
    built-in functions (for [__proto__], the prototype itself), and none
    of them is a value of [Val]. *)
Inductive Member :=
| Value (v : Val)
| Builtin (name : string).

Definition member (key : string) (o : Attrs) : Member :=
  if has_attr key o then Value (get_attr key o)
  else if inherited key then Builtin key
  else Value VUndefined.

(** [a === b] on what two reads give. *)
Definition same_member (a b : Member) : bool :=
  match a, b with
  | Value x, Value y => strict_eq x y
  | Builtin x, Builtin y => String.eqb x y
  | _, _ => false
  end.

(** [arr[i] = x] on a JavaScript array: in range it overwrites, at the end
    it appends, beyond the end it leaves holes. *)
Fixpoint js_set {A} (i : nat) (x : A) (arr : list (option A)) : list (option A) :=
  match i, arr with
  | O, [] => [Some x]
  | O, _ :: rest => Some x :: rest
  | S i', [] => None :: js_set i' x []
  | S i', y :: rest => y :: js_set i' x rest
  end.

Definition js_get {A} (i : nat) (arr : list (option A)) : option A :=
  match arr !! i with
  | Some (Some x) => Some x
  | _ => None
  end.

(** ** Virtual DOM elements ([createElement.js]) *)

Inductive EType :=
| Host (tag : string)
| Component (c : nat).

Definition EType_eqb (a b : EType) : bool :=
  match a, b with
  | Host x, Host y => String.eqb x y
  | Component x, Component y => Nat.eqb x y
  | _, _ => false
  end.

(** An element [{type, props: {...attrs, children}}]; a child may be
    [null] (the [None] entries). *)
#[local] Unset Elimination Schemes.
Inductive Element :=
| El (type : EType) (attrs : Attrs) (children : list (option Element)).

#[local] Set Elimination Schemes.

Definition el_type (e : Element) : EType := let 'El t _ _ := e in t.
Definition el_attrs (e : Element) : Attrs := let 'El _ a _ := e in a.
Definition el_children (e : Element) : list (option Element) :=
  let 'El _ _ c := e in c.

Record Props := mkProps {
  attrs : Attrs;
  children : list (option Element);
}.

Definition el_props (e : Element) : Props := mkProps (el_attrs e) (el_children e).

Definition createTextElement (text : Val) : Element :=
  El (Host "TEXT_ELEMENT") [("nodeValue", text)] [].

(** ** Host (DOM) calls, as observed from outside *)

(** Handles of host nodes and heap addresses are natural numbers. *)
Abbreviation Handle := nat.

Inductive HostCall :=
| CreateElement (tag : string) (h : Handle)
| CreateTextNode (text : string) (h : Handle)
| SetProperty (h : Handle) (name : string) (v : Val)
| AddEventListener (h : Handle) (eventType : string) (v : Val)
| RemoveEventListener (h : Handle) (eventType : string) (v : Val)
| AppendChild (parent child : Handle)
| RemoveChild (parent child : Handle).

(** ** Fibers ([fiber.js]) *)

Inductive EffectTag := PLACEMENT | UPDATE | DELETION.

Abbreviation Addr := nat.

Record Fiber := mkFiber {
  type : option EType;
  props : Props;
  dom : option Handle;
  parent : option Addr;
  child : option Addr;
  sibling : option Addr;
  alternate : option Addr;
  effectTag : option EffectTag;
  hooks : option (list (option Addr));
}.

Definition set_dom (d : option Handle) (f : Fiber) : Fiber :=
  mkFiber (type f) (props f) d (parent f) (child f) (sibling f)
          (alternate f) (effectTag f) (hooks f).
Definition set_child (c : option Addr) (f : Fiber) : Fiber :=
  mkFiber (type f) (props f) (dom f) (parent f) c (sibling f)
          (alternate f) (effectTag f) (hooks f).
Definition set_sibling (s : option Addr) (f : Fiber) : Fiber :=
  mkFiber (type f) (props f) (dom f) (parent f) (child f) s
          (alternate f) (effectTag f) (hooks f).
Definition set_effectTag (t : option EffectTag) (f : Fiber) : Fiber :=
  mkFiber (type f) (props f) (dom f) (parent f) (child f) (sibling f)
          (alternate f) t (hooks f).
Definition set_hooks (h : option (list (option Addr))) (f : Fiber) : Fiber :=
  mkFiber (type f) (props f) (dom f) (parent f) (child f) (sibling f)
          (alternate f) (effectTag f) h.

(** ** Hook records ([hooks.js]) *)

Record Cleanup := mkCleanup {
  cl_name : nat;
  cl_throws : option Val;
}.

Inductive EffectResult :=
| Returns (cleanup : option Cleanup)
| Throws (e : Val).

(** A function passed to [useEffect] is described by what it does when it
    is called: it leaves [RanEffect eff_name] in the trace and then either
    throws or returns; [Returns (Some c)] returns the cleanup function [c],
    [Returns None] returns something that is not a function.  A cleanup
    leaves [RanCleanup cl_name] and throws when [cl_throws] says so. *)
Record EffectFn := mkEffectFn {
  eff_name : nat;
  eff_result : EffectResult;
}.

Inductive Hook :=
| StateHook (state : Val) (queue : list Val)
| EffectHook (effect : EffectFn) (deps : option (list Val)) (cleanup : option Cleanup)
| RefHook (current : Val).

(** Property reads on a hook object; a missing property is [undefined]. *)
Definition hook_state (h : Hook) : Val :=
  match h with StateHook s _ => s | _ => VUndefined end.
Definition hook_queue (h : Hook) : option (list Val) :=
  match h with StateHook _ q => Some q | _ => None end.
Definition hook_deps (h : Hook) : option (list Val) :=
  match h with EffectHook _ d _ => d | _ => None end.
Definition hook_cleanup (h : Hook) : option Cleanup :=
  match h with EffectHook _ _ c => c | _ => None end.
Definition hook_current (h : Hook) : Val :=
  match h with RefHook c => c | _ => VUndefined end.

(** ** Scheduler tasks ([scheduler.js]) *)

Inductive Callback :=
| WorkLoop
| UserCallback (name : nat) (cost : Z) (result : CallbackResult)
| NotAFunction
with CallbackResult :=
| ReturnsUndefined
| ReturnsFunction (next : Callback)
| ThrowsError (e : Val).

Record Task := mkTask {
  id : nat;
  callback : Callback;
  priority : Z;
  startTime : Z;
}.

(** What a [throw] carries: a [TypeError] raised by the language itself
    (a property read on [null] or [undefined], a call of a non-function)
    or a value thrown by user code. *)
Inductive Exn :=
| TypeError (msg : string)
| Thrown (v : Val).

(** [console.error('Scheduler error:', e)] and
    [console.error('Effect error:', e)]. *)
Inductive ConsoleMsg :=
| SchedulerError (e : Exn)
| EffectError (e : Exn).

Inductive Trace :=
| RanEffect (name : nat)
| RanCleanup (name : nat).

(** ** The state of the three modules and of the browser around them *)

Record State := mkState {
  (* scheduler.js *)
  taskQueue : list Task;
  isSchedulerRunning : bool;
  currentTask : option Task;
  (* reconciler.js *)
  wipRoot : option Addr;
  currentRoot : option Addr;
  nextUnitOfWork : option Addr;
  deletions : option (list Addr);
  (* hooks.js *)
  currentFiber : option Addr;
  hookIndex : nat;
  effectQueue : list (EffectFn * Addr);
  (* heaps *)
  fibers : list Fiber;
  hookHeap : list Hook;
  (* browser *)
  now : Z;
  taskIds : nat;
  macrotasks : nat;
  microtasks : nat;
  hostLog : list HostCall;
  nextHandle : Handle;
  console : list ConsoleMsg;
  trace : list Trace;
  executed : list nat;
}.

(** Assignments to one field. *)
Definition set_taskQueue (v : list Task) (s : State) : State :=
  mkState v (isSchedulerRunning s) (currentTask s) (wipRoot s)
    (currentRoot s) (nextUnitOfWork s) (deletions s) (currentFiber s)
    (hookIndex s) (effectQueue s) (fibers s) (hookHeap s) (now s)
    (taskIds s) (macrotasks s) (microtasks s) (hostLog s) (nextHandle s)
    (console s) (trace s) (executed s).
Definition set_isSchedulerRunning (v : bool) (s : State) : State :=
  mkState (taskQueue s) v (currentTask s) (wipRoot s) (currentRoot s)
    (nextUnitOfWork s) (deletions s) (currentFiber s) (hookIndex s)
    (effectQueue s) (fibers s) (hookHeap s) (now s) (taskIds s)
    (macrotasks s) (microtasks s) (hostLog s) (nextHandle s) (console s)
    (trace s) (executed s).
Definition set_currentTask (v : option Task) (s : State) : State :=
  mkState (taskQueue s) (isSchedulerRunning s) v (wipRoot s) (currentRoot s)
    (nextUnitOfWork s) (deletions s) (currentFiber s) (hookIndex s)
    (effectQueue s) (fibers s) (hookHeap s) (now s) (taskIds s)
    (macrotasks s) (microtasks s) (hostLog s) (nextHandle s) (console s)
    (trace s) (executed s).
Definition set_wipRoot (v : option Addr) (s : State) : State :=
  mkState (taskQueue s) (isSchedulerRunning s) (currentTask s) v
    (currentRoot s) (nextUnitOfWork s) (deletions s) (currentFiber s)
    (hookIndex s) (effectQueue s) (fibers s) (hookHeap s) (now s)
    (taskIds s) (macrotasks s) (microtasks s) (hostLog s) (nextHandle s)
    (console s) (trace s) (executed s).
Definition set_currentRoot (v : option Addr) (s : State) : State :=
  mkState (taskQueue s) (isSchedulerRunning s) (currentTask s) (wipRoot s) v
    (nextUnitOfWork s) (deletions s) (currentFiber s) (hookIndex s)
    (effectQueue s) (fibers s) (hookHeap s) (now s) (taskIds s)
    (macrotasks s) (microtasks s) (hostLog s) (nextHandle s) (console s)
    (trace s) (executed s).
Definition set_nextUnitOfWork (v : option Addr) (s : State) : State :=
  mkState (taskQueue s) (isSchedulerRunning s) (currentTask s) (wipRoot s)
    (currentRoot s) v (deletions s) (currentFiber s) (hookIndex s)
    (effectQueue s) (fibers s) (hookHeap s) (now s) (taskIds s)
    (macrotasks s) (microtasks s) (hostLog s) (nextHandle s) (console s)
    (trace s) (executed s).
Definition set_deletions (v : option (list Addr)) (s : State) : State :=
  mkState (taskQueue s) (isSchedulerRunning s) (currentTask s) (wipRoot s)
    (currentRoot s) (nextUnitOfWork s) v (currentFiber s) (hookIndex s)
    (effectQueue s) (fibers s) (hookHeap s) (now s) (taskIds s)
    (macrotasks s) (microtasks s) (hostLog s) (nextHandle s) (console s)
    (trace s) (executed s).
Definition set_currentFiber (v : option Addr) (s : State) : State :=
  mkState (taskQueue s) (isSchedulerRunning s) (currentTask s) (wipRoot s)
    (currentRoot s) (nextUnitOfWork s) (deletions s) v (hookIndex s)
    (effectQueue s) (fibers s) (hookHeap s) (now s) (taskIds s)
    (macrotasks s) (microtasks s) (hostLog s) (nextHandle s) (console s)
    (trace s) (executed s).
Definition set_hookIndex (v : nat) (s : State) : State :=
  mkState (taskQueue s) (isSchedulerRunning s) (currentTask s) (wipRoot s)
    (currentRoot s) (nextUnitOfWork s) (deletions s) (currentFiber s) v
    (effectQueue s) (fibers s) (hookHeap s) (now s) (taskIds s)
    (macrotasks s) (microtasks s) (hostLog s) (nextHandle s) (console s)
    (trace s) (executed s).
Definition set_effectQueue (v : list (EffectFn * Addr)) (s : State) : State :=
  mkState (taskQueue s) (isSchedulerRunning s) (currentTask s) (wipRoot s)
    (currentRoot s) (nextUnitOfWork s) (deletions s) (currentFiber s)
    (hookIndex s) v (fibers s) (hookHeap s) (now s) (taskIds s)
    (macrotasks s) (microtasks s) (hostLog s) (nextHandle s) (console s)
    (trace s) (executed s).
Definition set_fibers (v : list Fiber) (s : State) : State :=
  mkState (taskQueue s) (isSchedulerRunning s) (currentTask s) (wipRoot s)
    (currentRoot s) (nextUnitOfWork s) (deletions s) (currentFiber s)
    (hookIndex s) (effectQueue s) v (hookHeap s) (now s) (taskIds s)
    (macrotasks s) (microtasks s) (hostLog s) (nextHandle s) (console s)
    (trace s) (executed s).
Definition set_hookHeap (v : list Hook) (s : State) : State :=
  mkState (taskQueue s) (isSchedulerRunning s) (currentTask s) (wipRoot s)
    (currentRoot s) (nextUnitOfWork s) (deletions s) (currentFiber s)
    (hookIndex s) (effectQueue s) (fibers s) v (now s) (taskIds s)
    (macrotasks s) (microtasks s) (hostLog s) (nextHandle s) (console s)
    (trace s) (executed s).
Definition set_now (v : Z) (s : State) : State :=
  mkState (taskQueue s) (isSchedulerRunning s) (currentTask s) (wipRoot s)
    (currentRoot s) (nextUnitOfWork s) (deletions s) (currentFiber s)
    (hookIndex s) (effectQueue s) (fibers s) (hookHeap s) v (taskIds s)
    (macrotasks s) (microtasks s) (hostLog s) (nextHandle s) (console s)
    (trace s) (executed s).
Definition set_taskIds (v : nat) (s : State) : State :=
  mkState (taskQueue s) (isSchedulerRunning s) (currentTask s) (wipRoot s)
    (currentRoot s) (nextUnitOfWork s) (deletions s) (currentFiber s)
    (hookIndex s) (effectQueue s) (fibers s) (hookHeap s) (now s) v
    (macrotasks s) (microtasks s) (hostLog s) (nextHandle s) (console s)
    (trace s) (executed s).
Definition set_macrotasks (v : nat) (s : State) : State :=
  mkState (taskQueue s) (isSchedulerRunning s) (currentTask s) (wipRoot s)
    (currentRoot s) (nextUnitOfWork s) (deletions s) (currentFiber s)
    (hookIndex s) (effectQueue s) (fibers s) (hookHeap s) (now s)
    (taskIds s) v (microtasks s) (hostLog s) (nextHandle s) (console s)
    (trace s) (executed s).
Definition set_microtasks (v : nat) (s : State) : State :=
  mkState (taskQueue s) (isSchedulerRunning s) (currentTask s) (wipRoot s)
    (currentRoot s) (nextUnitOfWork s) (deletions s) (currentFiber s)
    (hookIndex s) (effectQueue s) (fibers s) (hookHeap s) (now s)
    (taskIds s) (macrotasks s) v (hostLog s) (nextHandle s) (console s)
    (trace s) (executed s).
Definition set_hostLog (v : list HostCall) (s : State) : State :=
  mkState (taskQueue s) (isSchedulerRunning s) (currentTask s) (wipRoot s)
    (currentRoot s) (nextUnitOfWork s) (deletions s) (currentFiber s)
    (hookIndex s) (effectQueue s) (fibers s) (hookHeap s) (now s)
    (taskIds s) (macrotasks s) (microtasks s) v (nextHandle s) (console s)
    (trace s) (executed s).
Definition set_nextHandle (v : Handle) (s : State) : State :=
  mkState (taskQueue s) (isSchedulerRunning s) (currentTask s) (wipRoot s)
    (currentRoot s) (nextUnitOfWork s) (deletions s) (currentFiber s)
    (hookIndex s) (effectQueue s) (fibers s) (hookHeap s) (now s)
    (taskIds s) (macrotasks s) (microtasks s) (hostLog s) v (console s)
    (trace s) (executed s).
Definition set_console (v : list ConsoleMsg) (s : State) : State :=
  mkState (taskQueue s) (isSchedulerRunning s) (currentTask s) (wipRoot s)
    (currentRoot s) (nextUnitOfWork s) (deletions s) (currentFiber s)
    (hookIndex s) (effectQueue s) (fibers s) (hookHeap s) (now s)
    (taskIds s) (macrotasks s) (microtasks s) (hostLog s) (nextHandle s) v
    (trace s) (executed s).
Definition set_trace (v : list Trace) (s : State) : State :=
  mkState (taskQueue s) (isSchedulerRunning s) (currentTask s) (wipRoot s)
    (currentRoot s) (nextUnitOfWork s) (deletions s) (currentFiber s)
    (hookIndex s) (effectQueue s) (fibers s) (hookHeap s) (now s)
    (taskIds s) (macrotasks s) (microtasks s) (hostLog s) (nextHandle s)
    (console s) v (executed s).
Definition set_executed (v : list nat) (s : State) : State :=
  mkState (taskQueue s) (isSchedulerRunning s) (currentTask s) (wipRoot s)
    (currentRoot s) (nextUnitOfWork s) (deletions s) (currentFiber s)
    (hookIndex s) (effectQueue s) (fibers s) (hookHeap s) (now s)
    (taskIds s) (macrotasks s) (microtasks s) (hostLog s) (nextHandle s)
    (console s) (trace s) v.

(** ** Computations: state, exceptions and fuel

    [Ok a s] is a normal return, [Fail e s] an exception [e] propagating
    out of the call with the mutations done so far kept in [s], [OutOfFuel]
    means that a loop was cut by the fuel bound of the embedding. *)

Inductive Res (A : Type) :=
| Ok (a : A) (s : State)
| Fail (e : Exn) (s : State)
| OutOfFuel.
Arguments Ok {A} a s.
Arguments Fail {A} e s.
Arguments OutOfFuel {A}.

Definition M (A : Type) := State -> Res A.

Definition ret {A} (a : A) : M A := fun s => Ok a s.
Definition bind {A B} (c : M A) (k : A -> M B) : M B :=
  fun s => match c s with
           | Ok a s' => k a s'
           | Fail e s' => Fail e s'
           | OutOfFuel => OutOfFuel
           end.
Definition throw {A} (e : Exn) : M A := fun s => Fail e s.
Definition get {A} (f : State -> A) : M A := fun s => Ok (f s) s.
Definition modify (f : State -> State) : M unit := fun s => Ok tt (f s).

Notation "'let*' x ':=' c 'in' k" := (bind c (fun x => k))
  (at level 10, x pattern, c at level 100, k at level 200).
Notation "c ';;' k" := (bind c (fun _ => k))
  (at level 100, k at level 200, right associativity).

Definition state_of {A} (r : Res A) : option State :=
  match r with
  | Ok _ s => Some s
  | Fail _ s => Some s
  | OutOfFuel => None
  end.

(** Heap access.  A fiber address that is not allocated cannot arise from
    the code; reading through it is reported as the [TypeError] a [null]
    dereference would give. *)
Definition readFiber (a : Addr) : M Fiber :=
  fun s => match fibers s !! a with
           | Some f => Ok f s
           | None => Fail (TypeError "fiber") s
           end.
Definition writeFiber (a : Addr) (g : Fiber -> Fiber) : M unit :=
  fun s => match fibers s !! a with
           | Some f => Ok tt (set_fibers (<[a := g f]> (fibers s)) s)
           | None => Fail (TypeError "fiber") s
           end.
Definition newFiber (f : Fiber) : M Addr :=
  fun s => Ok (length (fibers s)) (set_fibers (fibers s ++ [f]) s).

Definition readHook (a : Addr) : M Hook :=
  fun s => match hookHeap s !! a with
           | Some h => Ok h s
           | None => Fail (TypeError "hook") s
           end.
Definition newHook (h : Hook) : M Addr :=
  fun s => Ok (length (hookHeap s)) (set_hookHeap (hookHeap s ++ [h]) s).

(** ** scheduler.js *)

Definition TIME_SLICE : Z := 5.

Definition performance_now : M Z := get now.

(** Running code takes time: [elapse d] lets [d] milliseconds pass. *)
Definition elapse (d : Z) : M unit := modify (fun s => set_now (now s + d) s).

(** [taskQueue.splice(index, 0, task)] *)
Definition splice_in {A} (index : nat) (x : A) (l : list A) : list A :=
  take index l ++ x :: drop index l.

(** [taskQueue.splice(index, 1)] *)
Definition splice_out {A} (index : nat) (l : list A) : list A :=
  take index l ++ drop (S index) l.

(** The [while] loop of [insertTask]: [rest] is [taskQueue] from [index]
    on. *)
Fixpoint insertTask_index (rest : list Task) (task : Task) (index : nat) : nat :=
  match rest with
  | t :: rest' =>
      if priority t <=? priority task
      then insertTask_index rest' task (S index)
      else index
  | [] => index
  end.

Definition insertTask (task : Task) : M unit :=
  modify (fun s =>
    let index := insertTask_index (taskQueue s) task 0 in
    set_taskQueue (splice_in index task (taskQueue s)) s).

(** Both branches of [scheduleWork] (a [MessageChannel] message or
    [setTimeout(flushWork, 0)]) queue one later call of [flushWork]. *)
Definition scheduleWork : M unit :=
  modify (fun s => set_macrotasks (S (macrotasks s)) s).

(** [Math.random()] serves as an identity only; ids are drawn from a
    counter. *)
Definition fresh_id : M nat :=
  fun s => Ok (taskIds s) (set_taskIds (S (taskIds s)) s).

Definition scheduleCallback (callback : Callback) (priority : Z) : M Task :=
  let* i := fresh_id in
  let* t := performance_now in
  let task := mkTask i callback priority t in
  insertTask task;;
  let* running := get isSchedulerRunning in
  (if negb running
   then modify (set_isSchedulerRunning true);; scheduleWork
   else ret tt);;
  ret task.

(** [taskQueue.indexOf(task)], tasks being compared by identity. *)
Fixpoint indexOf (q : list Task) (task : Task) (index : nat) : option nat :=
  match q with
  | [] => None
  | t :: q' => if Nat.eqb (id t) (id task) then Some index
               else indexOf q' task (S index)
  end.

Definition cancelCallback (task : Task) : M unit :=
  modify (fun s =>
    match indexOf (taskQueue s) task 0 with
    | Some index => set_taskQueue (splice_out index (taskQueue s)) s
    | None => s
    end).

Definition shouldYield (startTime : Z) : M bool :=
  let* t := performance_now in
  ret (t - startTime >=? TIME_SLICE).

(** [requestIdleCallback]: a call of [scheduleCallback] at priority 1000. *)
Definition requestIdleCallback (callback : Callback) : M Task :=
  scheduleCallback callback 1000.

(** ** fiber.js *)

(** *** [String.prototype.toLowerCase]

    Strings are UTF-8 text.  [toLowerCase] maps every code point to its
    lower case by the locale-insensitive mappings of the Unicode Character
    Database (version 14.0): the simple mappings, the one mapping to two
    code points (of U+0130), and the final form of the capital sigma. *)

(** The simple mappings, in runs [(first, last, step, target)]: the code
    points [first], [first + step], ... up to [last] are mapped to
    [target], [target + step], ... *)
Definition lower_runs : list (N * N * N * N) :=
  [
   (65, 90, 1, 97); (192, 214, 1, 224); (216, 222, 1, 248); (256, 302, 2, 257);
   (306, 310, 2, 307); (313, 327, 2, 314); (330, 374, 2, 331); (376, 376, 1, 255);
   (377, 381, 2, 378); (385, 385, 1, 595); (386, 388, 2, 387); (390, 390, 1, 596);
   (391, 391, 1, 392); (393, 394, 1, 598); (395, 395, 1, 396); (398, 398, 1, 477);
   (399, 399, 1, 601); (400, 400, 1, 603); (401, 401, 1, 402); (403, 403, 1, 608);
   (404, 404, 1, 611); (406, 406, 1, 617); (407, 407, 1, 616); (408, 408, 1, 409);
   (412, 412, 1, 623); (413, 413, 1, 626); (415, 415, 1, 629); (416, 420, 2, 417);
   (422, 422, 1, 640); (423, 423, 1, 424); (425, 425, 1, 643); (428, 428, 1, 429);
   (430, 430, 1, 648); (431, 431, 1, 432); (433, 434, 1, 650); (435, 437, 2, 436);
   (439, 439, 1, 658); (440, 440, 1, 441); (444, 444, 1, 445); (452, 452, 1, 454);
   (453, 453, 1, 454); (455, 455, 1, 457); (456, 456, 1, 457); (458, 458, 1, 460);
   (459, 475, 2, 460); (478, 494, 2, 479); (497, 497, 1, 499); (498, 500, 2, 499);
   (502, 502, 1, 405); (503, 503, 1, 447); (504, 542, 2, 505); (544, 544, 1, 414);
   (546, 562, 2, 547); (570, 570, 1, 11365); (571, 571, 1, 572); (573, 573, 1, 410);
   (574, 574, 1, 11366); (577, 577, 1, 578); (579, 579, 1, 384); (580, 580, 1, 649);
   (581, 581, 1, 652); (582, 590, 2, 583); (880, 882, 2, 881); (886, 886, 1, 887);
   (895, 895, 1, 1011); (902, 902, 1, 940); (904, 906, 1, 941); (908, 908, 1, 972);
   (910, 911, 1, 973); (913, 929, 1, 945); (931, 939, 1, 963); (975, 975, 1, 983);
   (984, 1006, 2, 985); (1012, 1012, 1, 952); (1015, 1015, 1, 1016);
   (1017, 1017, 1, 1010); (1018, 1018, 1, 1019); (1021, 1023, 1, 891);
   (1024, 1039, 1, 1104); (1040, 1071, 1, 1072); (1120, 1152, 2, 1121);
   (1162, 1214, 2, 1163); (1216, 1216, 1, 1231); (1217, 1229, 2, 1218);
   (1232, 1326, 2, 1233); (1329, 1366, 1, 1377); (4256, 4293, 1, 11520);
   (4295, 4295, 1, 11559); (4301, 4301, 1, 11565); (5024, 5103, 1, 43888);
   (5104, 5109, 1, 5112); (7312, 7354, 1, 4304); (7357, 7359, 1, 4349);
   (7680, 7828, 2, 7681); (7838, 7838, 1, 223); (7840, 7934, 2, 7841);
   (7944, 7951, 1, 7936); (7960, 7965, 1, 7952); (7976, 7983, 1, 7968);
   (7992, 7999, 1, 7984); (8008, 8013, 1, 8000); (8025, 8025, 1, 8017);
   (8027, 8027, 1, 8019); (8029, 8029, 1, 8021); (8031, 8031, 1, 8023);
   (8040, 8047, 1, 8032); (8072, 8079, 1, 8064); (8088, 8095, 1, 8080);
   (8104, 8111, 1, 8096); (8120, 8121, 1, 8112); (8122, 8123, 1, 8048);
   (8124, 8124, 1, 8115); (8136, 8139, 1, 8050); (8140, 8140, 1, 8131);
   (8152, 8153, 1, 8144); (8154, 8155, 1, 8054); (8168, 8169, 1, 8160);
   (8170, 8171, 1, 8058); (8172, 8172, 1, 8165); (8184, 8185, 1, 8056);
   (8186, 8187, 1, 8060); (8188, 8188, 1, 8179); (8486, 8486, 1, 969);
   (8490, 8490, 1, 107); (8491, 8491, 1, 229); (8498, 8498, 1, 8526);
   (8544, 8559, 1, 8560); (8579, 8579, 1, 8580); (9398, 9423, 1, 9424);
   (11264, 11311, 1, 11312); (11360, 11360, 1, 11361); (11362, 11362, 1, 619);
   (11363, 11363, 1, 7549); (11364, 11364, 1, 637); (11367, 11371, 2, 11368);
   (11373, 11373, 1, 593); (11374, 11374, 1, 625); (11375, 11375, 1, 592);
   (11376, 11376, 1, 594); (11378, 11378, 1, 11379); (11381, 11381, 1, 11382);
   (11390, 11391, 1, 575); (11392, 11490, 2, 11393); (11499, 11501, 2, 11500);
   (11506, 11506, 1, 11507); (42560, 42604, 2, 42561); (42624, 42650, 2, 42625);
   (42786, 42798, 2, 42787); (42802, 42862, 2, 42803); (42873, 42875, 2, 42874);
   (42877, 42877, 1, 7545); (42878, 42886, 2, 42879); (42891, 42891, 1, 42892);
   (42893, 42893, 1, 613); (42896, 42898, 2, 42897); (42902, 42920, 2, 42903);
   (42922, 42922, 1, 614); (42923, 42923, 1, 604); (42924, 42924, 1, 609);
   (42925, 42925, 1, 620); (42926, 42926, 1, 618); (42928, 42928, 1, 670);
   (42929, 42929, 1, 647); (42930, 42930, 1, 669); (42931, 42931, 1, 43859);
   (42932, 42946, 2, 42933); (42948, 42948, 1, 42900); (42949, 42949, 1, 642);
   (42950, 42950, 1, 7566); (42951, 42953, 2, 42952); (42960, 42960, 1, 42961);
   (42966, 42968, 2, 42967); (42997, 42997, 1, 42998); (65313, 65338, 1, 65345);
   (66560, 66599, 1, 66600); (66736, 66771, 1, 66776); (66928, 66938, 1, 66967);
   (66940, 66954, 1, 66979); (66956, 66962, 1, 66995); (66964, 66965, 1, 67003);
   (68736, 68786, 1, 68800); (71840, 71871, 1, 71872); (93760, 93791, 1, 93792);
   (125184, 125217, 1, 125218)
  ]%N.

(** The code points of the property [Case_Ignorable], in ranges. *)
Definition case_ignorable_ranges : list (N * N) :=
  [
   (39, 39); (46, 46); (58, 58); (94, 94); (96, 96); (168, 168); (173, 173); (175, 175);
   (180, 180); (183, 184); (688, 879); (884, 885); (890, 890); (900, 901); (903, 903);
   (1155, 1161); (1369, 1369); (1375, 1375); (1425, 1469); (1471, 1471); (1473, 1474);
   (1476, 1477); (1479, 1479); (1524, 1524); (1536, 1541); (1552, 1562); (1564, 1564);
   (1600, 1600); (1611, 1631); (1648, 1648); (1750, 1757); (1759, 1768); (1770, 1773);
   (1807, 1807); (1809, 1809); (1840, 1866); (1958, 1968); (2027, 2037); (2042, 2042);
   (2045, 2045); (2070, 2093); (2137, 2139); (2184, 2184); (2192, 2193); (2200, 2207);
   (2249, 2306); (2362, 2362); (2364, 2364); (2369, 2376); (2381, 2381); (2385, 2391);
   (2402, 2403); (2417, 2417); (2433, 2433); (2492, 2492); (2497, 2500); (2509, 2509);
   (2530, 2531); (2558, 2558); (2561, 2562); (2620, 2620); (2625, 2626); (2631, 2632);
   (2635, 2637); (2641, 2641); (2672, 2673); (2677, 2677); (2689, 2690); (2748, 2748);
   (2753, 2757); (2759, 2760); (2765, 2765); (2786, 2787); (2810, 2815); (2817, 2817);
   (2876, 2876); (2879, 2879); (2881, 2884); (2893, 2893); (2901, 2902); (2914, 2915);
   (2946, 2946); (3008, 3008); (3021, 3021); (3072, 3072); (3076, 3076); (3132, 3132);
   (3134, 3136); (3142, 3144); (3146, 3149); (3157, 3158); (3170, 3171); (3201, 3201);
   (3260, 3260); (3263, 3263); (3270, 3270); (3276, 3277); (3298, 3299); (3328, 3329);
   (3387, 3388); (3393, 3396); (3405, 3405); (3426, 3427); (3457, 3457); (3530, 3530);
   (3538, 3540); (3542, 3542); (3633, 3633); (3636, 3642); (3654, 3662); (3761, 3761);
   (3764, 3772); (3782, 3782); (3784, 3789); (3864, 3865); (3893, 3893); (3895, 3895);
   (3897, 3897); (3953, 3966); (3968, 3972); (3974, 3975); (3981, 3991); (3993, 4028);
   (4038, 4038); (4141, 4144); (4146, 4151); (4153, 4154); (4157, 4158); (4184, 4185);
   (4190, 4192); (4209, 4212); (4226, 4226); (4229, 4230); (4237, 4237); (4253, 4253);
   (4348, 4348); (4957, 4959); (5906, 5908); (5938, 5939); (5970, 5971); (6002, 6003);
   (6068, 6069); (6071, 6077); (6086, 6086); (6089, 6099); (6103, 6103); (6109, 6109);
   (6155, 6159); (6211, 6211); (6277, 6278); (6313, 6313); (6432, 6434); (6439, 6440);
   (6450, 6450); (6457, 6459); (6679, 6680); (6683, 6683); (6742, 6742); (6744, 6750);
   (6752, 6752); (6754, 6754); (6757, 6764); (6771, 6780); (6783, 6783); (6823, 6823);
   (6832, 6862); (6912, 6915); (6964, 6964); (6966, 6970); (6972, 6972); (6978, 6978);
   (7019, 7027); (7040, 7041); (7074, 7077); (7080, 7081); (7083, 7085); (7142, 7142);
   (7144, 7145); (7149, 7149); (7151, 7153); (7212, 7219); (7222, 7223); (7288, 7293);
   (7376, 7378); (7380, 7392); (7394, 7400); (7405, 7405); (7412, 7412); (7416, 7417);
   (7468, 7530); (7544, 7544); (7579, 7679); (8125, 8125); (8127, 8129); (8141, 8143);
   (8157, 8159); (8173, 8175); (8189, 8190); (8203, 8207); (8216, 8217); (8228, 8228);
   (8231, 8231); (8234, 8238); (8288, 8292); (8294, 8303); (8305, 8305); (8319, 8319);
   (8336, 8348); (8400, 8432); (11388, 11389); (11503, 11505); (11631, 11631);
   (11647, 11647); (11744, 11775); (11823, 11823); (12293, 12293); (12330, 12333);
   (12337, 12341); (12347, 12347); (12441, 12446); (12540, 12542); (40981, 40981);
   (42232, 42237); (42508, 42508); (42607, 42610); (42612, 42621); (42623, 42623);
   (42652, 42655); (42736, 42737); (42752, 42785); (42864, 42864); (42888, 42890);
   (42994, 42996); (43000, 43001); (43010, 43010); (43014, 43014); (43019, 43019);
   (43045, 43046); (43052, 43052); (43204, 43205); (43232, 43249); (43263, 43263);
   (43302, 43309); (43335, 43345); (43392, 43394); (43443, 43443); (43446, 43449);
   (43452, 43453); (43471, 43471); (43493, 43494); (43561, 43566); (43569, 43570);
   (43573, 43574); (43587, 43587); (43596, 43596); (43632, 43632); (43644, 43644);
   (43696, 43696); (43698, 43700); (43703, 43704); (43710, 43711); (43713, 43713);
   (43741, 43741); (43756, 43757); (43763, 43764); (43766, 43766); (43867, 43871);
   (43881, 43883); (44005, 44005); (44008, 44008); (44013, 44013); (64286, 64286);
   (64434, 64450); (65024, 65039); (65043, 65043); (65056, 65071); (65106, 65106);
   (65109, 65109); (65279, 65279); (65287, 65287); (65294, 65294); (65306, 65306);
   (65342, 65342); (65344, 65344); (65392, 65392); (65438, 65439); (65507, 65507);
   (65529, 65531); (66045, 66045); (66272, 66272); (66422, 66426); (67456, 67461);
   (67463, 67504); (67506, 67514); (68097, 68099); (68101, 68102); (68108, 68111);
   (68152, 68154); (68159, 68159); (68325, 68326); (68900, 68903); (69291, 69292);
   (69446, 69456); (69506, 69509); (69633, 69633); (69688, 69702); (69744, 69744);
   (69747, 69748); (69759, 69761); (69811, 69814); (69817, 69818); (69821, 69821);
   (69826, 69826); (69837, 69837); (69888, 69890); (69927, 69931); (69933, 69940);
   (70003, 70003); (70016, 70017); (70070, 70078); (70089, 70092); (70095, 70095);
   (70191, 70193); (70196, 70196); (70198, 70199); (70206, 70206); (70367, 70367);
   (70371, 70378); (70400, 70401); (70459, 70460); (70464, 70464); (70502, 70508);
   (70512, 70516); (70712, 70719); (70722, 70724); (70726, 70726); (70750, 70750);
   (70835, 70840); (70842, 70842); (70847, 70848); (70850, 70851); (71090, 71093);
   (71100, 71101); (71103, 71104); (71132, 71133); (71219, 71226); (71229, 71229);
   (71231, 71232); (71339, 71339); (71341, 71341); (71344, 71349); (71351, 71351);
   (71453, 71455); (71458, 71461); (71463, 71467); (71727, 71735); (71737, 71738);
   (71995, 71996); (71998, 71998); (72003, 72003); (72148, 72151); (72154, 72155);
   (72160, 72160); (72193, 72202); (72243, 72248); (72251, 72254); (72263, 72263);
   (72273, 72278); (72281, 72283); (72330, 72342); (72344, 72345); (72752, 72758);
   (72760, 72765); (72767, 72767); (72850, 72871); (72874, 72880); (72882, 72883);
   (72885, 72886); (73009, 73014); (73018, 73018); (73020, 73021); (73023, 73029);
   (73031, 73031); (73104, 73105); (73109, 73109); (73111, 73111); (73459, 73460);
   (78896, 78904); (92912, 92916); (92976, 92982); (92992, 92995); (94031, 94031);
   (94095, 94111); (94176, 94177); (94179, 94180); (110576, 110579); (110581, 110587);
   (110589, 110590); (113821, 113822); (113824, 113827); (118528, 118573);
   (118576, 118598); (119143, 119145); (119155, 119170); (119173, 119179);
   (119210, 119213); (119362, 119364); (121344, 121398); (121403, 121452);
   (121461, 121461); (121476, 121476); (121499, 121503); (121505, 121519);
   (122880, 122886); (122888, 122904); (122907, 122913); (122915, 122916);
   (122918, 122922); (123184, 123197); (123566, 123566); (123628, 123631);
   (125136, 125142); (125252, 125259); (127995, 127999); (917505, 917505);
   (917536, 917631); (917760, 917999)
  ]%N.

(** The code points of the property [Cased] that are not [Case_Ignorable],
    in ranges. *)
Definition cased_ranges : list (N * N) :=
  [
   (65, 90); (97, 122); (170, 170); (181, 181); (186, 186); (192, 214); (216, 246);
   (248, 442); (444, 447); (452, 659); (661, 687); (880, 883); (886, 887); (891, 893);
   (895, 895); (902, 902); (904, 906); (908, 908); (910, 929); (931, 1013);
   (1015, 1153); (1162, 1327); (1329, 1366); (1376, 1416); (4256, 4293); (4295, 4295);
   (4301, 4301); (4304, 4346); (4349, 4351); (5024, 5109); (5112, 5117); (7296, 7304);
   (7312, 7354); (7357, 7359); (7424, 7467); (7531, 7543); (7545, 7578); (7680, 7957);
   (7960, 7965); (7968, 8005); (8008, 8013); (8016, 8023); (8025, 8025); (8027, 8027);
   (8029, 8029); (8031, 8061); (8064, 8116); (8118, 8124); (8126, 8126); (8130, 8132);
   (8134, 8140); (8144, 8147); (8150, 8155); (8160, 8172); (8178, 8180); (8182, 8188);
   (8450, 8450); (8455, 8455); (8458, 8467); (8469, 8469); (8473, 8477); (8484, 8484);
   (8486, 8486); (8488, 8488); (8490, 8493); (8495, 8500); (8505, 8505); (8508, 8511);
   (8517, 8521); (8526, 8526); (8544, 8575); (8579, 8580); (9398, 9449); (11264, 11387);
   (11390, 11492); (11499, 11502); (11506, 11507); (11520, 11557); (11559, 11559);
   (11565, 11565); (42560, 42605); (42624, 42651); (42786, 42863); (42865, 42887);
   (42891, 42894); (42896, 42954); (42960, 42961); (42963, 42963); (42965, 42969);
   (42997, 42998); (43002, 43002); (43824, 43866); (43872, 43880); (43888, 43967);
   (64256, 64262); (64275, 64279); (65313, 65338); (65345, 65370); (66560, 66639);
   (66736, 66771); (66776, 66811); (66928, 66938); (66940, 66954); (66956, 66962);
   (66964, 66965); (66967, 66977); (66979, 66993); (66995, 67001); (67003, 67004);
   (68736, 68786); (68800, 68850); (71840, 71903); (93760, 93823); (119808, 119892);
   (119894, 119964); (119966, 119967); (119970, 119970); (119973, 119974);
   (119977, 119980); (119982, 119993); (119995, 119995); (119997, 120003);
   (120005, 120069); (120071, 120074); (120077, 120084); (120086, 120092);
   (120094, 120121); (120123, 120126); (120128, 120132); (120134, 120134);
   (120138, 120144); (120146, 120485); (120488, 120512); (120514, 120538);
   (120540, 120570); (120572, 120596); (120598, 120628); (120630, 120654);
   (120656, 120686); (120688, 120712); (120714, 120744); (120746, 120770);
   (120772, 120779); (122624, 122633); (122635, 122654); (125184, 125251);
   (127280, 127305); (127312, 127337); (127344, 127369)
  ]%N.

Fixpoint lower_of (runs : list (N * N * N * N)) (c : N) : N :=
  match runs with
  | [] => c
  | (first, last, step, target) :: runs' =>
      if ((first <=? c) && (c <=? last) && ((c - first) mod step =? 0))%N
      then (target + (c - first))%N
      else lower_of runs' c
  end.

Definition in_ranges (ranges : list (N * N)) (c : N) : bool :=
  existsb (fun r => ((fst r <=? c) && (c <=? snd r))%N) ranges.

(** Beyond any case-ignorable code points at the head of [l] there is a
    cased letter. *)
Fixpoint meets_cased (l : list N) : bool :=
  match l with
  | [] => false
  | c :: l' =>
      if in_ranges case_ignorable_ranges c then meets_cased l'
      else in_ranges cased_ranges c
  end.

(** [before] holds the code points already passed, the nearest first.  A
    capital sigma (U+03A3) becomes the final sigma (U+03C2) when a cased
    letter comes before it and none after it, and U+03C3 otherwise; U+0130
    becomes [i] followed by a combining dot. *)
Fixpoint lower_points (before l : list N) : list N :=
  match l with
  | [] => []
  | c :: l' =>
      (if (c =? 931)%N
       then [if meets_cased before && negb (meets_cased l') then 962%N else 963%N]
       else if (c =? 304)%N then [105%N; 775%N]
       else [lower_of lower_runs c])
      ++ lower_points (c :: before) l'
  end.

Definition continuation (b : N) : bool := ((128 <=? b) && (b <=? 191))%N.

(** The code points of a string.  A byte that does not start a
    well-formed sequence is kept, as a number beyond the last code point. *)
Fixpoint utf8_decode (s : string) : list N :=
  match s with
  | EmptyString => []
  | String c1 s1 =>
      let b1 := N_of_ascii c1 in
      let kept := (1114112 + b1)%N :: utf8_decode s1 in
      if (b1 <? 128)%N then b1 :: utf8_decode s1
      else
        match s1 with
        | EmptyString => kept
        | String c2 s2 =>
            let b2 := N_of_ascii c2 in
            if ((194 <=? b1) && (b1 <=? 223))%N && continuation b2
            then ((b1 - 192) * 64 + (b2 - 128))%N :: utf8_decode s2
            else
              match s2 with
              | EmptyString => kept
              | String c3 s3 =>
                  let b3 := N_of_ascii c3 in
                  let p3 := ((b1 - 224) * 4096 + (b2 - 128) * 64 + (b3 - 128))%N in
                  if ((224 <=? b1) && (b1 <=? 239))%N && continuation b2 && continuation b3
                     && (2048 <=? p3)%N && negb ((55296 <=? p3) && (p3 <=? 57343))%N
                  then p3 :: utf8_decode s3
                  else
                    match s3 with
                    | EmptyString => kept
                    | String c4 s4 =>
                        let b4 := N_of_ascii c4 in
                        let p4 := ((b1 - 240) * 262144 + (b2 - 128) * 4096
                                   + (b3 - 128) * 64 + (b4 - 128))%N in
                        if ((240 <=? b1) && (b1 <=? 244))%N && continuation b2
                           && continuation b3 && continuation b4
                           && ((65536 <=? p4) && (p4 <=? 1114111))%N
                        then p4 :: utf8_decode s4
                        else kept
                    end
              end
        end
  end.

Definition bytes (l : list N) : string :=
  fold_right (fun b s => String (ascii_of_N b) s) EmptyString l.

Definition utf8_encode_point (c : N) : string :=
  (if c <? 128 then bytes [c]
   else if c <? 2048 then bytes [192 + c / 64; 128 + c mod 64]
   else if c <? 65536 then bytes [224 + c / 4096; 128 + (c / 64) mod 64; 128 + c mod 64]
   else if c <? 1114112
        then bytes [240 + c / 262144; 128 + (c / 4096) mod 64; 128 + (c / 64) mod 64;
                    128 + c mod 64]
        else bytes [c - 1114112])%N.

Definition utf8_encode (l : list N) : string :=
  fold_right (fun c s => utf8_encode_point c ++ s)%string EmptyString l.

Definition toLowerCase (s : string) : string :=
  utf8_encode (lower_points [] (utf8_decode s)).

(** [name.toLowerCase().substring(2)], for a name that starts with [on]:
    its first two code units are its first two bytes. *)
Definition eventTypeOf (name : string) : string :=
  let l := toLowerCase name in String.substring 2 (String.length l - 2) l.

Definition isEvent (key : string) : bool := String.prefix "on" key.
Definition isProperty (key : string) : bool :=
  negb (String.eqb key "children") && negb (isEvent key).
Definition isNew (prev next : Attrs) (key : string) : bool :=
  negb (same_member (member key prev) (member key next)).
Definition isGone (next : Attrs) (key : string) : bool :=
  negb (has_member key next).

Definition keys (o : Attrs) : list string := map fst o.

Definition host (c : HostCall) : M unit :=
  modify (fun s => set_hostLog (hostLog s ++ [c]) s).

Fixpoint forEach {A} (f : A -> M unit) (l : list A) : M unit :=
  match l with
  | [] => ret tt
  | x :: l' => f x;; forEach f l'
  end.

(** The [children] entry of a props object is skipped by every filter of
    [updateDom], so only the other attributes are listed.  The values
    handed to the node are read under names of [Object.keys]: they are
    entries of the object itself. *)
Definition updateDom (dom : Handle) (prevProps nextProps : Attrs) : M unit :=
  forEach (fun name => host (RemoveEventListener dom (eventTypeOf name)
                                                 (get_attr name prevProps)))
    (List.filter (fun key => negb (has_member key nextProps) || isNew prevProps nextProps key)
       (List.filter isEvent (keys prevProps)));;
  forEach (fun name => host (SetProperty dom name (VStr "")))
    (List.filter (isGone nextProps) (List.filter isProperty (keys prevProps)));;
  forEach (fun name => host (SetProperty dom name (get_attr name nextProps)))
    (List.filter (isNew prevProps nextProps) (List.filter isProperty (keys nextProps)));;
  forEach (fun name => host (AddEventListener dom (eventTypeOf name)
                                              (get_attr name nextProps)))
    (List.filter (isNew prevProps nextProps) (List.filter isEvent (keys nextProps))).

Definition fresh_handle : M Handle :=
  fun s => Ok (nextHandle s) (set_nextHandle (S (nextHandle s)) s).

(** [createDom] is reached for host fibers only; a missing type would be
    turned into the tag ["undefined"] by [document.createElement]. *)
Definition createDom (fiber : Fiber) : M Handle :=
  let* dom := fresh_handle in
  (match type fiber with
   | Some (Host "TEXT_ELEMENT") => host (CreateTextNode "" dom)
   | Some (Host tag) => host (CreateElement tag dom)
   | _ => host (CreateElement "undefined" dom)
   end);;
  updateDom dom [] (attrs (props fiber));;
  ret dom.

Definition sameType (oldFiber : option Fiber) (element : option Element) : bool :=
  match oldFiber, element with
  | Some o, Some e =>
      match type o with
      | Some t => EType_eqb t (el_type e)
      | None => false
      end
  | _, _ => false
  end.

(** ** hooks.js *)

Definition setCurrentFiber (fiber : Addr) : M unit :=
  modify (set_currentFiber (Some fiber));;
  modify (set_hookIndex 0%nat);;
  let* f := readFiber fiber in
  match hooks f with
  | None => writeFiber fiber (set_hooks (Some []))
  | Some _ => ret tt
  end.

(** [currentFiber?.alternate?.hooks?.[hookIndex]] *)
Definition oldHookOf : M (option Addr) :=
  let* cf := get currentFiber in
  match cf with
  | None => ret None
  | Some a =>
      let* f := readFiber a in
      match alternate f with
      | None => ret None
      | Some alt =>
          let* o := readFiber alt in
          match hooks o with
          | None => ret None
          | Some hs => let* i := get hookIndex in ret (js_get i hs)
          end
      end
  end.

Definition readOldHook : M (option Hook) :=
  let* o := oldHookOf in
  match o with
  | None => ret None
  | Some a => let* h := readHook a in ret (Some h)
  end.

(** [currentFiber.hooks[hookIndex] = hook; hookIndex++] *)
Definition storeHook (hook : Addr) : M unit :=
  let* cf := get currentFiber in
  match cf with
  | None => throw (TypeError "currentFiber is null")
  | Some a =>
      let* f := readFiber a in
      match hooks f with
      | None => throw (TypeError "hooks is undefined")
      | Some hs =>
          let* i := get hookIndex in
          writeFiber a (set_hooks (Some (js_set i hook hs)));;
          modify (set_hookIndex (S i))
      end
  end.

(** [typeof action === 'function' ? action(state) : action]; [call] gives
    the pure function a value [VFun f] stands for. *)
Definition applyAction (call : nat -> Val -> Val) (state action : Val) : Val :=
  match action with
  | VFun f => call f state
  | v => v
  end.

(** [useState] returns the pair [[hook.state, setState]]; the setter is a
    closure over the freshly made [hook] object and is represented by the
    address of that object (see [setState]).  The queue of the old hook is
    folded into the state before the new object is allocated; nothing else
    can see the object in between. *)
Definition useState (call : nat -> Val -> Val) (initial : Val) : M (Val * Addr) :=
  let* oldHook := readOldHook in
  let state0 := match oldHook with Some o => hook_state o | None => initial end in
  let* actions :=
    match oldHook with
    | Some o => match hook_queue o with
                | Some q => ret q
                | None => throw (TypeError "actions.forEach")
                end
    | None => ret []
    end in
  let state := fold_left (applyAction call) actions state0 in
  let* hook := newHook (StateHook state []) in
  storeHook hook;;
  ret (state, hook).

(** [deps.every((dep, i) => dep === oldHook.deps[i])] with [oldDeps] an
    array; an index past its end reads [undefined]. *)
Fixpoint every_same (deps oldDeps : list Val) (i : nat) : bool :=
  match deps with
  | [] => true
  | dep :: rest =>
      strict_eq dep (nth i oldDeps VUndefined) && every_same rest oldDeps (S i)
  end.

(** [oldHook ? !deps || !deps.every(...) : true]; reading [oldHook.deps[i]]
    throws when the old hook has no [deps] and the callback is called at
    all. *)
Definition hasChanged (oldHook : option Hook) (deps : option (list Val)) : M bool :=
  match oldHook with
  | None => ret true
  | Some o =>
      match deps with
      | None => ret true
      | Some [] => ret false
      | Some ds =>
          match hook_deps o with
          | None => throw (TypeError "oldHook.deps is undefined")
          | Some olds => ret (negb (every_same ds olds 0))
          end
      end
  end.

Definition log (t : Trace) : M unit :=
  modify (fun s => set_trace (trace s ++ [t]) s).

Definition callCleanup (c : Cleanup) : M unit :=
  log (RanCleanup (cl_name c));;
  match cl_throws c with
  | Some e => throw (Thrown e)
  | None => ret tt
  end.

(** [effectQueue.push(...); Promise.resolve().then(flushEffects)]: the
    queued closure captures [effect] and [hook]. *)
Definition scheduleEffect (effect : EffectFn) (hook : Addr) : M unit :=
  modify (fun s => set_effectQueue (effectQueue s ++ [(effect, hook)]) s);;
  modify (fun s => set_microtasks (S (microtasks s)) s).

Definition useEffect (effect : EffectFn) (deps : option (list Val)) : M unit :=
  let* oldHook := readOldHook in
  let* changed := hasChanged oldHook deps in
  let oldCleanup := match oldHook with Some o => hook_cleanup o | None => None end in
  let* hook := newHook (EffectHook effect deps oldCleanup) in
  (if changed : bool
   then (match oldCleanup with
         | Some c => callCleanup c
         | None => ret tt
         end);;
        scheduleEffect effect hook
   else ret tt);;
  storeHook hook.

(** [useRef] returns the [hook] object itself, here its address. *)
Definition useRef (initialValue : Val) : M Addr :=
  let* oldHook := readOldHook in
  let current := match oldHook with
                 | Some o => hook_current o
                 | None => initialValue
                 end in
  let* hook := newHook (RefHook current) in
  storeHook hook;;
  ret hook.

(** The closure queued by [useEffect]:
    [const cleanup = effect(); if (typeof cleanup === 'function') hook.cleanup = cleanup]. *)
Definition runQueuedEffect (effect : EffectFn) (hook : Addr) : M unit :=
  log (RanEffect (eff_name effect));;
  match eff_result effect with
  | Throws e => throw (Thrown e)
  | Returns None => ret tt
  | Returns (Some c) =>
      fun s => match hookHeap s !! hook with
               | Some (EffectHook e d _) =>
                   Ok tt (set_hookHeap (<[hook := EffectHook e d (Some c)]> (hookHeap s)) s)
               | _ => Fail (TypeError "hook") s
               end
  end.

(** [try { c } catch (error) { handler(error) }] *)
Definition try_catch {A} (c : M A) (handler : Exn -> M A) : M A :=
  fun s => match c s with
           | Ok a s' => Ok a s'
           | Fail e s' => handler e s'
           | OutOfFuel => OutOfFuel
           end.

Definition console_error (m : ConsoleMsg) : M unit :=
  modify (fun s => set_console (console s ++ [m]) s).

(** The [while (effectQueue.length > 0)] loop of [flushEffects]. *)
Fixpoint flushEffects (fuel : nat) : M unit :=
  fun s =>
    match effectQueue s with
    | [] => Ok tt s
    | (effect, hook) :: rest =>
        match fuel with
        | O => OutOfFuel
        | S fuel' =>
            (modify (set_effectQueue rest);;
             try_catch (runQueuedEffect effect hook)
                       (fun error => console_error (EffectError error));;
             flushEffects fuel') s
        end
    end.

(** ** reconciler.js *)

(** What the surrounding program supplies: the bodies of the function
    components (addressed by the number in [Component c]), the pure
    functions that values [VFun f] stand for, the time one unit of render
    work takes, and whether a global [window] exists. *)
Record Env := mkEnv {
  components : nat -> Props -> M (option Element);
  call_fun : nat -> Val -> Val;
  unit_cost : Z;
  has_window : bool;
}.

Definition rootFiber (dom : option Handle) (props : Props) (alternate : option Addr) : Fiber :=
  mkFiber None props dom None None None alternate None None.

Definition render (element : option Element) (container : Handle) : M unit :=
  let* cur := get currentRoot in
  let* root := newFiber (rootFiber (Some container) (mkProps [] [element]) cur) in
  modify (set_wipRoot (Some root));;
  modify (set_deletions (Some []));;
  modify (set_nextUnitOfWork (Some root));;
  let* _ := scheduleCallback WorkLoop 0 in
  ret tt.

Definition scheduleUpdate : M unit :=
  let* cur := get currentRoot in
  match cur with
  | Some c =>
      let* f := readFiber c in
      let* root := newFiber (rootFiber (dom f) (props f) (Some c)) in
      modify (set_wipRoot (Some root));;
      modify (set_nextUnitOfWork (Some root));;
      modify (set_deletions (Some []));;
      let* _ := scheduleCallback WorkLoop 0 in
      ret tt
  | None => ret tt
  end.

(** The private [scheduleUpdate] of hooks.js, which goes through
    [window.__miniReactScheduleUpdate]. *)
Definition hooks_scheduleUpdate (env : Env) : M unit :=
  if has_window env then scheduleUpdate else ret tt.

(** The setter returned by [useState]: [hook.queue.push(action)] on the
    captured hook object, then [scheduleUpdate()]. *)
Definition setState (env : Env) (hook : Addr) (action : Val) : M unit :=
  (fun s => match hookHeap s !! hook with
            | Some (StateHook v q) =>
                Ok tt (set_hookHeap (<[hook := StateHook v (q ++ [action])]> (hookHeap s)) s)
            | _ => Fail (TypeError "hook.queue") s
            end);;
  hooks_scheduleUpdate env.

Definition readFiberOpt (a : option Addr) : M (option Fiber) :=
  match a with
  | None => ret None
  | Some x => let* f := readFiber x in ret (Some f)
  end.

Definition is_some {A} (o : option A) : bool :=
  match o with Some _ => true | None => false end.

Definition pushDeletion (a : Addr) : M unit :=
  fun s => match deletions s with
           | Some ds => Ok tt (set_deletions (Some (ds ++ [a])) s)
           | None => Fail (TypeError "deletions is null") s
           end.

(** The [while] loop of [reconcileChildren]; [index], [oldFiber] and
    [prevSibling] are its local variables. *)
Fixpoint reconcileLoop (fuel : nat) (wipFiber : Addr) (elements : list (option Element))
    (index : nat) (oldFiber prevSibling : option Addr) : M unit :=
  if negb (index <? length elements)%nat && negb (is_some oldFiber)
  then ret tt
  else
    match fuel with
    | O => fun _ => OutOfFuel
    | S fuel' =>
        let element := mjoin (elements !! index) in
        let* old := readFiberOpt oldFiber in
        let sameTypeFlag := sameType old element in
        let* new1 :=
          match old, element, oldFiber with
          | Some o, Some e, Some oa =>
              if sameTypeFlag
              then let* a := newFiber (mkFiber (type o) (el_props e) (dom o) (Some wipFiber)
                                               None None (Some oa) (Some UPDATE) None) in
                   ret (Some a)
              else ret None
          | _, _, _ => ret None
          end in
        let* new2 :=
          match element with
          | Some e =>
              if negb sameTypeFlag
              then let* a := newFiber (mkFiber (Some (el_type e)) (el_props e) None
                                               (Some wipFiber) None None None
                                               (Some PLACEMENT) None) in
                   ret (Some a)
              else ret new1
          | None => ret new1
          end in
        (match oldFiber with
         | Some oa =>
             if negb sameTypeFlag
             then writeFiber oa (set_effectTag (Some DELETION));; pushDeletion oa
             else ret tt
         | None => ret tt
         end);;
        let* oldNext :=
          match oldFiber with
          | Some oa => let* o := readFiber oa in ret (sibling o)
          | None => ret None
          end in
        (if (index =? 0)%nat
         then writeFiber wipFiber (set_child new2)
         else match element with
              | Some _ =>
                  match prevSibling with
                  | Some p => writeFiber p (set_sibling new2)
                  | None => throw (TypeError "prevSibling is null")
                  end
              | None => ret tt
              end);;
        reconcileLoop fuel' wipFiber elements (S index) oldNext new2
    end.

Definition reconcileChildren (fuel : nat) (wipFiber : Addr)
    (elements : list (option Element)) : M unit :=
  let* w := readFiber wipFiber in
  let* oldFiber :=
    match alternate w with
    | Some alt => let* o := readFiber alt in ret (child o)
    | None => ret None
    end in
  reconcileLoop fuel wipFiber elements 0 oldFiber None.

Definition updateFunctionComponent (fuel : nat) (env : Env) (fiber : Addr) (c : nat) : M unit :=
  setCurrentFiber fiber;;
  let* f := readFiber fiber in
  let* result := components env c (props f) in
  reconcileChildren fuel fiber [result].

Definition updateHostComponent (fuel : nat) (fiber : Addr) : M unit :=
  let* f := readFiber fiber in
  (match dom f with
   | None => let* d := createDom f in writeFiber fiber (set_dom (Some d))
   | Some _ => ret tt
   end);;
  reconcileChildren fuel fiber (children (props f)).

(** The second half of [performUnitOfWork]: climb until a sibling is
    found. *)
Fixpoint nextSiblingUp (fuel : nat) (nextFiber : option Addr) : M (option Addr) :=
  match nextFiber with
  | None => ret None
  | Some a =>
      match fuel with
      | O => fun _ => OutOfFuel
      | S fuel' =>
          let* f := readFiber a in
          match sibling f with
          | Some sib => ret (Some sib)
          | None => nextSiblingUp fuel' (parent f)
          end
      end
  end.

(** One unit of work; it takes [unit_cost env] milliseconds. *)
Definition performUnitOfWork (fuel : nat) (env : Env) (fiber : Addr) : M (option Addr) :=
  elapse (unit_cost env);;
  let* f := readFiber fiber in
  (match type f with
   | Some (Component c) => updateFunctionComponent fuel env fiber c
   | _ => updateHostComponent fuel fiber
   end);;
  let* f' := readFiber fiber in
  match child f' with
  | Some c => ret (Some c)
  | None => nextSiblingUp fuel (Some fiber)
  end.

Fixpoint commitDeletion (fuel : nat) (fiber : option Addr) (domParent : Handle) : M unit :=
  match fuel with
  | O => fun _ => OutOfFuel
  | S fuel' =>
      match fiber with
      | None => throw (TypeError "fiber.dom")
      | Some a =>
          let* f := readFiber a in
          match dom f with
          | Some d => host (RemoveChild domParent d)
          | None => commitDeletion fuel' (child f) domParent
          end
      end
  end.

(** [while (!domParentFiber.dom) domParentFiber = domParentFiber.parent] *)
Fixpoint domParentOf (fuel : nat) (domParentFiber : option Addr) : M Handle :=
  match fuel with
  | O => fun _ => OutOfFuel
  | S fuel' =>
      match domParentFiber with
      | None => throw (TypeError "domParentFiber.dom")
      | Some a =>
          let* f := readFiber a in
          match dom f with
          | Some d => ret d
          | None => domParentOf fuel' (parent f)
          end
      end
  end.

Fixpoint commitWork (fuel : nat) (fiber : option Addr) : M unit :=
  match fiber with
  | None => ret tt
  | Some a =>
      match fuel with
      | O => fun _ => OutOfFuel
      | S fuel' =>
          let* f := readFiber a in
          let* domParent := domParentOf fuel' (parent f) in
          (match effectTag f, dom f with
           | Some PLACEMENT, Some d => host (AppendChild domParent d)
           | Some UPDATE, Some d =>
               match alternate f with
               | Some alt =>
                   let* o := readFiber alt in
                   updateDom d (attrs (props o)) (attrs (props f))
               | None => throw (TypeError "fiber.alternate.props")
               end
           | Some DELETION, _ => commitDeletion fuel' (Some a) domParent
           | _, _ => ret tt
           end);;
          let* f1 := readFiber a in
          commitWork fuel' (child f1);;
          let* f2 := readFiber a in
          commitWork fuel' (sibling f2)
      end
  end.

Definition commitRoot (fuel : nat) : M unit :=
  let* ds := get deletions in
  (match ds with
   | Some l => forEach (fun a => commitWork fuel (Some a)) l
   | None => throw (TypeError "deletions.forEach")
   end);;
  let* w := get wipRoot in
  (match w with
   | Some r => let* f := readFiber r in commitWork fuel (child f)
   | None => throw (TypeError "wipRoot.child")
   end);;
  modify (set_currentRoot w);;
  modify (set_wipRoot None).

(** The [while (nextUnitOfWork)] loop of [workLoop]. *)
Fixpoint workLoop_units (fuel : nat) (env : Env) : M unit :=
  let* next := get nextUnitOfWork in
  match next with
  | None => ret tt
  | Some fiber =>
      match fuel with
      | O => fun _ => OutOfFuel
      | S fuel' =>
          let* n := performUnitOfWork fuel' env fiber in
          modify (set_nextUnitOfWork n);;
          workLoop_units fuel' env
      end
  end.

Definition workLoop (fuel : nat) (env : Env) : M unit :=
  workLoop_units fuel env;;
  let* next := get nextUnitOfWork in
  let* w := get wipRoot in
  match next, w with
  | None, Some _ => commitRoot fuel
  | _, _ => ret tt
  end.

(** ** scheduler.js, continued: running the queue *)

(** Calling [task.callback]; the result is [Some next] when the callback
    returned a function.  [workLoop] returns [undefined]. *)
Definition invoke (fuel : nat) (env : Env) (cb : Callback) : M (option Callback) :=
  match cb with
  | WorkLoop => workLoop fuel env;; ret None
  | UserCallback name cost result =>
      modify (fun s => set_executed (executed s ++ [name]) s);;
      elapse cost;;
      match result with
      | ReturnsUndefined => ret None
      | ReturnsFunction next => ret (Some next)
      | ThrowsError e => throw (Thrown e)
      end
  | NotAFunction => throw (TypeError "callback is not a function")
  end.

Definition is_function (cb : Callback) : bool :=
  match cb with NotAFunction => false | _ => true end.

(** The [while] loop inside the [try] block of [flushWork]. *)
Fixpoint flushWork_loop (fuel : nat) (env : Env) (turnStart : Z) : M unit :=
  let* q := get taskQueue in
  match q with
  | [] => ret tt
  | task :: rest =>
      let* yield := shouldYield turnStart in
      if yield : bool then ret tt
      else
        match fuel with
        | O => fun _ => OutOfFuel
        | S fuel' =>
            modify (set_taskQueue rest);;
            modify (set_currentTask (Some task));;
            (if is_function (callback task)
             then let* result := invoke fuel' env (callback task) in
                  match result with
                  | Some next =>
                      let task' := mkTask (id task) next (priority task) (startTime task) in
                      modify (set_currentTask (Some task'));;
                      insertTask task'
                  | None => ret tt
                  end
             else ret tt);;
            modify (set_currentTask None);;
            flushWork_loop fuel' env turnStart
        end
  end.

Definition flushWork (fuel : nat) (env : Env) : M unit :=
  let* turnStart := performance_now in
  try_catch (flushWork_loop fuel env turnStart)
            (fun error => console_error (SchedulerError error));;
  modify (set_currentTask None);;
  let* q := get taskQueue in
  match q with
  | _ :: _ => scheduleWork
  | [] => modify (set_isSchedulerRunning false)
  end.

(** ** The event loop around the modules *)

(** The microtasks queued by [scheduleEffect] are all [flushEffects]. *)
Fixpoint run_microtasks (fuel n : nat) : M unit :=
  match n with
  | O => ret tt
  | S n' =>
      modify (fun s => set_microtasks (Nat.pred (microtasks s)) s);;
      flushEffects fuel;;
      run_microtasks fuel n'
  end.

Definition microtask_checkpoint (fuel : nat) : M unit :=
  let* n := get microtasks in run_microtasks fuel n.

(** One scheduler turn: the browser delivers one pending [flushWork]
    message, then drains the microtasks. *)
Definition turn (fuel : nat) (env : Env) : M unit :=
  modify (fun s => set_macrotasks (Nat.pred (macrotasks s)) s);;
  flushWork fuel env;;
  microtask_checkpoint fuel.

(** At most [turns] turns, stopping when no message is pending. *)
Fixpoint run_turns (turns fuel : nat) (env : Env) : M unit :=
  let* pending := get macrotasks in
  match pending, turns with
  | O, _ => ret tt
  | S _, O => fun _ => OutOfFuel
  | S _, S turns' => turn fuel env;; run_turns turns' fuel env
  end.

(** [render(element, container)] by the page's script, followed by the
    scheduler turns it leads to. *)
Definition render_and_run (env : Env) (element : Element) (container : Handle) : M unit :=
  render (Some element) container;; run_turns 5 100 env.

Definition initial_state : State :=
  mkState [] false None None None None None None 0%nat [] [] [] 0 0%nat
          0%nat 0%nat [] 1%nat [] [] [].

(** ** render.js

    [render] of render.js hands its arguments to [render] of
    reconciler.js; [unstable_batchedUpdates(fn)] and [flushSync(fn)] are
    both [return fn()]. *)

Definition unstable_batchedUpdates {A} (fn : M A) : M A := fn.

Definition flushSync {A} (fn : M A) : M A := fn.

Definition unmountComponentAtNode (container : Handle) : M unit :=
  render None container.

(** The object returned by [createRoot(container)]. *)
Record Root := mkRoot {
  root_render : option Element -> M unit;
  root_unmount : M unit;
}.

Definition createRoot (container : Handle) : Root :=
  mkRoot (fun element => render element container) (render None container).

(** * Vocabulary of the properties and the programs they are checked on *)

(** ** Stable priority order *)

Section PriorityOrder.
Context {A : Type} (prio : A -> Z).

(** Insertion behind every leading element whose priority is not
    larger; [insertTask] does this on the task queue. *)
Fixpoint insert_behind (x : A) (q : list A) : list A :=
  match q with
  | [] => [x]
  | y :: q' =>
      if prio y <=? prio x
      then y :: insert_behind x q'
      else x :: y :: q'
  end.

(** The queue obtained from the empty one by inserting in arrival
    order. *)
Definition priority_order (arrivals : list A) : list A :=
  fold_left (fun q x => insert_behind x q) arrivals [].

Definition by_priority (a b : A) : Prop := prio a <= prio b.
Definition has_priority (p : Z) (a : A) : bool := prio a =? p.
End PriorityOrder.

(** ** Batches of scheduled tasks *)

(** A request is a call [scheduleCallback(callback, priority)]. *)
Abbreviation Request := (Callback * Z)%type.

Definition request_of (t : Task) : Request := (callback t, priority t).

Fixpoint schedule_all (l : list Request) : M unit :=
  match l with
  | [] => ret tt
  | (cb, p) :: l' => (let* _ := scheduleCallback cb p in ret tt);; schedule_all l'
  end.

(** A callback that is a function and, when called, returns something
    that is not a function or throws. *)
Definition one_shot (cb : Callback) : bool :=
  match cb with
  | UserCallback _ _ ReturnsUndefined => true
  | UserCallback _ _ (ThrowsError _) => true
  | _ => false
  end.

Definition callback_name (cb : Callback) : nat :=
  match cb with
  | UserCallback name _ _ => name
  | _ => 0%nat
  end.

Definition request_name (r : Request) : nat := callback_name (fst r).


(** Callbacks of the page: they may hand back a continuation, any number
    of times; the render loop of the reconciler is not among them. *)
Fixpoint page_callback (cb : Callback) : bool :=
  match cb with
  | WorkLoop => false
  | UserCallback _ _ (ReturnsFunction next) => page_callback next
  | _ => true
  end.

(** How many times the task of a callback is taken from the queue until
    it is finished. *)
Fixpoint visits (cb : Callback) : nat :=
  match cb with
  | UserCallback _ _ (ReturnsFunction next) => S (visits next)
  | _ => 1%nat
  end.

Definition total_visits (q : list Request) : nat :=
  list_sum (map (fun r => visits (fst r)) q).

(** Taking the first request from the queue: the call it makes, as the
    name of the callback with the priority of its task (none when the
    callback is not a function), and the queue it leaves, where a
    continuation is queued again at the same priority. *)
Definition take_first (q : list Request) : option (list (nat * Z) * list Request) :=
  match q with
  | [] => None
  | (cb, p) :: rest =>
      Some match cb with
           | UserCallback name _ (ReturnsFunction next) =>
               ([(name, p)], insert_behind snd (next, p) rest)
           | UserCallback name _ _ => ([(name, p)], rest)
           | _ => ([], rest)
           end
  end.

Definition queue_step (q : list Request) : list Request :=
  match take_first q with
  | Some (_, q') => q'
  | None => []
  end.

Fixpoint queue_after (k : nat) (q : list Request) : list Request :=
  match k with
  | O => q
  | S k' => queue_after k' (queue_step q)
  end.

(** The calls made by taking the first request [n] times. *)
Fixpoint calls_of (n : nat) (q : list Request) : list (nat * Z) :=
  match n with
  | O => []
  | S n' =>
      match take_first q with
      | None => []
      | Some (c, q') => c ++ calls_of n' q'
      end
  end.

(** What a run of the loop of [flushWork] leaves behind when it has
    taken the first task [k] times. *)
Definition loop_result (s : State) (k : nat) (r : Res unit) : Prop :=
  match state_of r with
  | Some s' =>
      map request_of (taskQueue s') = queue_after k (map request_of (taskQueue s)) /\
      executed s' = executed s ++ map fst (calls_of k (map request_of (taskQueue s))) /\
      macrotasks s' = macrotasks s /\
      microtasks s' = microtasks s /\
      isSchedulerRunning s' = isSchedulerRunning s
  | None => False
  end.

(** The scheduler is idle: nothing queued, no [flushWork] message and no
    microtask pending. *)
Definition idle (s : State) : Prop :=
  taskQueue s = [] /\ isSchedulerRunning s = false /\
  macrotasks s = 0%nat /\ microtasks s = 0%nat.

(** An environment without function components. *)
Definition no_components : nat -> Props -> M (option Element) :=
  fun _ _ => ret None.

Definition plain_env (cost : Z) : Env :=
  mkEnv no_components (fun _ v => v) cost true.

(** ** Components and states used as examples *)

(** A state in the middle of a render: fiber 1 is being rendered, its
    alternate is fiber 0, whose first hook slot is the object at address 0
    of the hook heap. *)
Definition mid_render (slot : Hook) : State :=
  set_currentFiber (Some 1%nat)
    (set_fibers [mkFiber (Some (Component 0)) (mkProps [] []) None None None None None
                         (Some PLACEMENT) (Some [Some 0%nat]);
                 mkFiber (Some (Component 0)) (mkProps [] []) None None None None
                         (Some 0%nat) (Some UPDATE) (Some [])]
       (set_hookHeap [slot] initial_state)).

Definition increment (f : nat) (v : Val) : Val :=
  match v with VNum n => VNum (n + 1) | _ => v end.

(** A counter: its state starts at 0 and is shown as the text of a [p]. *)
Definition Counter : Props -> M (option Element) :=
  fun _ =>
    let* (count, _) := useState increment (VNum 0) in
    ret (Some (El (Host "p") [] [Some (createTextElement count)])).

Definition counter_env : Env := mkEnv (fun _ => Counter) increment 1 true.

(** Some position of the new dependency list holds a value that is not
    identical to the value at that position of the old list (a position
    the old list does not have reads [undefined]). *)
Definition deps_differ (old new : list Val) : Prop :=
  exists i, (i < length new)%nat /\ nth i old VUndefined <> nth i new VUndefined.

Definition plain_effect (name : nat) : EffectFn := mkEffectFn name (Returns None).

(** A component that asks for a ref and shows the box it was given as the
    [ref] attribute of the [div] it returns. *)
Definition RefUser : Props -> M (option Element) :=
  fun _ =>
    let* box := useRef (VNum 0) in
    ret (Some (El (Host "div") [("ref", VObj box)] [])).

Definition ref_env : Env := mkEnv (fun _ => RefUser) (fun _ v => v) 1 true.

(** ** Effects *)







(** A component whose body throws. *)
Definition Boom : Props -> M (option Element) :=
  fun _ => throw (Thrown (VStr "boom")).

Definition boom_env : Env := mkEnv (fun _ => Boom) (fun _ v => v) 1 true.

Definition state_of_or {A} (default : State) (r : Res A) : State :=
  match state_of r with Some s => s | None => default end.

(** After [render] of a component that throws: the work loop is queued. *)
Definition boom_queued : State :=
  state_of_or initial_state
    (render (Some (El (Component 0) [] [])) 0%nat initial_state).

(** The state in which the exception leaves the loop of [workLoop]. *)
Definition boom_thrown : State :=
  state_of_or initial_state
    (workLoop_units 99 boom_env
       (set_currentTask (Some (mkTask 0 WorkLoop 0 0)) (set_taskQueue [] boom_queued))).

(** ** Host calls *)

(** The spec's host adapter calls, as they show in the DOM calls of the
    code: [createDom] makes a host instance with [document.createElement],
    and a text instance with [document.createTextNode('')] followed, in
    [updateDom], by the assignment of its [nodeValue]. *)
Inductive AdapterCall :=
| createHostInstance (tag : string) (h : Handle)
| createTextInstance (value : Val) (h : Handle)
| appendChild (parent child : Handle)
| removeChild (parent child : Handle)
| updateHostInstance (c : HostCall).

Fixpoint adapter_view (l : list HostCall) : list AdapterCall :=
  match l with
  | [] => []
  | c :: rest =>
      match c with
      | CreateElement tag h => createHostInstance tag h :: adapter_view rest
      | CreateTextNode _ h =>
          match rest with
          | SetProperty h' name v :: rest' =>
              if Nat.eqb h h' && String.eqb name "nodeValue"
              then createTextInstance v h :: adapter_view rest'
              else createTextInstance (VStr "") h :: adapter_view rest
          | _ => createTextInstance (VStr "") h :: adapter_view rest
          end
      | AppendChild p ch => appendChild p ch :: adapter_view rest
      | RemoveChild p ch => removeChild p ch :: adapter_view rest
      | _ => updateHostInstance c :: adapter_view rest
      end
  end.

(** The root descriptor [{type:'div', children:[{type:'text', value:'A'}]}]
    as [createElement('div', null, 'A')] builds it. *)
Definition div_A : Element :=
  El (Host "div") [] [Some (createTextElement (VStr "A"))].

(** ** Children lists and their fibers *)

(** The sibling chain that starts at [first], read in [heap]: the
    addresses of its fibers and their types, up to the end of the chain. *)
Fixpoint old_chain (heap : list Fiber) (first : option Addr)
    (l : list (Addr * EType)) : Prop :=
  match l with
  | [] => first = None
  | (a, t) :: l' =>
      first = Some a /\
      exists f, heap !! a = Some f /\ type f = Some t /\ old_chain heap (sibling f) l'
  end.

(** The effect tags of all fibers, by address. *)
Definition tags (heap : list Fiber) : list (option EffectTag) := effectTag <$> heap.

(** Children with their fibers, as a chain of addresses and types. *)
Definition chain_of (ps : list (Addr * Element)) : list (Addr * EType) :=
  map (fun p => (fst p, el_type (snd p))) ps.

(** After the removal of [x] from [front ++ x :: back], position by
    position: the fiber of [x] meets the first element of [back], the
    fiber of that element meets the next one, and so on. *)
Fixpoint shifted (x : Addr * Element) (back : list (Addr * Element))
    : list (Addr * Element) :=
  match back with
  | [] => []
  | y :: back' => (fst x, snd y) :: shifted y back'
  end.

Definition li (label : string) : Element := El (Host "li") [("id", VStr label)] [].

(** An item that holds a [span]. *)
Definition li_span (label : string) : Element :=
  El (Host "li") [("id", VStr label)] [Some (El (Host "span") [] [])].
Definition ul (items : list Element) : Element := El (Host "ul") [] (map Some items).

(** The state in which the fiber of the [ul] (address 6) is about to
    reconcile its children: [ul [A; B; C]] has been mounted, a render of
    [ul [B; C]] has been requested and its root unit performed. *)
Definition removal_state : State :=
  Eval vm_compute in
    match (render_and_run (plain_env 1) (ul [li "A"; li "B"; li "C"]) 0%nat;;
           render (Some (ul [li "B"; li "C"])) 0%nat;;
           performUnitOfWork 100 (plain_env 1) 5%nat) initial_state with
    | Ok _ s => s
    | _ => initial_state
    end.

(** ** Cancelled tasks, the time tasks take, and wake-ups *)

(** The queue without the task of identity [i]. *)
Fixpoint remove_id (i : nat) (q : list Task) : list Task :=
  match q with
  | [] => []
  | t :: q' => if Nat.eqb (id t) i then q' else t :: remove_id i q'
  end.

(** Every queued task carries an identity that [scheduleCallback] has
    handed out before. *)
Definition ids_issued (s : State) : Prop :=
  Forall (fun t => (id t < taskIds s)%nat) (taskQueue s).

(** A callback that returns [undefined], and the time a callback takes. *)
Definition returns_nothing (cb : Callback) : bool :=
  match cb with
  | UserCallback _ _ ReturnsUndefined => true
  | _ => false
  end.

Definition cost_of (cb : Callback) : Z :=
  match cb with
  | UserCallback _ cost _ => cost
  | _ => 0
  end.

Definition total_cost (q : list Task) : Z :=
  fold_right (fun t acc => cost_of (callback t) + acc) 0 q.

(** Whenever the scheduler is marked as running exactly one [flushWork]
    message is pending; when it is not, none is pending and the queue is
    empty. *)
Definition armed (s : State) : Prop :=
  if isSchedulerRunning s
  then macrotasks s = 1%nat
  else macrotasks s = 0%nat /\ taskQueue s = [].

(** ** Properties of host nodes *)

(** The value of the property [name] of the node [h] after the host calls
    of [log], when it was [before] at their start: the value of the last
    assignment [h[name] = v]. *)
Fixpoint dom_prop (log : list HostCall) (h : Handle) (name : string) (before : Val) : Val :=
  match log with
  | [] => before
  | SetProperty h' name' v :: rest =>
      dom_prop rest h name (if Nat.eqb h h' && String.eqb name name' then v else before)
  | _ :: rest => dom_prop rest h name before
  end.

(** What a host call of [updateDom dom prev next] may be: an assignment to
    a property of [dom] under whose name [prev] and [next] give different
    things (or of [''] to one that [next] no longer has in any way), or the
    removal or addition of a listener of [dom] for an event attribute whose
    handler has changed. *)
Definition update_of (dom : Handle) (prev next : Attrs) (c : HostCall) : Prop :=
  match c with
  | SetProperty h name v =>
      h = dom /\ isProperty name = true /\
      ((has_attr name next = true /\ v = get_attr name next /\
        member name prev <> member name next) \/
       (has_attr name prev = true /\ has_member name next = false /\ v = VStr ""))
  | RemoveEventListener h eventType v =>
      h = dom /\
      exists name, isEvent name = true /\ has_attr name prev = true /\
                   eventType = eventTypeOf name /\ v = get_attr name prev /\
                   (has_attr name next = false \/ get_attr name prev <> get_attr name next)
  | AddEventListener h eventType v =>
      h = dom /\
      exists name, isEvent name = true /\ has_attr name next = true /\
                   eventType = eventTypeOf name /\ v = get_attr name next /\
                   get_attr name prev <> get_attr name next
  | _ => False
  end.

(** The call by which [createDom] makes the node of a host fiber. *)
Definition creation (tag : string) (h : Handle) : HostCall :=
  if String.eqb tag "TEXT_ELEMENT" then CreateTextNode "" h else CreateElement tag h.

(** ** The fibers of a first render, and what a call may change *)

(** The fibers that a first render makes for the children [es] of the
    fiber [w], the first of them at address [base]: each is to be placed,
    has no node and no alternate yet, and points to the next one. *)
Fixpoint placed (w base : Addr) (es : list Element) : list Fiber :=
  match es with
  | [] => []
  | e :: es' =>
      mkFiber (Some (el_type e)) (el_props e) None (Some w) None
              (match es' with [] => None | _ :: _ => Some (S base) end)
              None (Some PLACEMENT) None
      :: placed w (S base) es'
  end.

(** [s'] differs from [s] by further host calls only. *)
Definition only_host_calls (s s' : State) : Prop :=
  exists calls, s' = set_hostLog (hostLog s ++ calls) s.

(** [s'] differs from [s] in the fiber heap and the deletion list only. *)
Definition only_fibers (s s' : State) : Prop :=
  exists heap ds, s' = set_deletions ds (set_fibers heap s).

(** A relation between the state before a call and the state in which it
    returns or throws. *)
Definition outcome {A} (R : State -> State -> Prop) (s : State) (r : Res A) : Prop :=
  match r with
  | Ok _ s' => R s s'
  | Fail _ s' => R s s'
  | OutOfFuel => True
  end.

(** The chain of fibers without a node that leads from [a] down the first
    children to [b]. *)
Fixpoint descends (heap : list Fiber) (a : option Addr) (path : list Addr)
    (b : option Addr) : Prop :=
  match path with
  | [] => a = b
  | x :: path' =>
      a = Some x /\
      exists f, heap !! x = Some f /\ dom f = None /\ descends heap (child f) path' b
  end.

(** ** States after a mount *)

(** A component that renders one [div]. *)
Definition Box : Props -> M (option Element) :=
  fun _ => ret (Some (El (Host "div") [] [])).

Definition box_env : Env := mkEnv (fun _ => Box) (fun _ v => v) 1 true.

(** [Box] has been mounted into the container, [render(null, container)]
    has been called and its render phase is over: the commit is next. *)
Definition unmount_state : State :=
  Eval vm_compute in
    match (render_and_run box_env (El (Component 0) [] []) 0%nat;;
           unmountComponentAtNode 0%nat;;
           workLoop_units 100 box_env) initial_state with
    | Ok _ s => s
    | _ => initial_state
    end.

(** [li "A"] has been mounted into the container. *)
Definition mounted_leaf : State :=
  Eval vm_compute in
    state_of_or initial_state (render_and_run (plain_env 1) (li "A") 0%nat initial_state).

(** The counter has been mounted. *)
Definition mounted_counter : State :=
  Eval vm_compute in
    state_of_or initial_state
      (render_and_run counter_env (El (Component 0) [] []) 0%nat initial_state).

(** ** The children of a later render, position by position *)

(** A position of the children list on a later render: the old fiber
    found there (its address, its type and its node) and the element that
    is now at the position. *)
Record Slot := mkSlot {
  old_addr : Addr;
  old_type : EType;
  old_dom : option Handle;
  new_element : Element;
}.

(** [sameType] at the position. *)
Definition keeps (p : Slot) : bool :=
  EType_eqb (old_type p) (el_type (new_element p)).

(** The sibling chain of old fibers that starts at [first], read in
    [heap], is the chain of the slots [l]. *)
Fixpoint old_slots (heap : list Fiber) (first : option Addr) (l : list Slot) : Prop :=
  match l with
  | [] => first = None
  | p :: l' =>
      first = Some (old_addr p) /\
      exists f, heap !! old_addr p = Some f /\
                type f = Some (old_type p) /\ dom f = old_dom p /\
                old_slots heap (sibling f) l'
  end.

(** The old fibers whose type differs from the type of the element at
    their position. *)
Definition replaced (l : list Slot) : list Addr :=
  map old_addr (List.filter (fun p => negb (keeps p)) l).

Definition mark_deleted (ds : list Addr) (heap : list Fiber) : list Fiber :=
  fold_left (fun h a => alter (set_effectTag (Some DELETION)) a h) ds heap.

(** The fiber made for a slot, with [sib] as its sibling: an update of the
    old fiber that keeps its node, or a new fiber to be placed. *)
Definition diff_fiber (w : Addr) (p : Slot) (sib : option Addr) : Fiber :=
  if keeps p
  then mkFiber (Some (old_type p)) (el_props (new_element p)) (old_dom p) (Some w) None sib
               (Some (old_addr p)) (Some UPDATE) None
  else mkFiber (Some (el_type (new_element p))) (el_props (new_element p)) None (Some w)
               None sib None (Some PLACEMENT) None.

(** The fibers made for the slots [l], the first of them at [base]. *)
Fixpoint diffed (w base : Addr) (l : list Slot) : list Fiber :=
  match l with
  | [] => []
  | p :: l' =>
      diff_fiber w p (match l' with [] => None | _ :: _ => Some (S base) end)
      :: diffed w (S base) l'
  end.

(** [ul [li "A"; p]] has been mounted, a render of [ul [li "B"; span]]
    has been requested and its root unit performed: the fiber of the new
    [ul] (address 5) is about to reconcile its children. *)
Definition retyped_state : State :=
  Eval vm_compute in
    match (render_and_run (plain_env 1)
             (El (Host "ul") [] [Some (li "A"); Some (El (Host "p") [] [])]) 0%nat;;
           render (Some (El (Host "ul") [] [Some (li "B"); Some (El (Host "span") [] [])]))
                  0%nat;;
           performUnitOfWork 100 (plain_env 1) 4%nat) initial_state with
    | Ok _ s => s
    | _ => initial_state
    end.

(** * Properties *)

(** Symbolic execution of the sequencing operators. *)
Ltac run_monad :=
  repeat progress (unfold bind, ret, get, modify, throw; cbv beta iota).

(** ** Scheduler: the queue is kept in stable priority order *)

Section PriorityOrderFacts.
Context {A : Type} (prio : A -> Z).

Lemma insert_behind_perm (x : A) (q : list A) :
  Permutation (insert_behind prio x q) (x :: q).
Proof.
  induction q as [|t q IH]; simpl; [apply Permutation_refl|].
  destruct (prio t <=? prio x).
  - eapply Permutation_trans; [apply perm_skip, IH | apply perm_swap].
  - apply Permutation_refl.
Qed.

Lemma insert_behind_sorted (x : A) (q : list A) :
  StronglySorted (by_priority prio) q -> StronglySorted (by_priority prio) (insert_behind prio x q).
Proof.
  induction 1 as [|t q Hq IH Ht]; simpl.
  - constructor; constructor.
  - destruct (prio t <=? prio x) eqn:E.
    + constructor; [exact IH|].
      rewrite List.Forall_forall. intros y Hy.
      apply (Permutation_in _ (insert_behind_perm x q)) in Hy.
      destruct Hy as [<-|Hy].
      * apply Z.leb_le, E.
      * rewrite List.Forall_forall in Ht. apply Ht, Hy.
    + apply Z.leb_gt in E.
      constructor; [constructor; assumption|].
      constructor; [unfold by_priority; lia|].
      eapply Forall_impl; [exact Ht|].
      unfold by_priority. intros y Hy. simpl in Hy. lia.
Qed.

Lemma filter_none (f : A -> bool) (l : list A) :
  (forall y, In y l -> f y = false) -> List.filter f l = [].
Proof.
  induction l as [|a l IH]; intros H; simpl; [reflexivity|].
  rewrite (H a (or_introl eq_refl)). apply IH. intros y Hy. apply H. right. exact Hy.
Qed.

(** In a sorted queue the new element lands behind the elements of its
    own priority: among equals, arrival order is kept. *)
Lemma insert_behind_stable (p : Z) (x : A) (q : list A) :
  StronglySorted (by_priority prio) q ->
  List.filter (has_priority prio p) (insert_behind prio x q)
  = (List.filter (has_priority prio p) q ++ List.filter (has_priority prio p) [x]).
Proof.
  induction 1 as [|t q Hq IH Ht]; simpl; [reflexivity|].
  destruct (prio t <=? prio x) eqn:E; simpl.
  - rewrite IH. simpl. destruct (has_priority prio p t); reflexivity.
  - apply Z.leb_gt in E.
    assert (Hnone : has_priority prio p x = true ->
                    List.filter (has_priority prio p) (t :: q) = []).
    { unfold has_priority. intros Hp. apply Z.eqb_eq in Hp.
      apply filter_none. intros y Hy.
      assert (prio t <= prio y).
      { destruct Hy as [<-|Hy]; [lia|].
        rewrite List.Forall_forall in Ht. apply Ht, Hy. }
      apply Z.eqb_neq. lia. }
    destruct (has_priority prio p x) eqn:Ep.
    + simpl in Hnone. rewrite (Hnone eq_refl). reflexivity.
    + rewrite app_nil_r. reflexivity.
Qed.

Lemma fold_insert_facts (arrivals q : list A) :
  StronglySorted (by_priority prio) q ->
  let r := fold_left (fun q x => insert_behind prio x q) arrivals q in
  StronglySorted (by_priority prio) r /\
  Permutation r (q ++ arrivals) /\
  forall p, List.filter (has_priority prio p) r
            = (List.filter (has_priority prio p) q ++ List.filter (has_priority prio p) arrivals).
Proof.
  revert q. induction arrivals as [|x l IH]; intros q Hq; simpl.
  - rewrite app_nil_r. split; [exact Hq|]. split; [apply Permutation_refl|].
    intros p. rewrite app_nil_r. reflexivity.
  - destruct (IH (insert_behind prio x q) (insert_behind_sorted x q Hq)) as (H1 & H2 & H3).
    split; [exact H1|]. split.
    + eapply Permutation_trans; [exact H2|].
      eapply Permutation_trans;
        [apply Permutation_app_tail, insert_behind_perm|].
      simpl. apply Permutation_middle.
    + intros p. rewrite H3, insert_behind_stable by exact Hq.
      simpl. rewrite <- app_assoc. destruct (has_priority prio p x); reflexivity.
Qed.

(** [priority_order] is the stable sort by ascending priority. *)
Lemma priority_order_stable_sort (arrivals : list A) :
  StronglySorted (by_priority prio) (priority_order prio arrivals) /\
  Permutation (priority_order prio arrivals) arrivals /\
  forall p, List.filter (has_priority prio p) (priority_order prio arrivals)
            = List.filter (has_priority prio p) arrivals.
Proof.
  apply (fold_insert_facts arrivals []). constructor.
Qed.
End PriorityOrderFacts.

Lemma splice_in_cons {A} (i : nat) (x y : A) (l : list A) :
  splice_in (S i) x (y :: l) = y :: splice_in i x l.
Proof. reflexivity. Qed.

Lemma insertTask_index_shift (rest : list Task) (task : Task) (i : nat) :
  insertTask_index rest task (S i) = S (insertTask_index rest task i).
Proof.
  revert i. induction rest as [|t rest IH]; intros i; simpl; [reflexivity|].
  destruct (priority t <=? priority task); [apply IH | reflexivity].
Qed.

Lemma insertTask_spec (task : Task) (q : list Task) :
  splice_in (insertTask_index q task 0) task q = insert_behind priority task q.
Proof.
  induction q as [|t q IH]; simpl; [reflexivity|].
  destruct (priority t <=? priority task).
  - rewrite insertTask_index_shift, splice_in_cons, IH. reflexivity.
  - reflexivity.
Qed.

Lemma insertTask_run (task : Task) (s : State) :
  insertTask task s
  = Ok tt (set_taskQueue (insert_behind priority task (taskQueue s)) s).
Proof. unfold insertTask, modify. rewrite insertTask_spec. reflexivity. Qed.

(** ** Scheduler: running a batch of scheduled tasks *)

Lemma request_of_insert_behind (task : Task) (q : list Task) :
  map request_of (insert_behind priority task q)
  = insert_behind snd (request_of task) (map request_of q).
Proof.
  induction q as [|t q IH]; simpl; [reflexivity|].
  destruct (priority t <=? priority task); simpl; [rewrite IH|]; reflexivity.
Qed.

Lemma scheduleCallback_run (cb : Callback) (p : Z) (s : State) :
  exists task s',
    scheduleCallback cb p s = Ok task s' /\
    request_of task = (cb, p) /\
    taskQueue s' = insert_behind priority task (taskQueue s) /\
    executed s' = executed s /\
    microtasks s' = microtasks s /\
    isSchedulerRunning s' = true /\
    macrotasks s' = if isSchedulerRunning s then macrotasks s else S (macrotasks s).
Proof.
  unfold scheduleCallback, bind, fresh_id, performance_now, get, ret.
  rewrite insertTask_run. simpl.
  destruct (isSchedulerRunning s) eqn:E; simpl;
    eexists; eexists; (split; [reflexivity|]); simpl; rewrite ?E; auto 10.
Qed.

Lemma schedule_all_run (l : list Request) : forall s,
  exists s',
    schedule_all l s = Ok tt s' /\
    map request_of (taskQueue s')
    = fold_left (fun q r => insert_behind snd r q) l (map request_of (taskQueue s)) /\
    executed s' = executed s /\
    microtasks s' = microtasks s /\
    isSchedulerRunning s' = (isSchedulerRunning s || negb (Nat.eqb (length l) 0)) /\
    macrotasks s' = if isSchedulerRunning s || Nat.eqb (length l) 0
                    then macrotasks s else S (macrotasks s).
Proof.
  induction l as [|[cb p] l IH]; intros s; simpl.
  - exists s. unfold ret. rewrite !orb_false_r.
    destruct (isSchedulerRunning s); auto 10.
  - destruct (scheduleCallback_run cb p s) as (task & s1 & H & Hr & Hq & He & Hm & Hrun & Hmac).
    destruct (IH s1) as (s2 & H2 & Hq2 & He2 & Hm2 & Hrun2 & Hmac2).
    exists s2. unfold bind at 1. unfold bind at 1. rewrite H. unfold ret at 1.
    split; [exact H2|].
    rewrite Hq2, Hq, request_of_insert_behind, Hr, He2, He, Hm2, Hm, Hrun2, Hmac2, Hrun, Hmac.
    simpl. rewrite !orb_false_r, orb_true_r. auto 10.
Qed.

Lemma flushWork_loop_eq (fuel : nat) (env : Env) (turnStart : Z) (s : State) :
  flushWork_loop fuel env turnStart s =
  match taskQueue s with
  | [] => Ok tt s
  | task :: rest =>
      if now s - turnStart >=? TIME_SLICE then Ok tt s
      else match fuel with
           | O => OutOfFuel
           | S fuel' =>
               ((if is_function (callback task)
                 then let* result := invoke fuel' env (callback task) in
                      match result with
                      | Some next =>
                          let task' := mkTask (id task) next (priority task) (startTime task) in
                          modify (set_currentTask (Some task'));;
                          insertTask task'
                      | None => ret tt
                      end
                 else ret tt);;
                modify (set_currentTask None);;
                flushWork_loop fuel' env turnStart)
                 (set_currentTask (Some task) (set_taskQueue rest s))
           end
  end.
Proof.
  destruct fuel; simpl; unfold bind, get, shouldYield, performance_now, bind, get, ret;
    destruct (taskQueue s); try reflexivity;
    destruct (now s - turnStart >=? TIME_SLICE); reflexivity.
Qed.

Lemma microtask_checkpoint_idle (fuel : nat) (s : State) :
  microtasks s = 0%nat -> microtask_checkpoint fuel s = Ok tt s.
Proof.
  intros H. unfold microtask_checkpoint, bind, get. rewrite H. reflexivity.
Qed.

Lemma run_turns_eq (turns fuel : nat) (env : Env) (s : State) :
  run_turns turns fuel env s =
  match macrotasks s, turns with
  | O, _ => Ok tt s
  | S _, O => OutOfFuel
  | S _, S turns' => (turn fuel env;; run_turns turns' fuel env) s
  end.
Proof.
  destruct turns; simpl; unfold bind, get; destruct (macrotasks s); reflexivity.
Qed.

Lemma calls_of_nil (n : nat) : calls_of n [] = [].
Proof. destruct n; reflexivity. Qed.

Lemma queue_after_nil (k : nat) : queue_after k [] = [].
Proof. induction k; [reflexivity | exact IHk]. Qed.

Lemma calls_of_split (k : nat) : forall m q,
  calls_of (k + m) q = calls_of k q ++ calls_of m (queue_after k q).
Proof.
  induction k as [|k IH]; intros m q; [reflexivity|].
  simpl. unfold queue_step. destruct (take_first q) as [[c q']|].
  - rewrite IH, app_assoc. reflexivity.
  - rewrite queue_after_nil, calls_of_nil. reflexivity.
Qed.

Lemma total_visits_insert (x : Request) (q : list Request) :
  total_visits (insert_behind snd x q) = (visits (fst x) + total_visits q)%nat.
Proof.
  unfold total_visits.
  induction q as [|y q IH]; simpl; [reflexivity|].
  destruct (snd y <=? snd x); simpl; [rewrite IH|]; lia.
Qed.

Lemma total_visits_step (r : Request) (rest : list Request) :
  S (total_visits (queue_step (r :: rest))) = total_visits (r :: rest).
Proof.
  destruct r as [cb p]. unfold queue_step. simpl.
  destruct cb as [|name cost [| next |e]|]; try reflexivity.
  rewrite total_visits_insert. reflexivity.
Qed.

Lemma page_callback_step (q : list Request) :
  Forall (fun r => page_callback (fst r) = true) q ->
  Forall (fun r => page_callback (fst r) = true) (queue_step q).
Proof.
  intros H. destruct q as [|[cb p] rest]; [constructor|].
  inversion H as [|? ? Hcb Hrest]; subst. unfold queue_step. simpl.
  destruct cb as [|name cost [| next |e]|]; try exact Hrest.
  eapply Permutation_Forall; [apply Permutation_sym, insert_behind_perm|].
  constructor; assumption.
Qed.

Lemma loop_result_next (s s1 : State) (k : nat) (r : Res unit)
    (c : list (nat * Z)) (q' : list Request) :
  take_first (map request_of (taskQueue s)) = Some (c, q') ->
  map request_of (taskQueue s1) = q' ->
  executed s1 = executed s ++ map fst c ->
  macrotasks s1 = macrotasks s ->
  microtasks s1 = microtasks s ->
  isSchedulerRunning s1 = isSchedulerRunning s ->
  loop_result s1 k r -> loop_result s (S k) r.
Proof.
  intros Ht Hq He Hma Hmi Hr. unfold loop_result.
  destruct (state_of r) as [s'|]; [|tauto].
  intros (H1 & H2 & H3 & H4 & H5).
  simpl. unfold queue_step. rewrite Ht, <- Hq, map_app, app_assoc, <- He.
  rewrite H1, H2, H3, H4, H5. auto.
Qed.

Lemma flushWork_loop_page (env : Env) (turnStart : Z) : forall n fuel s,
  (total_visits (map request_of (taskQueue s)) <= n)%nat ->
  (n <= fuel)%nat ->
  Forall (fun r => page_callback (fst r) = true) (map request_of (taskQueue s)) ->
  exists k,
    loop_result s k (flushWork_loop fuel env turnStart s) /\
    (k + total_visits (queue_after k (map request_of (taskQueue s))))%nat
    = total_visits (map request_of (taskQueue s)) /\
    (now s - turnStart < TIME_SLICE -> taskQueue s <> [] -> (1 <= k)%nat).
Proof.
  assert (Hstop : forall fuel s,
            flushWork_loop fuel env turnStart s = Ok tt s ->
            exists k,
              loop_result s k (flushWork_loop fuel env turnStart s) /\
              (k + total_visits (queue_after k (map request_of (taskQueue s))))%nat
              = total_visits (map request_of (taskQueue s))).
  { intros fuel s ->. exists 0%nat. unfold loop_result. simpl.
    rewrite app_nil_r. auto 10. }
  induction n as [|n IH]; intros fuel s Hn Hfuel Hpage.
  - destruct (taskQueue s) as [|t rest] eqn:Eq.
    + destruct (Hstop fuel s) as (k & H1 & H2).
      { rewrite flushWork_loop_eq, Eq. reflexivity. }
      exists k. rewrite Eq in *. split; [exact H1|]. split; [exact H2|]. congruence.
    + exfalso. simpl in Hn. unfold total_visits in Hn. simpl in Hn.
      destruct (callback t) as [|? ? [| |]|]; simpl in Hn; lia.
  - destruct (taskQueue s) as [|t rest] eqn:Eq.
    { destruct (Hstop fuel s) as (k & H1 & H2).
      { rewrite flushWork_loop_eq, Eq. reflexivity. }
      exists k. rewrite Eq in *. split; [exact H1|]. split; [exact H2|]. congruence. }
    destruct (now s - turnStart >=? TIME_SLICE) eqn:Ey.
    { destruct (Hstop fuel s) as (k & H1 & H2).
      { rewrite flushWork_loop_eq, Eq, Ey. reflexivity. }
      exists k. rewrite Eq in *. split; [exact H1|]. split; [exact H2|].
      intros Hlt. apply Z.geb_le in Ey. lia. }
    destruct fuel as [|fuel]; [lia|].
    pose proof (total_visits_step (request_of t) (map request_of rest)) as Hvis.
    pose proof (page_callback_step _ Hpage) as Hpage'.
    try rewrite Eq in Hpage'. try rewrite Eq in Hn. simpl map in Hpage', Hn.
    assert (Hgo : forall s1 c,
              take_first (map request_of (taskQueue s)) = Some (c, queue_step (request_of t :: map request_of rest)) ->
              map request_of (taskQueue s1) = queue_step (request_of t :: map request_of rest) ->
              executed s1 = executed s ++ map fst c ->
              macrotasks s1 = macrotasks s ->
              microtasks s1 = microtasks s ->
              isSchedulerRunning s1 = isSchedulerRunning s ->
              exists k,
                loop_result s k (flushWork_loop fuel env turnStart s1) /\
                (k + total_visits (queue_after k (map request_of (taskQueue s))))%nat
                = total_visits (map request_of (taskQueue s)) /\
                (1 <= k)%nat).
    { intros s1 c Ht Hq He Hma Hmi Hr.
      destruct (IH fuel s1) as (k & Hk1 & Hk2 & _).
      { rewrite Hq. lia. }
      { lia. }
      { rewrite Hq. exact Hpage'. }
      exists (S k). split; [eapply loop_result_next; eassumption|].
      split; [|lia].
      rewrite Eq. simpl map. simpl queue_after. rewrite <- Hvis.
      rewrite Hq in Hk2. lia. }
    rewrite flushWork_loop_eq, Eq, Ey.
    try rewrite Eq in Hpage. simpl in Hpage. inversion Hpage as [|? ? Hcb _]; subst.
    rewrite Eq in Hgo. clear Hvis Hpage' Hn IH Hstop Hpage.
    destruct t as [tid cb p tst]. unfold queue_step, request_of in Hgo.
    simpl in Hcb, Hgo. simpl callback. simpl priority. simpl startTime. simpl id.
    destruct cb as [|name cost result|]; [discriminate| |].
    + destruct result as [|next|e].
      * simpl is_function. cbv iota. unfold invoke. run_monad.
        unfold elapse. run_monad.
        match goal with |- context [flushWork_loop fuel env turnStart ?st] =>
          destruct (Hgo st [(name, p)]) as (k & H1 & H2 & H3) end;
          try reflexivity.
        exists k. auto.
      * simpl is_function. cbv iota. unfold invoke. run_monad.
        unfold elapse. run_monad. rewrite insertTask_run. cbv iota.
        match goal with |- context [flushWork_loop fuel env turnStart ?st] =>
          destruct (Hgo st [(name, p)]) as (k & H1 & H2 & H3) end;
          try reflexivity.
        { cbn [taskQueue set_taskQueue set_currentTask set_now set_executed].
          rewrite request_of_insert_behind. reflexivity. }
        exists k. auto.
      * simpl is_function. cbv iota. unfold invoke. run_monad.
        unfold elapse. run_monad.
        exists 1%nat. unfold loop_result. simpl state_of. cbv iota.
        cbn [taskQueue executed macrotasks microtasks isSchedulerRunning
             set_taskQueue set_currentTask set_now set_executed].
        rewrite Eq. unfold total_visits, queue_step, request_of. simpl.
        repeat split; try reflexivity; lia.
    + simpl is_function. cbv iota. run_monad.
      match goal with |- context [flushWork_loop fuel env turnStart ?st] =>
        destruct (Hgo st []) as (k & H1 & H2 & H3) end;
        try reflexivity.
      { cbn [executed set_currentTask set_taskQueue]. rewrite app_nil_r. reflexivity. }
      exists k. auto.
Qed.

Lemma total_visits_empty (q : list Request) : total_visits q = 0%nat -> q = [].
Proof.
  destruct q as [|[cb p] q]; [reflexivity|].
  unfold total_visits. simpl. destruct cb as [|? ? [| |]|]; simpl; lia.
Qed.

Lemma queue_after_exhausted (m : nat) : forall q,
  (total_visits q <= m)%nat -> queue_after m q = [].
Proof.
  induction m as [|m IH]; intros q H; simpl.
  - apply total_visits_empty. lia.
  - apply IH. destruct q as [|r rest]; [unfold queue_step, total_visits; simpl; lia|].
    pose proof (total_visits_step r rest). lia.
Qed.

Lemma calls_of_saturated (m j : nat) (q : list Request) :
  (total_visits q <= m)%nat -> calls_of (m + j) q = calls_of m q.
Proof.
  intros H. rewrite calls_of_split, (queue_after_exhausted m q H), calls_of_nil.
  apply app_nil_r.
Qed.

Lemma total_visits_priority_order (l q : list Request) :
  total_visits (fold_left (fun q r => insert_behind snd r q) l q)
  = (total_visits l + total_visits q)%nat.
Proof.
  revert q. induction l as [|r l IH]; intros q; simpl; [reflexivity|].
  rewrite IH, total_visits_insert. unfold total_visits. simpl. lia.
Qed.

(** The calls are made in ascending order of priority. *)
Lemma calls_of_ascending (n : nat) : forall (q : list Request) (b : Z),
  StronglySorted (by_priority snd) q ->
  Forall (fun r => b <= snd r) q ->
  StronglySorted Z.le (map snd (calls_of n q)) /\
  Forall (fun c => b <= snd c) (calls_of n q).
Proof.
  induction n as [|n IH]; intros q b Hsorted Hlow; simpl.
  - split; constructor.
  - destruct q as [|[cb p] rest]; simpl; [split; constructor|].
    inversion Hsorted as [|? ? Hrest Hhead]; subst.
    inversion Hlow as [|? ? Hp _]; subst. simpl in Hp.
    assert (Hrest_low : Forall (fun r => p <= snd r) rest) by exact Hhead.
    assert (Hnext : forall q', StronglySorted (by_priority snd) q' ->
                               Forall (fun r => p <= snd r) q' ->
                               forall c, (c = [] \/ exists name, c = [(name, p)]) ->
              StronglySorted Z.le (map snd (c ++ calls_of n q')) /\
              Forall (fun x => b <= snd x) (c ++ calls_of n q')).
    { intros q' Hs Hl c Hc. destruct (IH q' p Hs Hl) as (H1 & H2).
      assert (H3 : Forall (fun x => b <= snd x) (calls_of n q')).
      { eapply Forall_impl; [exact H2|]. simpl. intros. lia. }
      destruct Hc as [->|(name & ->)]; simpl; [auto|].
      split.
      - constructor; [exact H1|]. rewrite List.Forall_map. exact H2.
      - constructor; [exact Hp|exact H3]. }
    destruct cb as [|name cost [|next|e]|].
    + apply Hnext; auto.
    + apply Hnext; eauto.
    + apply Hnext; [apply insert_behind_sorted, Hrest| |eauto].
      eapply Permutation_Forall; [apply Permutation_sym, insert_behind_perm|].
      constructor; [simpl; lia|exact Hrest_low].
    + apply Hnext; eauto.
    + apply Hnext; auto.
Qed.

(** Callbacks that run once are called in queue order. *)
Lemma calls_of_one_shot (q : list Request) : forall n,
  Forall (fun r => one_shot (fst r) = true) q ->
  (length q <= n)%nat ->
  calls_of n q = map (fun r => (request_name r, snd r)) q.
Proof.
  induction q as [|[cb p] q IH]; intros n Hall Hn; [apply calls_of_nil|].
  destruct n as [|n]; [simpl in Hn; lia|].
  inversion Hall as [|? ? Hcb Hrest]; subst. simpl in Hcb.
  simpl in Hn.
  destruct cb as [|name cost [|next|e]|]; try discriminate Hcb;
    simpl; rewrite IH by (assumption || lia); reflexivity.
Qed.

Lemma page_callback_after (k : nat) : forall q,
  Forall (fun r => page_callback (fst r) = true) q ->
  Forall (fun r => page_callback (fst r) = true) (queue_after k q).
Proof.
  induction k as [|k IH]; intros q H; [exact H|].
  simpl. apply IH, page_callback_step, H.
Qed.

Lemma flushWork_page (env : Env) (fuel : nat) (s : State) :
  Forall (fun r => page_callback (fst r) = true) (map request_of (taskQueue s)) ->
  (total_visits (map request_of (taskQueue s)) <= fuel)%nat ->
  exists k s',
    flushWork fuel env s = Ok tt s' /\
    map request_of (taskQueue s') = queue_after k (map request_of (taskQueue s)) /\
    executed s' = executed s ++ map fst (calls_of k (map request_of (taskQueue s))) /\
    microtasks s' = microtasks s /\
    macrotasks s' = (if Nat.eqb (length (taskQueue s')) 0
                     then macrotasks s else S (macrotasks s)) /\
    (k + total_visits (queue_after k (map request_of (taskQueue s))))%nat
    = total_visits (map request_of (taskQueue s)) /\
    (taskQueue s <> [] -> (1 <= k)%nat).
Proof.
  intros Hpage Hfuel.
  destruct (flushWork_loop_page env (now s) fuel fuel s Hfuel (le_n _) Hpage)
    as (k & Hout & Hsum & Hne).
  exists k.
  unfold flushWork, bind, performance_now, get, try_catch, console_error, modify.
  unfold loop_result in Hout.
  destruct (flushWork_loop fuel env (now s) s) as [[] s'|e s'|]; simpl in Hout;
    [| |contradiction];
    destruct Hout as (H1 & H2 & H3 & H4 & H5);
    cbn [taskQueue set_currentTask set_console];
    (destruct (taskQueue s') as [|t q'] eqn:Eq; unfold scheduleWork, modify;
     eexists; (split; [reflexivity|]);
     cbn [taskQueue executed microtasks macrotasks set_currentTask set_console
          set_isSchedulerRunning set_macrotasks];
     rewrite Eq; simpl length; simpl Nat.eqb; cbv iota;
     (repeat split; try assumption; try congruence;
      apply Hne; rewrite Z.sub_diag; reflexivity)).
Qed.

Lemma run_turns_page (env : Env) : forall n fuel s,
  Forall (fun r => page_callback (fst r) = true) (map request_of (taskQueue s)) ->
  (total_visits (map request_of (taskQueue s)) <= n)%nat ->
  (total_visits (map request_of (taskQueue s)) <= fuel)%nat ->
  microtasks s = 0%nat ->
  macrotasks s = (if Nat.eqb (length (taskQueue s)) 0 then 0 else 1)%nat ->
  exists s',
    run_turns n fuel env s = Ok tt s' /\
    executed s' = executed s ++ map fst (calls_of n (map request_of (taskQueue s))) /\
    taskQueue s' = [] /\
    macrotasks s' = 0%nat.
Proof.
  induction n as [|n IH]; intros fuel s Hpage Hn Hfuel Hmicro Hmacro;
    rewrite run_turns_eq, Hmacro.
  - assert (Hq : taskQueue s = []).
    { destruct (taskQueue s) as [|t q]; [reflexivity|].
      apply (f_equal (@length _)) in Hn || idtac.
      exfalso. simpl in Hn. unfold total_visits in Hn. simpl in Hn.
      destruct (callback t) as [|? ? [| |]|]; simpl in Hn; lia. }
    rewrite Hq. simpl. exists s. rewrite app_nil_r.
    repeat split; try assumption. rewrite Hmacro, Hq. reflexivity.
  - destruct (taskQueue s) as [|t0 q0] eqn:Eq.
    { simpl. exists s. rewrite app_nil_r. simpl in Hmacro. auto. }
    simpl Nat.eqb. cbv iota.
    set (s0 := set_macrotasks (Nat.pred (macrotasks s)) s).
    assert (Eq0 : taskQueue s0 = t0 :: q0) by exact Eq.
    destruct (flushWork_page env fuel s0) as
      (k & s1 & Hrun & Hq & Hex & Hmi & Hma & Hsum & Hne).
    { rewrite Eq0. exact Hpage. }
    { rewrite Eq0. exact Hfuel. }
    assert (Hk : (1 <= k)%nat) by (apply Hne; rewrite Eq0; discriminate).
    rewrite Eq0 in Hq, Hex, Hsum.
    destruct (IH fuel s1) as (s2 & Hrun2 & Hex2 & Hq2 & Hma2).
    { rewrite Hq. apply page_callback_after. exact Hpage. }
    { rewrite Hq. lia. }
    { rewrite Hq. lia. }
    { rewrite Hmi. exact Hmicro. }
    { rewrite Hma. subst s0. cbn [macrotasks set_macrotasks]. rewrite Hmacro. simpl.
      destruct (length (taskQueue s1)); reflexivity. }
    exists s2.
    unfold turn, bind at 1. unfold bind at 1. unfold modify at 1. fold s0.
    unfold bind at 1. rewrite Hrun.
    rewrite microtask_checkpoint_idle by (rewrite Hmi; exact Hmicro).
    split; [exact Hrun2|].
    split; [|auto].
    rewrite Hex2, Hex, Hq. subst s0. cbn [executed set_macrotasks].
    rewrite <- app_assoc, <- map_app, <- calls_of_split.
    replace (k + n)%nat with (S n + (k - 1))%nat by lia.
    rewrite calls_of_saturated by exact Hn. reflexivity.
Qed.


Lemma run_batch (env : Env) (s : State) (l : list Request) :
  idle s ->
  Forall (fun r => page_callback (fst r) = true) l ->
  exists s1 s2,
    schedule_all l s = Ok tt s1 /\
    run_turns (total_visits l) (total_visits l) env s1 = Ok tt s2 /\
    executed s2
    = executed s ++ map fst (calls_of (total_visits l) (priority_order snd l)) /\
    taskQueue s2 = [] /\ macrotasks s2 = 0%nat.
Proof.
  intros (Hq & Hrun & Hmac & Hmic) Hall.
  destruct (schedule_all_run l s) as (s1 & H1 & Hq1 & He1 & Hm1 & Hr1 & Hma1).
  rewrite Hq in Hq1.
  change (map request_of (taskQueue s1) = priority_order snd l) in Hq1.
  destruct (priority_order_stable_sort snd l) as (_ & Hperm & _).
  assert (Hlen : length (taskQueue s1) = length l).
  { rewrite <- (length_map request_of), Hq1. apply Permutation_length, Hperm. }
  assert (Hvis : total_visits (priority_order snd l) = total_visits l).
  { unfold priority_order. rewrite total_visits_priority_order.
    unfold total_visits. simpl. lia. }
  destruct (run_turns_page env (total_visits l) (total_visits l) s1)
    as (s2 & H2 & He2 & Hq2 & Hma2).
  { rewrite Hq1. apply Permutation_sym in Hperm. apply (Permutation_Forall Hperm Hall). }
  { rewrite Hq1, Hvis. lia. }
  { rewrite Hq1, Hvis. lia. }
  { congruence. }
  { rewrite Hma1, Hrun, Hmac, Hlen. simpl. destruct (length l); reflexivity. }
  exists s1, s2. split; [exact H1|]. split; [exact H2|].
  rewrite He2, He1, Hq1. auto.
Qed.

(** C4. Tasks are executed in ascending priority order, tasks of equal
    priority in arrival order.  [insertTask] keeps the queue sorted by
    priority and puts a task behind the queued tasks of its own priority.
    Tasks scheduled on an idle scheduler are run, over as many turns as
    the time slice imposes, until the queue is empty; the calls made are
    those of [calls_of] on [priority_order], the stable sort of the
    arrivals by priority: their priorities ascend, and when every callback
    runs once they are the tasks in that order.  In particular three
    tasks scheduled at priorities 2, 0, 1 (named after their priorities)
    run in the order 0, 1, 2. *)
Theorem scheduler_runs_in_priority_order (env : Env) (s : State) :
  idle s ->
  (forall (task : Task) (s0 : State),
     StronglySorted (by_priority priority) (taskQueue s0) ->
     exists s1,
       insertTask task s0 = Ok tt s1 /\
       StronglySorted (by_priority priority) (taskQueue s1) /\
       Permutation (taskQueue s1) (task :: taskQueue s0) /\
       forall p, List.filter (has_priority priority p) (taskQueue s1)
                 = List.filter (has_priority priority p) (taskQueue s0)
                   ++ List.filter (has_priority priority p) [task]) /\
  (forall l : list Request,
     Forall (fun r => page_callback (fst r) = true) l ->
     (exists s1 s2,
        schedule_all l s = Ok tt s1 /\
        run_turns (total_visits l) (total_visits l) env s1 = Ok tt s2 /\
        executed s2
        = executed s ++ map fst (calls_of (total_visits l) (priority_order snd l)) /\
        taskQueue s2 = [] /\ macrotasks s2 = 0%nat) /\
     StronglySorted Z.le (map snd (calls_of (total_visits l) (priority_order snd l))) /\
     (Forall (fun r => one_shot (fst r) = true) l ->
      calls_of (total_visits l) (priority_order snd l)
      = map (fun r => (request_name r, snd r)) (priority_order snd l)) /\
     StronglySorted (by_priority snd) (priority_order snd l) /\
     Permutation (priority_order snd l) l /\
     (forall p, List.filter (has_priority snd p) (priority_order snd l)
                = List.filter (has_priority snd p) l)) /\
  (forall c2 c0 c1 : Z,
     exists s1 s2,
       schedule_all [(UserCallback 2 c2 ReturnsUndefined, 2);
                     (UserCallback 0 c0 ReturnsUndefined, 0);
                     (UserCallback 1 c1 ReturnsUndefined, 1)] s = Ok tt s1 /\
       run_turns 3 3 env s1 = Ok tt s2 /\
       executed s2 = executed s ++ [0; 1; 2]%nat).
Proof.
  intros Hidle. split; [|split].
  - intros task s0 Hsorted. eexists. split; [apply insertTask_run|].
    cbn [taskQueue set_taskQueue].
    split; [apply insert_behind_sorted, Hsorted|].
    split; [apply insert_behind_perm|].
    intros p. apply insert_behind_stable, Hsorted.
  - intros l Hall.
    destruct (priority_order_stable_sort snd l) as (Hsorted & Hperm & Hstable).
    split; [apply run_batch; assumption|].
    split.
    { destruct (priority_order snd l) as [|r q] eqn:E; [rewrite calls_of_nil; constructor|].
      rewrite <- E in *.
      assert (Hlow : exists b, Forall (fun x => b <= snd x) (priority_order snd l)).
      { rewrite E in Hsorted |- *. exists (snd r).
        inversion Hsorted as [|? ? _ Hhead]; subst.
        constructor; [lia|exact Hhead]. }
      destruct Hlow as (b & Hlow).
      apply (calls_of_ascending _ _ b Hsorted Hlow). }
    split; [|auto].
    intros Hone. apply calls_of_one_shot.
    + apply Permutation_sym in Hperm. apply (Permutation_Forall Hperm Hone).
    + rewrite (Permutation_length Hperm).
      clear - Hone. induction Hone as [|[cb p] l Hcb _ IH]; [apply le_n|].
      unfold total_visits in *. simpl in *.
      destruct cb as [|? ? [| |]|]; try discriminate Hcb; simpl; lia.
  - intros c2 c0 c1.
    destruct (run_batch env s
                [(UserCallback 2 c2 ReturnsUndefined, 2);
                 (UserCallback 0 c0 ReturnsUndefined, 0);
                 (UserCallback 1 c1 ReturnsUndefined, 1)] Hidle)
      as (s1 & s2 & H1 & H2 & H3 & _).
    { repeat constructor. }
    exists s1, s2. split; [exact H1|]. split; [exact H2|exact H3].
Qed.

Lemma scheduler_runs_in_priority_order_witness :
  exists s1 s2,
    schedule_all [(UserCallback 2 10 ReturnsUndefined, 2);
                  (UserCallback 0 10 ReturnsUndefined, 0);
                  (UserCallback 1 10 ReturnsUndefined, 1)] initial_state = Ok tt s1 /\
    run_turns 3 3 (plain_env 1) s1 = Ok tt s2 /\
    executed s2 = [0; 1; 2]%nat.
Proof.
  assert (Hidle : idle initial_state) by (repeat split; reflexivity).
  destruct (scheduler_runs_in_priority_order (plain_env 1) initial_state Hidle)
    as (_ & _ & H).
  exact (H 10 10 10).
Defined.

(** ** Updates requested before the first commit *)

(** C10. Before any tree has been committed ([currentRoot] is [null]),
    [scheduleUpdate] returns without changing anything: no work-in-progress
    root, no change of the next-unit pointer or of the deletion list, no
    task queued, no message armed.  The same holds for the copy reached
    from hooks.js, so that a state setter called then only appends to the
    queue of its hook. *)
Theorem scheduleUpdate_before_first_commit (env : Env) (s : State) :
  currentRoot s = None ->
  scheduleUpdate s = Ok tt s /\
  hooks_scheduleUpdate env s = Ok tt s /\
  forall hook v q action,
    hookHeap s !! hook = Some (StateHook v q) ->
    setState env hook action s
    = Ok tt (set_hookHeap (<[hook := StateHook v (q ++ [action])]> (hookHeap s)) s).
Proof.
  intros H.
  assert (H1 : scheduleUpdate s = Ok tt s).
  { unfold scheduleUpdate, bind, get. rewrite H. reflexivity. }
  assert (H2 : hooks_scheduleUpdate env s = Ok tt s).
  { unfold hooks_scheduleUpdate. destruct (has_window env); [exact H1|reflexivity]. }
  split; [exact H1|]. split; [exact H2|].
  intros hook v q action Hh.
  unfold setState, bind. rewrite Hh.
  unfold hooks_scheduleUpdate. destruct (has_window env); [|reflexivity].
  unfold scheduleUpdate, bind, get. simpl. rewrite H. reflexivity.
Qed.

Lemma scheduleUpdate_before_first_commit_witness :
  currentRoot initial_state = None /\
  scheduleUpdate initial_state = Ok tt initial_state.
Proof.
  split; [reflexivity|].
  apply (scheduleUpdate_before_first_commit (plain_env 1) initial_state).
  reflexivity.
Defined.

(** ** Hooks *)

Lemma storeHook_run (hook cf : Addr) (f : Fiber) (hs : list (option Addr)) (s : State) :
  currentFiber s = Some cf ->
  fibers s !! cf = Some f ->
  hooks f = Some hs ->
  storeHook hook s
  = Ok tt (set_hookIndex (S (hookIndex s))
             (set_fibers (<[cf := set_hooks (Some (js_set (hookIndex s) hook hs)) f]> (fibers s)) s)).
Proof.
  intros Hc Hf Hh.
  unfold storeHook, bind, get, readFiber, writeFiber, modify.
  rewrite Hc, Hf, Hh. simpl. rewrite Hf. reflexivity.
Qed.

Lemma readOldHook_some (s : State) (h : Addr) (o : Hook) :
  oldHookOf s = Ok (Some h) s ->
  hookHeap s !! h = Some o ->
  readOldHook s = Ok (Some o) s.
Proof.
  intros H1 H2. unfold readOldHook, bind, readHook, ret. rewrite H1, H2. reflexivity.
Qed.

Lemma scheduleCallback_hookHeap (cb : Callback) (p : Z) (s : State) :
  exists task s', scheduleCallback cb p s = Ok task s' /\ hookHeap s' = hookHeap s.
Proof.
  unfold scheduleCallback, bind, fresh_id, performance_now, get, ret.
  rewrite insertTask_run. simpl.
  destruct (isSchedulerRunning s); simpl; eexists; eexists; split; reflexivity.
Qed.

Lemma scheduleUpdate_hookHeap (s : State) (r : Res unit) :
  scheduleUpdate s = r ->
  match state_of r with
  | Some s' => hookHeap s' = hookHeap s
  | None => False
  end.
Proof.
  intros <-. unfold scheduleUpdate, bind, get.
  destruct (currentRoot s) as [c|]; [|reflexivity].
  unfold readFiber. destruct (fibers s !! c) as [f|]; [|reflexivity].
  unfold newFiber, modify.
  match goal with
  | |- context [scheduleCallback ?cb ?p ?st] =>
      destruct (scheduleCallback_hookHeap cb p st) as (task & s' & -> & Hh)
  end.
  simpl. exact Hh.
Qed.



Lemma useState_run (call : nat -> Val -> Val) (initial st : Val) (us : list Val)
    (h cf : Addr) (f : Fiber) (hs : list (option Addr)) (s : State) :
  oldHookOf s = Ok (Some h) s ->
  hookHeap s !! h = Some (StateHook st us) ->
  currentFiber s = Some cf ->
  fibers s !! cf = Some f ->
  hooks f = Some hs ->
  let v := fold_left (applyAction call) us st in
  let hook := length (hookHeap s) in
  useState call initial s
  = Ok (v, hook)
       (set_hookIndex (S (hookIndex s))
          (set_fibers (<[cf := set_hooks (Some (js_set (hookIndex s) hook hs)) f]> (fibers s))
             (set_hookHeap (hookHeap s ++ [StateHook v []]) s))).
Proof.
  intros Ho Hh Hc Hf Hhs v hook.
  unfold useState, bind at 1.
  rewrite (readOldHook_some s h _ Ho Hh). simpl.
  unfold bind at 1. unfold ret at 1.
  unfold bind at 1. unfold newHook at 1.
  unfold bind at 1.
  erewrite storeHook_run; [reflexivity|exact Hc|exact Hf|exact Hhs].
Qed.



(** After the mount, one call of the setter (the hook object at address
    0) with [n => n + 1] re-renders with state 1; the host sees one more
    call, the update of the text. *)
Example counter_rerenders_with_state_1 :
  exists s1 s2,
    render_and_run counter_env (El (Component 0) [] []) 0%nat initial_state = Ok tt s1 /\
    (setState counter_env 0%nat (VFun 0);; run_turns 5 100 counter_env) s1 = Ok tt s2 /\
    hookHeap s2 = [StateHook (VNum 0) [VFun 0]; StateHook (VNum 1) []] /\
    drop (length (hostLog s1)) (hostLog s2) = [SetProperty 2%nat "nodeValue" (VNum 1)].
Proof.
  eexists. eexists.
  split; [vm_compute; reflexivity|].
  split; [vm_compute; reflexivity|].
  split; reflexivity.
Qed.

Lemma strict_eq_true (a b : Val) : strict_eq a b = true <-> a = b.
Proof.
  destruct a, b; simpl; split; intros H; try discriminate; try reflexivity;
    try (injection H as ->);
    try (apply Bool.eqb_prop in H as ->);
    try (apply Z.eqb_eq in H as ->);
    try (apply String.eqb_eq in H as ->);
    try (apply Nat.eqb_eq in H as ->);
    try reflexivity;
    auto using Bool.eqb_reflx, Z.eqb_refl, String.eqb_refl, Nat.eqb_refl.
Qed.

Lemma every_same_spec (deps olds : list Val) : forall i,
  every_same deps olds i = true <->
  forall j, (j < length deps)%nat -> nth (i + j) olds VUndefined = nth j deps VUndefined.
Proof.
  induction deps as [|d deps IH]; intros i; simpl.
  - split; [intros _ j Hj; lia | reflexivity].
  - rewrite andb_true_iff, strict_eq_true, IH. split.
    + intros [Hd Hrest] [|j] Hj.
      * rewrite Nat.add_0_r. symmetry. exact Hd.
      * rewrite <- Nat.add_succ_comm. apply Hrest. lia.
    + intros H. split.
      * specialize (H 0%nat ltac:(lia)). rewrite Nat.add_0_r in H. symmetry. exact H.
      * intros j Hj. specialize (H (S j) ltac:(lia)).
        rewrite <- Nat.add_succ_comm in H. exact H.
Qed.

Lemma every_same_differ (deps olds : list Val) :
  every_same deps olds 0 = false <-> deps_differ olds deps.
Proof.
  split.
  - intros H. unfold deps_differ.
    assert (G : forall i, every_same deps olds i = false ->
                exists j, (j < length deps)%nat /\
                          nth (i + j) olds VUndefined <> nth j deps VUndefined).
    { clear H. induction deps as [|d deps IH]; intros i; simpl; [discriminate|].
      destruct (strict_eq d (nth i olds VUndefined)) eqn:E; simpl.
      - intros H. destruct (IH _ H) as (j & Hj & Hne).
        exists (S j). split; [lia|]. rewrite <- Nat.add_succ_comm. exact Hne.
      - intros _. exists 0%nat. split; [lia|]. rewrite Nat.add_0_r.
        intros Heq. assert (strict_eq d (nth i olds VUndefined) = true)
          by (apply strict_eq_true; symmetry; exact Heq). congruence. }
    apply (G 0%nat H).
  - intros (i & Hi & Hne).
    destruct (every_same deps olds 0) eqn:E; [|reflexivity].
    exfalso. apply Hne. apply (proj1 (every_same_spec deps olds 0) E i Hi).
Qed.

Lemma useEffect_run (effect : EffectFn) (deps : option (list Val)) (s : State)
    (cf : Addr) (f : Fiber) (hs : list (option Addr))
    (oldHook : option Hook) (changed : bool) :
  currentFiber s = Some cf ->
  fibers s !! cf = Some f ->
  hooks f = Some hs ->
  readOldHook s = Ok oldHook s ->
  hasChanged oldHook deps s = Ok changed s ->
  (forall o c, oldHook = Some o -> hook_cleanup o = Some c -> cl_throws c = None) ->
  let oldCleanup := match oldHook with Some o => hook_cleanup o | None => None end in
  let hook := length (hookHeap s) in
  exists s',
    useEffect effect deps s = Ok tt s' /\
    effectQueue s' = (if changed then effectQueue s ++ [(effect, hook)] else effectQueue s) /\
    hookHeap s' = (hookHeap s ++ [EffectHook effect deps oldCleanup]).
Proof.
  intros Hc Hf Hhs Hread Hch Hcl oldCleanup hook.
  unfold useEffect. unfold bind at 1. rewrite Hread.
  unfold bind at 1. rewrite Hch.
  unfold bind at 1. unfold newHook at 1.
  fold oldCleanup.
  destruct changed.
  - destruct oldCleanup as [c|] eqn:Ec.
    + assert (Hok : cl_throws c = None).
      { destruct oldHook as [o|]; [|discriminate]. eapply Hcl; [reflexivity|exact Ec]. }
      unfold callCleanup, log, scheduleEffect. run_monad. rewrite Hok. run_monad.
      erewrite storeHook_run; [|exact Hc|exact Hf|exact Hhs].
      eexists. split; [reflexivity|]. split; reflexivity.
    + unfold scheduleEffect. run_monad.
      erewrite storeHook_run; [|exact Hc|exact Hf|exact Hhs].
      eexists. split; [reflexivity|]. split; reflexivity.
  - run_monad.
    erewrite storeHook_run; [|exact Hc|exact Hf|exact Hhs].
    eexists. split; [reflexivity|]. split; reflexivity.
Qed.

Lemma hasChanged_run (oldHook : option Hook) (deps : option (list Val)) (s : State) :
  (forall o new, oldHook = Some o -> deps = Some new -> new <> [] -> hook_deps o <> None) ->
  exists changed,
    hasChanged oldHook deps s = Ok changed s /\
    (changed = true <->
     (deps = None \/ oldHook = None \/
      exists o old new, oldHook = Some o /\ hook_deps o = Some old /\
                        deps = Some new /\ deps_differ old new)).
Proof.
  intros Hdeps. unfold hasChanged.
  destruct oldHook as [o|].
  2:{ exists true. split; [reflexivity|]. split; auto. }
  destruct deps as [new|].
  2:{ exists true. split; [reflexivity|]. split; auto. }
  destruct new as [|d new].
  { exists false. split; [reflexivity|]. split; [discriminate|].
    intros [H|[H|(o' & old & new & _ & _ & H & (i & Hi & _))]]; try discriminate.
    injection H as <-. simpl in Hi. lia. }
  destruct (hook_deps o) as [old|] eqn:Eo.
  2:{ exfalso. eapply Hdeps; [reflexivity|reflexivity|discriminate|exact Eo]. }
  exists (negb (every_same (d :: new) old 0)). split; [reflexivity|].
  rewrite negb_true_iff, every_same_differ. split.
  - intros H. right. right. exists o, old, (d :: new). auto.
  - intros [H|[H|(o' & old' & new' & Ho & Hold & Hnew & Hd)]]; try discriminate.
    injection Ho as <-. injection Hnew as <-. rewrite Eo in Hold.
    injection Hold as <-. exact Hd.
Qed.

(** C5 (amended). An effect slot queues its effect body on a render if
    and only if the dependency list is omitted, or there is no slot from a
    previous render, or some position [i] of the new dependency list holds
    a value not identical to the value at position [i] of the previous
    list; only the positions of the new list are compared.  When it does
    not fire, the new slot carries the previous cleanup.  The previous
    render is taken to have supplied a dependency list whenever this one
    supplies a non-empty one, and the previous cleanup to return. *)
Theorem useEffect_fires_iff_deps_changed (effect : EffectFn) (deps : option (list Val))
    (s : State) (cf : Addr) (f : Fiber) (hs : list (option Addr)) (oldHook : option Hook) :
  currentFiber s = Some cf ->
  fibers s !! cf = Some f ->
  hooks f = Some hs ->
  readOldHook s = Ok oldHook s ->
  (forall o new, oldHook = Some o -> deps = Some new -> new <> [] -> hook_deps o <> None) ->
  (forall o c, oldHook = Some o -> hook_cleanup o = Some c -> cl_throws c = None) ->
  let hook := length (hookHeap s) in
  let fires :=
    deps = None \/ oldHook = None \/
    exists o old new, oldHook = Some o /\ hook_deps o = Some old /\
                      deps = Some new /\ deps_differ old new in
  exists s',
    useEffect effect deps s = Ok tt s' /\
    (fires -> effectQueue s' = (effectQueue s ++ [(effect, hook)])) /\
    (~ fires ->
     effectQueue s' = effectQueue s /\
     exists o, oldHook = Some o /\
               hookHeap s' !! hook = Some (EffectHook effect deps (hook_cleanup o))).
Proof.
  intros Hc Hf Hhs Hread Hdeps Hcl hook fires.
  destruct (hasChanged_run oldHook deps s Hdeps) as (changed & Hch & Hiff).
  destruct (useEffect_run effect deps s cf f hs oldHook changed Hc Hf Hhs Hread Hch Hcl)
    as (s' & Hrun & Hq & Hheap).
  exists s'. split; [exact Hrun|]. split.
  - intros Hfires. apply Hiff in Hfires. rewrite Hfires in Hq. exact Hq.
  - intros Hno. destruct changed.
    + exfalso. apply Hno, Hiff. reflexivity.
    + split; [exact Hq|].
      destruct oldHook as [o|].
      * exists o. split; [reflexivity|]. rewrite Hheap.
        unfold hook. rewrite lookup_app_r by lia. rewrite Nat.sub_diag. reflexivity.
      * exfalso. apply Hno. right. left. reflexivity.
Qed.

Lemma useEffect_fires_iff_deps_changed_witness :
  exists s',
    useEffect (plain_effect 2) (Some [VNum 2])
              (mid_render (EffectHook (plain_effect 1) (Some [VNum 1]) None))
    = Ok tt s' /\
    effectQueue s' = [(plain_effect 2, 1%nat)].
Proof.
  destruct (useEffect_fires_iff_deps_changed
              (plain_effect 2) (Some [VNum 2])
              (mid_render (EffectHook (plain_effect 1) (Some [VNum 1]) None))
              1%nat
              (mkFiber (Some (Component 0)) (mkProps [] []) None None None None
                       (Some 0%nat) (Some UPDATE) (Some []))
              []
              (Some (EffectHook (plain_effect 1) (Some [VNum 1]) None))
              eq_refl eq_refl eq_refl eq_refl)
    as (s' & Hrun & Hfire & _).
  - intros o new [= <-] _ _. discriminate.
  - intros o c [= <-]. discriminate.
  - exists s'. split; [exact Hrun|]. apply Hfire.
    right. right. eexists. eexists. eexists.
    split; [reflexivity|]. split; [reflexivity|]. split; [reflexivity|].
    exists 0%nat. split; [simpl; lia|]. discriminate.
Defined.

(** The claim C5 as it is stated fails: position 1 of the previous list
    [[1, 2]] differs from position 1 of the new list [[1]] (which reads
    [undefined]), the list is not omitted and a previous slot exists, yet
    the effect is not queued. *)
Lemma useEffect_ignores_dropped_dependency :
  nth 1 [VNum 1; VNum 2] VUndefined <> nth 1 [VNum 1] VUndefined /\
  readOldHook (mid_render (EffectHook (plain_effect 1) (Some [VNum 1; VNum 2]) None))
  = Ok (Some (EffectHook (plain_effect 1) (Some [VNum 1; VNum 2]) None))
       (mid_render (EffectHook (plain_effect 1) (Some [VNum 1; VNum 2]) None)) /\
  exists s',
    useEffect (plain_effect 2) (Some [VNum 1])
              (mid_render (EffectHook (plain_effect 1) (Some [VNum 1; VNum 2]) None))
    = Ok tt s' /\
    effectQueue s' = [].
Proof.
  split; [discriminate|]. split; [reflexivity|].
  eexists. split; [vm_compute; reflexivity | reflexivity].
Qed.

(** ** The ref hook *)

(** C7 (amended). On a re-render [useRef] returns a newly allocated box,
    different from the box [h] it returned on the previous render; the new
    box starts with the value the old box holds at that moment, and the
    old box is left as it is.  Identity is not kept, the value is. *)
Theorem useRef_copies_previous_box (initialValue c : Val) (s : State)
    (h cf : Addr) (f : Fiber) (hs : list (option Addr)) :
  oldHookOf s = Ok (Some h) s ->
  hookHeap s !! h = Some (RefHook c) ->
  currentFiber s = Some cf ->
  fibers s !! cf = Some f ->
  hooks f = Some hs ->
  exists box s',
    useRef initialValue s = Ok box s' /\
    box <> h /\
    hookHeap s !! box = None /\
    hookHeap s' !! box = Some (RefHook c) /\
    hookHeap s' !! h = Some (RefHook c).
Proof.
  intros Ho Hh Hc Hf Hhs.
  exists (length (hookHeap s)).
  unfold useRef. unfold bind at 1.
  rewrite (readOldHook_some s h _ Ho Hh). simpl.
  unfold bind at 1. unfold newHook at 1. unfold bind at 1.
  erewrite storeHook_run; [|exact Hc|exact Hf|exact Hhs].
  eexists. split; [reflexivity|]. simpl.
  pose proof (lookup_lt_Some _ _ _ Hh) as Hlt.
  split; [lia|]. split; [apply lookup_ge_None; lia|]. split.
  - rewrite lookup_app_r by lia. rewrite Nat.sub_diag. reflexivity.
  - rewrite lookup_app_l by lia. exact Hh.
Qed.

Lemma useRef_copies_previous_box_witness :
  exists box s',
    useRef VNull (mid_render (RefHook (VNum 3))) = Ok box s' /\
    box <> 0%nat /\
    hookHeap s' !! box = Some (RefHook (VNum 3)).
Proof.
  destruct (useRef_copies_previous_box VNull (VNum 3) (mid_render (RefHook (VNum 3)))
              0%nat 1%nat
              (mkFiber (Some (Component 0)) (mkProps [] []) None None None None
                       (Some 0%nat) (Some UPDATE) (Some []))
              [] eq_refl eq_refl eq_refl eq_refl eq_refl)
    as (box & s' & H1 & H2 & _ & H3 & _).
  exists box, s'. auto.
Defined.

(** The claim C7 as it is stated fails: rendering the same component
    twice, the box handed out by the second render (object 1) is not the
    box handed out by the first (object 0); the host sees the attribute
    change from one object to the other. *)
Lemma useRef_box_changes_between_renders :
  exists s,
    (render (Some (El (Component 0) [] [])) 0%nat;;
     run_turns 5 100 ref_env;;
     render (Some (El (Component 0) [] [])) 0%nat;;
     run_turns 5 100 ref_env) initial_state = Ok tt s /\
    hostLog s = [CreateElement "div" 1%nat; SetProperty 1%nat "ref" (VObj 0);
                 AppendChild 0%nat 1%nat; SetProperty 1%nat "ref" (VObj 1)] /\
    VObj 0 <> VObj 1.
Proof.
  eexists. split; [vm_compute; reflexivity|]. split; [reflexivity|discriminate].
Qed.

(** ** Effects after commit *)

Lemma flushEffects_eq (fuel : nat) (s : State) :
  flushEffects fuel s =
  match effectQueue s with
  | [] => Ok tt s
  | (effect, hook) :: rest =>
      match fuel with
      | O => OutOfFuel
      | S fuel' =>
          (modify (set_effectQueue rest);;
           try_catch (runQueuedEffect effect hook)
                     (fun error => console_error (EffectError error));;
           flushEffects fuel') s
      end
  end.
Proof. destruct fuel; reflexivity. Qed.







(** ** Exceptions during render *)

Lemma flushWork_loop_render_error (fuel : nat) (env : Env) (s : State)
    (task : Task) (rest : list Task) (e : Exn) (s1 : State) :
  taskQueue s = task :: rest ->
  callback task = WorkLoop ->
  workLoop_units fuel env (set_currentTask (Some task) (set_taskQueue rest s)) = Fail e s1 ->
  flushWork_loop (S fuel) env (now s) s = Fail e s1.
Proof.
  intros Hq Hcb Hfail.
  rewrite flushWork_loop_eq, Hq, Z.sub_diag. simpl.
  rewrite Hcb. simpl. unfold bind at 1. unfold bind at 1.
  unfold invoke, bind at 1. unfold workLoop, bind at 1.
  rewrite Hfail. reflexivity.
Qed.

(** C8 (amended). When a unit of render work throws (a component body,
    in particular), the work loop stops there and [commitRoot] is not
    reached: no commit, partial or other.  The exception does not surface
    to a caller: [flushWork] catches it, reports it with [console.error]
    and returns normally.  The work-in-progress root and the next-unit
    pointer stay as they were when the exception was thrown. *)
Theorem render_error_is_caught_by_flushWork (fuel : nat) (env : Env) (s : State)
    (task : Task) (rest : list Task) (e : Exn) (s1 : State) :
  taskQueue s = task :: rest ->
  callback task = WorkLoop ->
  workLoop_units fuel env (set_currentTask (Some task) (set_taskQueue rest s)) = Fail e s1 ->
  workLoop fuel env (set_currentTask (Some task) (set_taskQueue rest s)) = Fail e s1 /\
  exists s2,
    flushWork (S fuel) env s = Ok tt s2 /\
    console s2 = (console s1 ++ [SchedulerError e]) /\
    currentRoot s2 = currentRoot s1 /\
    wipRoot s2 = wipRoot s1 /\
    nextUnitOfWork s2 = nextUnitOfWork s1 /\
    deletions s2 = deletions s1 /\
    fibers s2 = fibers s1 /\
    hostLog s2 = hostLog s1.
Proof.
  intros Hq Hcb Hfail. split.
  - unfold workLoop, bind at 1. rewrite Hfail. reflexivity.
  - unfold flushWork, bind at 1. unfold performance_now, get at 1.
    unfold bind at 1. unfold try_catch.
    rewrite (flushWork_loop_render_error fuel env s task rest e s1 Hq Hcb Hfail).
    unfold console_error. run_monad. simpl.
    destruct (taskQueue s1); unfold scheduleWork; run_monad;
      eexists; (split; [reflexivity|]); simpl; auto 10.
Qed.

Lemma render_error_is_caught_by_flushWork_witness :
  exists s2,
    flushWork 100 boom_env boom_queued = Ok tt s2 /\
    console s2 = [SchedulerError (Thrown (VStr "boom"))] /\
    currentRoot s2 = None /\ wipRoot s2 = Some 0%nat /\ nextUnitOfWork s2 = Some 1%nat.
Proof.
  destruct (render_error_is_caught_by_flushWork 99 boom_env boom_queued
              (mkTask 0 WorkLoop 0 0) [] (Thrown (VStr "boom")) boom_thrown
              eq_refl eq_refl)
    as (_ & s2 & Hrun & Hcon & Hcur & Hwip & Hnext & _).
  - vm_compute. reflexivity.
  - exists s2. split; [exact Hrun|]. rewrite Hcon, Hcur, Hwip, Hnext.
    repeat split; reflexivity.
Defined.

(** The claim C8 as it is stated fails: [render] returns normally to its
    caller before the component is ever called; the exception is thrown
    in a later scheduler turn, where it is logged and swallowed; the
    work-in-progress root and the next-unit pointer are kept, so that a
    work loop scheduled later resumes at the failed unit. *)
Lemma render_error_does_not_reach_the_caller :
  exists s1 s2 s3,
    render (Some (El (Component 0) [] [])) 0%nat initial_state = Ok tt s1 /\
    console s1 = [] /\ fibers s1 = [rootFiber (Some 0%nat)
                                      (mkProps [] [Some (El (Component 0) [] [])]) None] /\
    run_turns 5 100 boom_env s1 = Ok tt s2 /\
    console s2 = [SchedulerError (Thrown (VStr "boom"))] /\
    wipRoot s2 = Some 0%nat /\ nextUnitOfWork s2 = Some 1%nat /\
    ((let* _ := scheduleCallback WorkLoop 0 in run_turns 5 100 boom_env) s2 = Ok tt s3) /\
    console s3 = [SchedulerError (Thrown (VStr "boom"));
                  SchedulerError (Thrown (VStr "boom"))] /\
    nextUnitOfWork s3 = Some 1%nat.
Proof.
  eexists. eexists. eexists.
  split; [vm_compute; reflexivity|].
  do 2 (split; [reflexivity|]).
  split; [vm_compute; reflexivity|].
  do 3 (split; [reflexivity|]).
  split; [vm_compute; reflexivity|].
  split; reflexivity.
Qed.

(** ** Mounting a tree: host calls and time slicing *)

(** C2 (amended). Mounting [div_A] into an empty container (handle 0)
    makes the host calls createHostInstance('div'), createTextInstance('A'),
    appendChild(container, div), appendChild(div, text), in that order: the
    commit walks the new tree parent first, so the [div] is attached to
    the container before the text is attached to the [div]. *)
Theorem mount_host_calls (env : Env) :
  exists s,
    render_and_run env div_A 0%nat initial_state = Ok tt s /\
    adapter_view (hostLog s)
    = [createHostInstance "div" 1%nat; createTextInstance (VStr "A") 2%nat;
       appendChild 0%nat 1%nat; appendChild 1%nat 2%nat] /\
    hostLog s
    = [CreateElement "div" 1%nat; CreateTextNode "" 2%nat;
       SetProperty 2%nat "nodeValue" (VStr "A");
       AppendChild 0%nat 1%nat; AppendChild 1%nat 2%nat].
Proof.
  eexists. split; [vm_compute; reflexivity|]. split; reflexivity.
Qed.

(** The claim C2 as it is stated fails: the order it gives, with
    appendChild(div, text) before appendChild(container, div), is not the
    order of the calls made. *)
Lemma mount_appends_parent_first :
  exists s,
    render_and_run (plain_env 1) div_A 0%nat initial_state = Ok tt s /\
    adapter_view (hostLog s)
    <> [createHostInstance "div" 1%nat; createTextInstance (VStr "A") 2%nat;
        appendChild 1%nat 2%nat; appendChild 0%nat 1%nat].
Proof.
  eexists. split; [vm_compute; reflexivity|]. vm_compute. discriminate.
Qed.

(** The [while] loop of [workLoop] has a single exit: a normal return
    leaves no unit of work behind. *)
Lemma workLoop_units_runs_to_completion (env : Env) : forall fuel s s',
  workLoop_units fuel env s = Ok tt s' -> nextUnitOfWork s' = None.
Proof.
  induction fuel as [|fuel IH]; intros s s'; simpl; unfold bind at 1; unfold get at 1.
  - destruct (nextUnitOfWork s) eqn:E; [discriminate|].
    unfold ret. intros [= <-]. exact E.
  - destruct (nextUnitOfWork s) as [fiber|] eqn:E.
    + unfold bind at 1.
      destruct (performUnitOfWork fuel env fiber s) as [n s1|e s1|]; try discriminate.
      unfold bind at 1. unfold modify at 1. apply IH.
    + unfold ret. intros [= <-]. exact E.
Qed.

(** C1, evaluated on the mount of [div_A] when every unit of work takes
    [cost] milliseconds, whatever [cost] is: the single scheduler turn
    that starts the render performs all three units (root, [div], text)
    and the commit; [3 * cost] milliseconds pass in that turn, no further
    turn is armed and no task is left.  With [cost] above [TIME_SLICE]
    the budget is exceeded after the first unit, yet the loop goes on.
    In general the loop of [workLoop] returns only when no unit is left:
    it never stops at a unit boundary to yield. *)
Theorem workLoop_ignores_time_slice (cost : Z) :
  (forall env fuel s s',
     workLoop_units fuel env s = Ok tt s' -> nextUnitOfWork s' = None) /\
  exists s1 s2,
    render (Some div_A) 0%nat initial_state = Ok tt s1 /\
    nextUnitOfWork s1 = Some 0%nat /\ macrotasks s1 = 1%nat /\
    turn 100 (plain_env cost) s1 = Ok tt s2 /\
    now s2 = now s1 + cost + cost + cost /\
    nextUnitOfWork s2 = None /\
    wipRoot s2 = None /\ currentRoot s2 = Some 0%nat /\
    length (fibers s2) = 3%nat /\
    taskQueue s2 = [] /\ macrotasks s2 = 0%nat /\ isSchedulerRunning s2 = false /\
    hostLog s2
    = [CreateElement "div" 1%nat; CreateTextNode "" 2%nat;
       SetProperty 2%nat "nodeValue" (VStr "A");
       AppendChild 0%nat 1%nat; AppendChild 1%nat 2%nat].
Proof.
  split; [intros env; apply workLoop_units_runs_to_completion|].
  eexists. eexists.
  split; [vm_compute; reflexivity|].
  do 2 (split; [reflexivity|]).
  split; [vm_compute; reflexivity|].
  repeat split; reflexivity.
Qed.

(** ** Reconciling a children list that lost one element *)

Lemma old_chain_frame (heap heap' : list Fiber) (l : list (Addr * EType)) :
  forall first,
    (forall a f, In a (map fst l) -> heap !! a = Some f ->
                 exists f', heap' !! a = Some f' /\ type f' = type f /\ sibling f' = sibling f) ->
    old_chain heap first l -> old_chain heap' first l.
Proof.
  induction l as [|[a t] l IH]; intros first Hsame; simpl; [tauto|].
  intros (-> & f & Hf & Ht & Hrest). split; [reflexivity|].
  destruct (Hsame a f (or_introl eq_refl) Hf) as (f' & Hf' & Ht' & Hs').
  exists f'. split; [exact Hf'|]. split; [congruence|].
  rewrite Hs'. apply IH; [|exact Hrest].
  intros a' g Hin Hg. apply Hsame; [right; exact Hin|exact Hg].
Qed.

Lemma old_chain_allocated (heap : list Fiber) (l : list (Addr * EType)) :
  forall first, old_chain heap first l ->
                Forall (fun a => (a < length heap)%nat) (map fst l).
Proof.
  induction l as [|[a t] l IH]; intros first; simpl; [constructor|].
  intros (_ & f & Hf & _ & Hrest). constructor.
  - eapply lookup_lt_Some, Hf.
  - eapply IH, Hrest.
Qed.

Lemma tags_insert_same (heap : list Fiber) (a : Addr) (f g : Fiber) :
  heap !! a = Some f -> effectTag g = effectTag f ->
  tags (<[a := g]> heap) = tags heap.
Proof.
  intros Hf Hg. unfold tags.
  rewrite (list_fmap_insert effectTag heap a g), Hg.
  apply list_insert_id. rewrite list_lookup_fmap, Hf. reflexivity.
Qed.

Lemma reconcileLoop_done (fuel : nat) (w : Addr) (elements : list (option Element))
    (index : nat) (prev : option Addr) (s : State) :
  (length elements <= index)%nat ->
  reconcileLoop fuel w elements index None prev s = Ok tt s.
Proof.
  intros H. destruct fuel; simpl;
    (destruct (index <? length elements)%nat eqn:E;
     [apply Nat.ltb_lt in E; lia | reflexivity]).
Qed.

Lemma tags_app (heap : list Fiber) (f : Fiber) :
  tags (heap ++ [f]) = (tags heap ++ [effectTag f]).
Proof. unfold tags. rewrite fmap_app. reflexivity. Qed.

(** One iteration of the loop of [reconcileChildren] for an element that
    has the type of the old fiber at its position. *)
Lemma reconcileLoop_update (fuel : nat) (w : Addr) (elements : list (option Element))
    (index : nat) (oa : Addr) (o : Fiber) (e : Element) (prev : option Addr)
    (wf : Fiber) (s : State) :
  elements !! index = Some (Some e) ->
  fibers s !! oa = Some o ->
  type o = Some (el_type e) ->
  fibers s !! w = Some wf ->
  (index <> 0%nat -> exists pa pf, prev = Some pa /\ fibers s !! pa = Some pf) ->
  exists heap',
    reconcileLoop (S fuel) w elements index (Some oa) prev s
    = reconcileLoop fuel w elements (S index) (sibling o) (Some (length (fibers s)))
        (set_fibers heap' s) /\
    length heap' = S (length (fibers s)) /\
    tags heap' = (tags (fibers s) ++ [Some UPDATE]) /\
    (exists wf', heap' !! w = Some wf') /\
    (exists nf, heap' !! length (fibers s) = Some nf) /\
    (forall a, a <> w -> prev <> Some a -> (a < length (fibers s))%nat ->
               heap' !! a = fibers s !! a).
Proof.
  intros He Ho Ht Hw Hprev.
  assert (Hlt : (index < length elements)%nat) by (eapply lookup_lt_Some, He).
  assert (Hsame : sameType (Some o) (Some e) = true).
  { unfold sameType. rewrite Ht. destruct (el_type e); simpl;
      [apply String.eqb_refl | apply Nat.eqb_refl]. }
  simpl reconcileLoop.
  rewrite He.
  apply Nat.ltb_lt in Hlt. rewrite Hlt.
  change (mjoin (Some (Some e))) with (Some e).
  change (negb true && false) with false. cbv iota.
  unfold readFiber at 1. run_monad. rewrite Ho. cbv iota.
  rewrite Hsame. change (negb true) with false. cbv iota.
  unfold newFiber at 1. run_monad.
  set (nf := mkFiber (type o) (el_props e) (dom o) (Some w) None None (Some oa)
                     (Some UPDATE) None).
  set (n := length (fibers s)).
  assert (Hn : forall a f, fibers s !! a = Some f -> (fibers s ++ [nf]) !! a = Some f).
  { intros a f Ha. apply lookup_app_l_Some, Ha. }
  unfold readFiber at 1. cbn [fibers set_fibers]. rewrite (Hn _ _ Ho). cbv iota.
  assert (Hgen : forall x xf g,
            fibers s !! x = Some xf ->
            (forall f, effectTag (g f) = effectTag f) ->
            (x = w \/ prev = Some x) ->
            let heap' := <[x := g xf]> (fibers s ++ [nf]) in
            length heap' = S n /\
            tags heap' = (tags (fibers s) ++ [Some UPDATE]) /\
            (exists wf', heap' !! w = Some wf') /\
            (exists nf', heap' !! n = Some nf') /\
            (forall a, a <> w -> prev <> Some a -> (a < n)%nat ->
                       heap' !! a = fibers s !! a)).
  { intros x xf g Hx Hg Hcase heap'. subst heap'.
    assert (Hlen : length (<[x := g xf]> (fibers s ++ [nf])) = S n).
    { rewrite length_insert, length_app. simpl. unfold n. lia. }
    split; [exact Hlen|]. split.
    { rewrite (tags_insert_same _ x xf (g xf) (Hn _ _ Hx) (Hg xf)).
      rewrite tags_app. reflexivity. }
    split.
    { apply lookup_lt_is_Some. rewrite Hlen.
      apply lookup_lt_Some in Hw. unfold n. lia. }
    split.
    { apply lookup_lt_is_Some. rewrite Hlen. lia. }
    intros a Haw Hap Han.
    rewrite list_lookup_insert_ne.
    - apply lookup_app_l. exact Han.
    - intros ->. destruct Hcase as [->|Hp]; [congruence|]. apply Hap, Hp. }
  destruct (Nat.eqb_spec index 0) as [Hi|Hi].
  - unfold writeFiber. cbn [fibers set_fibers]. rewrite (Hn _ _ Hw).
    eexists. split; [reflexivity|].
    apply (Hgen w wf (set_child (Some n)) Hw); [reflexivity|left; reflexivity].
  - destruct (Hprev Hi) as (pa & pf & -> & Hpa).
    unfold writeFiber. cbn [fibers set_fibers]. rewrite (Hn _ _ Hpa).
    eexists. split; [reflexivity|].
    apply (Hgen pa pf (set_sibling (Some n)) Hpa); [reflexivity|right; reflexivity].
Qed.

(** The last iteration, for an old fiber that has no element left at its
    position: it is tagged for deletion and pushed on [deletions]. *)
Lemma reconcileLoop_delete_last (fuel : nat) (w : Addr) (elements : list (option Element))
    (index : nat) (oa : Addr) (o : Fiber) (prev : option Addr) (wf : Fiber)
    (ds : list Addr) (s : State) :
  (length elements <= index)%nat ->
  fibers s !! oa = Some o ->
  sibling o = None ->
  fibers s !! w = Some wf ->
  oa <> w ->
  deletions s = Some ds ->
  exists s',
    reconcileLoop (S fuel) w elements index (Some oa) prev s = Ok tt s' /\
    deletions s' = Some (ds ++ [oa]) /\
    tags (fibers s') = <[oa := Some DELETION]> (tags (fibers s)).
Proof.
  intros Hlen Ho Hsib Hw Hne Hds.
  assert (He : elements !! index = None) by (apply lookup_ge_None_2; exact Hlen).
  assert (Hlt : (index <? length elements)%nat = false) by (apply Nat.ltb_ge; exact Hlen).
  simpl reconcileLoop. rewrite He, Hlt.
  change (mjoin None) with (@None Element).
  change (negb false && false) with false. cbv iota.
  unfold readFiber at 1. run_monad. rewrite Ho. cbv iota.
  change (sameType (Some o) None) with false.
  change (negb false) with true. cbv iota. run_monad.
  unfold writeFiber at 1. rewrite Ho.
  unfold pushDeletion. cbn [deletions set_fibers]. rewrite Hds.
  unfold readFiber at 1. cbn [fibers set_fibers set_deletions].
  rewrite list_lookup_insert_eq by (eapply lookup_lt_Some, Ho).
  cbn [sibling set_effectTag]. rewrite Hsib.
  assert (Htags : tags (<[oa := set_effectTag (Some DELETION) o]> (fibers s))
                  = <[oa := Some DELETION]> (tags (fibers s))).
  { unfold tags. rewrite list_fmap_insert. reflexivity. }
  destruct (index =? 0)%nat.
  - unfold writeFiber. cbn [fibers set_fibers set_deletions].
    rewrite list_lookup_insert_ne by exact Hne. rewrite Hw.
    rewrite reconcileLoop_done by lia.
    eexists. split; [reflexivity|]. cbn [deletions fibers set_fibers set_deletions].
    split; [reflexivity|].
    rewrite (tags_insert_same _ w wf (set_child None wf)); [exact Htags| |reflexivity].
    rewrite list_lookup_insert_ne by exact Hne. exact Hw.
  - rewrite reconcileLoop_done by lia.
    eexists. split; [reflexivity|]. cbn [deletions fibers set_fibers set_deletions].
    split; [reflexivity|exact Htags].
Qed.

(** Elements that line up, position by position, with old fibers of
    their own type, followed by one more old fiber: every element updates
    its fiber and the fiber left over is deleted. *)
Lemma reconcileLoop_shifted (w : Addr) (elements : list (option Element))
    (ps : list (Addr * Element)) (last_a : Addr) (last_t : EType) :
  forall index oldFiber prev fuel s wf ds,
    old_chain (fibers s) oldFiber (chain_of ps ++ [(last_a, last_t)]) ->
    (forall j p, ps !! j = Some p -> elements !! (index + j)%nat = Some (Some (snd p))) ->
    length elements = (index + length ps)%nat ->
    fibers s !! w = Some wf ->
    Forall (fun a => a <> w) (map fst ps ++ [last_a]) ->
    (forall pa, prev = Some pa -> Forall (fun a => a <> pa) (map fst ps ++ [last_a])) ->
    (index <> 0%nat -> exists pa pf, prev = Some pa /\ fibers s !! pa = Some pf) ->
    deletions s = Some ds ->
    (length ps < fuel)%nat ->
    exists s',
      reconcileLoop fuel w elements index oldFiber prev s = Ok tt s' /\
      deletions s' = Some (ds ++ [last_a]) /\
      tags (fibers s')
      = <[last_a := Some DELETION]> (tags (fibers s)) ++ repeat (Some UPDATE) (length ps).
Proof.
  induction ps as [|[a e] ps IH];
    intros index oldFiber prev fuel s wf ds Hchain Hel Hlen Hw Hnw Hnp Hprev Hds Hfuel.
  - simpl in Hchain. destruct Hchain as (-> & o & Ho & _ & Hend).
    destruct fuel as [|fuel]; [simpl in Hfuel; lia|].
    destruct (reconcileLoop_delete_last fuel w elements index last_a o prev wf ds s)
      as (s' & Hrun & Hd & Ht); try assumption.
    + simpl in Hlen. lia.
    + inversion Hnw; assumption.
    + exists s'. simpl. rewrite app_nil_r. auto.
  - simpl in Hchain. destruct Hchain as (-> & o & Ho & Hto & Hrest).
    destruct fuel as [|fuel]; [simpl in Hfuel; lia|].
    assert (He : elements !! index = Some (Some e)).
    { specialize (Hel 0%nat (a, e) eq_refl). rewrite Nat.add_0_r in Hel. exact Hel. }
    destruct (reconcileLoop_update fuel w elements index a o e prev wf s He Ho Hto Hw Hprev)
      as (heap' & Hstep & Hlen' & Htags & (wf' & Hw') & (nf & Hnf) & Hframe).
    pose proof (old_chain_allocated _ _ _ Hrest) as Halloc.
    simpl in Hnw. inversion Hnw as [|? ? _ Hnw']; subst.
    assert (Hkeep : forall x, In x (map fst (chain_of ps ++ [(last_a, last_t)])) ->
                              heap' !! x = fibers s !! x).
    { intros x Hx. apply Hframe.
      - rewrite List.Forall_forall in Hnw'. apply Hnw'.
        unfold chain_of in Hx. rewrite map_app, map_map in Hx. exact Hx.
      - intros Hp. specialize (Hnp x Hp). simpl in Hnp.
        inversion Hnp as [|? ? _ Hnp']; subst.
        rewrite List.Forall_forall in Hnp'. apply (Hnp' x); [|reflexivity].
        unfold chain_of in Hx. rewrite map_app, map_map in Hx. exact Hx.
      - rewrite List.Forall_forall in Halloc. apply Halloc, Hx. }
    destruct (IH (S index) (sibling o) (Some (length (fibers s))) fuel
                 (set_fibers heap' s) wf' ds) as (s' & Hrun & Hd & Ht).
    + eapply old_chain_frame; [|exact Hrest].
      intros x f Hx Hf. exists f. cbn [fibers set_fibers]. rewrite (Hkeep x Hx). auto.
    + intros j p Hp. rewrite Nat.add_succ_comm. apply Hel. exact Hp.
    + rewrite Hlen. simpl. lia.
    + exact Hw'.
    + exact Hnw'.
    + intros pa [= <-]. rewrite List.Forall_forall. intros x Hx Heq. subst x.
      rewrite List.Forall_forall in Halloc.
      assert (length (fibers s) < length (fibers s))%nat; [|lia].
      apply Halloc. unfold chain_of. rewrite map_app, map_map. exact Hx.
    + intros _. eauto.
    + exact Hds.
    + simpl in Hfuel. lia.
    + exists s'. rewrite Hstep. split; [exact Hrun|]. split; [exact Hd|].
      rewrite Ht. cbn [fibers set_fibers]. rewrite Htags.
      rewrite insert_app_l.
      * rewrite <- app_assoc. reflexivity.
      * unfold tags. rewrite length_fmap.
        rewrite List.Forall_forall in Halloc. apply Halloc.
        unfold chain_of. rewrite map_app, map_map, in_app_iff. right. left. reflexivity.
Qed.

Lemma shifted_elements (x : Addr * Element) (back : list (Addr * Element)) :
  map snd (shifted x back) = map snd back.
Proof.
  revert x. induction back as [|y back IH]; intros x; simpl; [reflexivity|].
  rewrite IH. reflexivity.
Qed.

Lemma last_cons {A} (y x : A) (l : list A) :
  List.last (y :: l) x = List.last l y.
Proof.
  revert y x. induction l as [|z l IH]; intros y x; [reflexivity|].
  change (List.last (y :: z :: l) x) with (List.last (z :: l) x).
  rewrite (IH z x), (IH z y). reflexivity.
Qed.

Lemma shifted_fibers (x : Addr * Element) (back : list (Addr * Element)) :
  map fst (shifted x back) ++ [fst (List.last back x)] = map fst (x :: back).
Proof.
  revert x. induction back as [|y back IH]; intros x; [reflexivity|].
  rewrite last_cons. simpl. f_equal. apply IH.
Qed.

Lemma shifted_chain (x : Addr * Element) (back : list (Addr * Element)) :
  Forall (fun y => el_type (snd y) = el_type (snd x)) back ->
  chain_of (shifted x back) ++ [(fst (List.last back x), el_type (snd (List.last back x)))]
  = chain_of (x :: back).
Proof.
  revert x. induction back as [|y back IH]; intros x Hall; [reflexivity|].
  inversion Hall as [|? ? Hy Hrest]; subst.
  rewrite last_cons.
  simpl. f_equal; [rewrite Hy; reflexivity|].
  apply (IH y).
  eapply Forall_impl; [exact Hrest|]. simpl. intros z Hz. congruence.
Qed.

(** C6 (amended). One call of [reconcileChildren], for the new fiber [w]
    of the parent.  The children of the previous fiber of the parent (the
    alternate of [w]) were made from [front ++ x :: back], here each
    element paired with its fiber, and the new children are the same list
    without [x] (the element at position [p = length front]).  When the
    elements behind [x] have the type of [x], the call pushes exactly one
    fiber on the deletion list and tags it DELETION: the fiber of the
    previous occupant of the last position, not the fiber of [x] (unless
    [x] was last).  It creates [N - 1] fibers, one for each remaining
    position, every one of them tagged UPDATE and none PLACEMENT, and it
    changes no other effect tag.  (The children of the remaining elements
    are not reconciled by this call but, later in the render, by calls of
    their own.) *)
Theorem reconcile_after_removal (fuel : nat) (w alt : Addr) (wf af : Fiber) (s : State)
    (front back : list (Addr * Element)) (x : Addr * Element) (ds : list Addr) :
  fibers s !! w = Some wf ->
  alternate wf = Some alt ->
  fibers s !! alt = Some af ->
  old_chain (fibers s) (child af) (chain_of (front ++ x :: back)) ->
  Forall (fun o => fst o <> w) (front ++ x :: back) ->
  deletions s = Some ds ->
  Forall (fun y => el_type (snd y) = el_type (snd x)) back ->
  (length (front ++ x :: back) < fuel)%nat ->
  exists s',
    reconcileChildren fuel w (map (fun o => Some (snd o)) (front ++ back)) s = Ok tt s' /\
    deletions s' = Some (ds ++ [fst (List.last back x)]) /\
    tags (fibers s')
    = <[fst (List.last back x) := Some DELETION]> (tags (fibers s))
      ++ repeat (Some UPDATE) (length (front ++ back)).
Proof.
  intros Hw Halt Haf Hchain Hnw Hds Htypes Hfuel.
  set (ps := front ++ shifted x back).
  assert (Hsnd : map snd ps = map snd (front ++ back)).
  { unfold ps. rewrite !map_app, shifted_elements. reflexivity. }
  assert (Hlen : length ps = length (front ++ back)).
  { rewrite <- (length_map snd ps), Hsnd, length_map. reflexivity. }
  assert (Hfst : map fst ps ++ [fst (List.last back x)] = map fst (front ++ x :: back)).
  { unfold ps. rewrite !map_app, <- app_assoc, shifted_fibers. reflexivity. }
  destruct (reconcileLoop_shifted w (map (fun o => Some (snd o)) (front ++ back)) ps
              (fst (List.last back x)) (el_type (snd (List.last back x)))
              0%nat (child af) None fuel s wf ds) as (s' & Hrun & Hd & Ht).
  - unfold ps, chain_of. rewrite map_app, <- app_assoc.
    fold (chain_of front). fold (chain_of (shifted x back)).
    rewrite (shifted_chain x back Htypes).
    unfold chain_of in *. rewrite map_app in Hchain. exact Hchain.
  - intros j p Hp. simpl.
    rewrite <- (map_map snd Some), <- Hsnd, map_map.
    change (map (fun o => Some (snd o)) ps) with ((fun o : Addr * Element => Some (snd o)) <$> ps).
    rewrite list_lookup_fmap, Hp. reflexivity.
  - rewrite length_map, Hlen. reflexivity.
  - exact Hw.
  - rewrite Hfst. rewrite List.Forall_map. exact Hnw.
  - intros pa [=].
  - intros H. contradiction H. reflexivity.
  - exact Hds.
  - rewrite Hlen. rewrite !length_app in *. simpl in Hfuel. lia.
  - exists s'. rewrite Hlen in Ht.
    unfold reconcileChildren, bind at 1. unfold readFiber at 1. rewrite Hw.
    rewrite Halt. unfold bind at 1. unfold bind at 1. unfold readFiber at 1.
    rewrite Haf. unfold ret at 1. auto.
Qed.

Lemma reconcile_after_removal_witness :
  exists s',
    reconcileChildren 10 6%nat [Some (li "B"); Some (li "C")] removal_state = Ok tt s' /\
    deletions s' = Some [4%nat] /\
    tags (fibers s')
    = <[4%nat := Some DELETION]> (tags (fibers removal_state))
      ++ [Some UPDATE; Some UPDATE].
Proof.
  apply (reconcile_after_removal 10 6%nat 1%nat
           (mkFiber (Some (Host "ul")) (mkProps [] [Some (li "B"); Some (li "C")])
                    (Some 1%nat) (Some 5%nat) None None (Some 1%nat) (Some UPDATE) None)
           (mkFiber (Some (Host "ul"))
                    (mkProps [] [Some (li "A"); Some (li "B"); Some (li "C")])
                    (Some 1%nat) (Some 0%nat) (Some 2%nat) None None (Some PLACEMENT) None)
           removal_state
           [] [(3%nat, li "B"); (4%nat, li "C")] (2%nat, li "A") []).
  - reflexivity.
  - reflexivity.
  - reflexivity.
  - simpl. repeat (split; [reflexivity|]; eexists; split; [reflexivity|]; split; [reflexivity|]).
    reflexivity.
  - repeat constructor; simpl; lia.
  - reflexivity.
  - repeat constructor.
  - simpl. lia.
Defined.

(** The claim C6 as it is stated fails.  With three items of one type,
    removing the first (position 0, fiber 2) deletes the fiber of the
    last position (fiber 4, item C) and removes its node from the host;
    the two other nodes are updated to show B and C.  With items of three
    types, removing the first gives three deletions and two placements.
    And the re-render as a whole goes on below the list: the children of
    an element that has moved up are compared with the children of the
    old fiber at its new position.  Removing the first of two items when
    only the first holds a [span] deletes the second item and the [span];
    when only the second holds a [span], a new [span] is placed. *)
Lemma removal_deletes_the_last_position :
  exists s1 s2 t1 t2 u1 u2 v1 v2,
    render_and_run (plain_env 1) (ul [li "A"; li "B"; li "C"]) 0%nat initial_state
    = Ok tt s1 /\
    (attrs <$> (props <$> fibers s1 !! 2%nat)) = Some [("id", VStr "A")] /\
    (attrs <$> (props <$> fibers s1 !! 4%nat)) = Some [("id", VStr "C")] /\
    render_and_run (plain_env 1) (ul [li "B"; li "C"]) 0%nat s1 = Ok tt s2 /\
    deletions s2 = Some [4%nat] /\
    drop (length (hostLog s1)) (hostLog s2)
    = [RemoveChild 1%nat 4%nat; SetProperty 2%nat "id" (VStr "B");
       SetProperty 3%nat "id" (VStr "C")] /\
    render_and_run (plain_env 1)
      (ul [El (Host "div") [] []; El (Host "span") [] []; El (Host "p") [] []])
      0%nat initial_state = Ok tt t1 /\
    render_and_run (plain_env 1)
      (ul [El (Host "span") [] []; El (Host "p") [] []]) 0%nat t1 = Ok tt t2 /\
    deletions t2 = Some [2; 3; 4]%nat /\
    drop (length (fibers t1)) (tags (fibers t2))
    = [None; Some UPDATE; Some PLACEMENT; Some PLACEMENT] /\
    render_and_run (plain_env 1) (ul [li_span "A"; li "B"]) 0%nat initial_state = Ok tt u1 /\
    render_and_run (plain_env 1) (ul [li "B"]) 0%nat u1 = Ok tt u2 /\
    deletions u2 = Some [3; 4]%nat /\
    drop (length (fibers u1)) (tags (fibers u2)) = [None; Some UPDATE; Some UPDATE] /\
    render_and_run (plain_env 1) (ul [li "A"; li_span "B"]) 0%nat initial_state = Ok tt v1 /\
    render_and_run (plain_env 1) (ul [li_span "B"]) 0%nat v1 = Ok tt v2 /\
    deletions v2 = Some [3%nat] /\
    drop (length (fibers v1)) (tags (fibers v2))
    = [None; Some UPDATE; Some UPDATE; Some PLACEMENT].
Proof.
  do 8 eexists.
  split; [vm_compute; reflexivity|].
  do 2 (split; [reflexivity|]).
  split; [vm_compute; reflexivity|].
  do 2 (split; [reflexivity|]).
  split; [vm_compute; reflexivity|].
  split; [vm_compute; reflexivity|].
  do 2 (split; [reflexivity|]).
  split; [vm_compute; reflexivity|].
  split; [vm_compute; reflexivity|].
  do 2 (split; [reflexivity|]).
  split; [vm_compute; reflexivity|].
  split; [vm_compute; reflexivity|].
  split; reflexivity.
Qed.

(** ** Scheduler: cancelling a task *)

Lemma set_taskQueue_same (s : State) : set_taskQueue (taskQueue s) s = s.
Proof. destruct s; reflexivity. Qed.

Lemma indexOf_shift (q : list Task) (task : Task) (i : nat) :
  indexOf q task (S i) = S <$> indexOf q task i.
Proof.
  revert i. induction q as [|t q IH]; intros i; simpl; [reflexivity|].
  destruct (Nat.eqb (id t) (id task)); [reflexivity | apply IH].
Qed.

Lemma splice_out_indexOf (q : list Task) (task : Task) :
  match indexOf q task 0 with
  | Some index => splice_out index q = remove_id (id task) q
  | None => remove_id (id task) q = q
  end.
Proof.
  induction q as [|t q IH]; simpl; [reflexivity|].
  destruct (Nat.eqb (id t) (id task)); [reflexivity|].
  rewrite indexOf_shift. destruct (indexOf q task 0) as [k|]; simpl.
  - unfold splice_out in *. simpl. rewrite IH. reflexivity.
  - rewrite IH. reflexivity.
Qed.

Lemma cancelCallback_run (task : Task) (s : State) :
  cancelCallback task s
  = Ok tt (set_taskQueue (remove_id (id task) (taskQueue s)) s).
Proof.
  unfold cancelCallback, modify.
  pose proof (splice_out_indexOf (taskQueue s) task) as H.
  destruct (indexOf (taskQueue s) task 0); rewrite H; [reflexivity|].
  rewrite set_taskQueue_same. reflexivity.
Qed.

Lemma remove_id_absent (i : nat) (q : list Task) :
  ~ In i (map id q) -> remove_id i q = q.
Proof.
  induction q as [|t q IH]; simpl; intros H; [reflexivity|].
  destruct (Nat.eqb_spec (id t) i) as [E|E]; [tauto|].
  rewrite IH by tauto. reflexivity.
Qed.

Lemma remove_id_inserted (task : Task) (q : list Task) :
  ~ In (id task) (map id q) ->
  remove_id (id task) (insert_behind priority task q) = q.
Proof.
  induction q as [|t q IH]; simpl; intros H.
  - rewrite Nat.eqb_refl. reflexivity.
  - destruct (priority t <=? priority task); simpl.
    + destruct (Nat.eqb_spec (id t) (id task)) as [E|E]; [tauto|].
      rewrite IH by tauto. reflexivity.
    + rewrite Nat.eqb_refl. reflexivity.
Qed.

Lemma insert_behind_front {A} (prio : A -> Z) (x : A) (q : list A) :
  Forall (fun y => prio x < prio y) q -> insert_behind prio x q = x :: q.
Proof.
  destruct q as [|y q]; [reflexivity|]. intros H. inversion H; subst. simpl.
  destruct (Z.leb_spec (prio y) (prio x)); [lia | reflexivity].
Qed.

Lemma remove_id_insert_other (i : nat) (task : Task) (q : list Task) :
  StronglySorted (by_priority priority) q ->
  id task <> i ->
  remove_id i (insert_behind priority task q)
  = insert_behind priority task (remove_id i q).
Proof.
  intros Hs Hne. induction Hs as [|t q Hs IH Hall]; simpl.
  - destruct (Nat.eqb_spec (id task) i); [tauto | reflexivity].
  - destruct (Z.leb_spec (priority t) (priority task)) as [E|E]; simpl.
    + destruct (Nat.eqb_spec (id t) i) as [E'|E']; [reflexivity|].
      simpl. destruct (Z.leb_spec (priority t) (priority task)); [|lia].
      rewrite IH. reflexivity.
    + destruct (Nat.eqb_spec (id task) i); [tauto|].
      destruct (Nat.eqb_spec (id t) i) as [E'|E']; simpl.
      * rewrite insert_behind_front; [reflexivity|].
        eapply Forall_impl; [exact Hall|]. unfold by_priority. simpl. intros. lia.
      * destruct (Z.leb_spec (priority t) (priority task)); [lia|]. reflexivity.
Qed.

Lemma remove_id_sorted (i : nat) (q : list Task) :
  StronglySorted (by_priority priority) q ->
  StronglySorted (by_priority priority) (remove_id i q).
Proof.
  intros Hs. induction Hs as [|t q Hs IH Hall]; simpl; [constructor|].
  destruct (Nat.eqb (id t) i); [exact Hs|].
  constructor; [exact IH|].
  clear -Hall. induction q as [|y q IHq]; simpl; [constructor|].
  inversion Hall; subst. destruct (Nat.eqb (id y) i); [assumption|].
  constructor; auto.
Qed.

(** The state that [scheduleCallback] leaves. *)
Lemma scheduleCallback_eq (cb : Callback) (p : Z) (s : State) :
  let task := mkTask (taskIds s) cb p (now s) in
  let s1 := set_taskQueue (insert_behind priority task (taskQueue s))
              (set_taskIds (S (taskIds s)) s) in
  scheduleCallback cb p s
  = Ok task (if isSchedulerRunning s then s1
             else set_macrotasks (S (macrotasks s)) (set_isSchedulerRunning true s1)).
Proof.
  unfold scheduleCallback, bind, fresh_id, performance_now, get, ret.
  rewrite insertTask_run. simpl.
  destruct (isSchedulerRunning s) eqn:E; simpl; rewrite ?E; reflexivity.
Qed.

Lemma ids_issued_not_in (s : State) :
  ids_issued s -> ~ In (taskIds s) (map id (taskQueue s)).
Proof.
  unfold ids_issued. intros H Hin. apply in_map_iff in Hin as (t & E & Hin).
  rewrite List.Forall_forall in H. specialize (H t Hin). lia.
Qed.

(** X1. [cancelCallback] of the task that [scheduleCallback] has just
    returned puts the queue back as it was, without running anything.  The
    scheduler stays marked as running and the [flushWork] message that the
    call has posted stays pending.  (The tasks in the queue carry
    identities handed out earlier, so the new one is told apart.) *)
Theorem cancelCallback_undoes_scheduleCallback (cb : Callback) (p : Z) (s : State) :
  ids_issued s ->
  exists task s1 s2,
    scheduleCallback cb p s = Ok task s1 /\
    cancelCallback task s1 = Ok tt s2 /\
    taskQueue s2 = taskQueue s /\
    executed s2 = executed s /\
    isSchedulerRunning s2 = true /\
    macrotasks s2 = if isSchedulerRunning s then macrotasks s else S (macrotasks s).
Proof.
  intros Hids. pose proof (ids_issued_not_in s Hids) as Hnot.
  eexists. eexists. eexists.
  split; [apply scheduleCallback_eq|].
  split; [apply cancelCallback_run|].
  destruct (isSchedulerRunning s) eqn:E;
    cbn [taskQueue executed isSchedulerRunning macrotasks
         set_taskQueue set_taskIds set_macrotasks set_isSchedulerRunning];
    rewrite remove_id_inserted by exact Hnot; auto.
Qed.

Lemma cancelCallback_undoes_scheduleCallback_witness :
  exists task s1 s2,
    scheduleCallback (UserCallback 7 1 ReturnsUndefined) 3 initial_state = Ok task s1 /\
    cancelCallback task s1 = Ok tt s2 /\
    taskQueue s2 = [] /\
    isSchedulerRunning s2 = true /\ macrotasks s2 = 1%nat.
Proof.
  destruct (cancelCallback_undoes_scheduleCallback
              (UserCallback 7 1 ReturnsUndefined) 3 initial_state)
    as (task & s1 & s2 & H1 & H2 & H3 & _ & H5 & H6).
  { constructor. }
  exists task, s1, s2. auto.
Defined.

Local Abbreviation queue_of l q0 := (fold_left (fun q r => insert_behind snd r q) l q0).

Lemma scheduleCallback_inv (cb : Callback) (p : Z) (s : State) :
  StronglySorted (by_priority priority) (taskQueue s) ->
  ids_issued s ->
  armed s ->
  exists task s',
    scheduleCallback cb p s = Ok task s' /\
    task = mkTask (taskIds s) cb p (now s) /\
    taskQueue s' = insert_behind priority task (taskQueue s) /\
    StronglySorted (by_priority priority) (taskQueue s') /\
    ids_issued s' /\
    armed s' /\
    isSchedulerRunning s' = true /\
    taskIds s' = S (taskIds s) /\
    executed s' = executed s /\
    microtasks s' = microtasks s.
Proof.
  intros Hs Hids Harmed. eexists. eexists.
  split; [apply scheduleCallback_eq|].
  split; [reflexivity|].
  assert (Hids' : Forall (fun t => (id t < S (taskIds s))%nat)
                    (insert_behind priority (mkTask (taskIds s) cb p (now s)) (taskQueue s))).
  { eapply Permutation_Forall; [apply Permutation_sym, insert_behind_perm|].
    constructor; [simpl; lia|].
    eapply Forall_impl; [exact Hids|]. simpl. intros. lia. }
  unfold armed, ids_issued in *.
  destruct (isSchedulerRunning s) eqn:E;
    cbn [taskQueue executed isSchedulerRunning macrotasks microtasks taskIds
         set_taskQueue set_taskIds set_macrotasks set_isSchedulerRunning];
    rewrite ?E;
    (split; [reflexivity|]);
    (split; [apply insert_behind_sorted, Hs|]);
    (split; [exact Hids'|]);
    (split; [|auto]).
  - exact Harmed.
  - destruct Harmed as [-> _]. reflexivity.
Qed.

Lemma schedule_all_inv (l : list Request) : forall s,
  StronglySorted (by_priority priority) (taskQueue s) ->
  ids_issued s ->
  armed s ->
  exists s',
    schedule_all l s = Ok tt s' /\
    StronglySorted (by_priority priority) (taskQueue s') /\
    ids_issued s' /\
    armed s' /\
    (isSchedulerRunning s = true -> isSchedulerRunning s' = true) /\
    (taskIds s <= taskIds s')%nat /\
    executed s' = executed s /\
    microtasks s' = microtasks s /\
    map request_of (taskQueue s') = queue_of l (map request_of (taskQueue s)) /\
    forall i, (i < taskIds s)%nat ->
      map request_of (remove_id i (taskQueue s'))
      = queue_of l (map request_of (remove_id i (taskQueue s))).
Proof.
  induction l as [|[cb p] l IH]; intros s Hs Hids Harmed; simpl.
  - exists s. unfold ret. auto 12.
  - destruct (scheduleCallback_inv cb p s Hs Hids Harmed)
      as (task & s1 & H & Ht & Hq & Hs1 & Hids1 & Harmed1 & Hrun1 & Hn1 & He1 & Hm1).
    destruct (IH s1 Hs1 Hids1 Harmed1)
      as (s2 & H2 & Hs2 & Hids2 & Harmed2 & Hrun2 & Hn2 & He2 & Hm2 & Hq2 & Hrem2).
    exists s2. unfold bind at 1. unfold bind at 1. rewrite H. unfold ret at 1.
    split; [exact H2|]. split; [exact Hs2|]. split; [exact Hids2|].
    split; [exact Harmed2|]. split; [auto|]. split; [lia|].
    split; [congruence|]. split; [congruence|].
    split.
    + rewrite Hq2, Hq, request_of_insert_behind, Ht. reflexivity.
    + intros i Hi. rewrite Hrem2 by lia. rewrite Hq.
      rewrite remove_id_insert_other by (try exact Hs; rewrite Ht; simpl; lia).
      rewrite request_of_insert_behind, Ht. reflexivity.
Qed.

Lemma flushWork_page_full (env : Env) (fuel : nat) (s : State) :
  Forall (fun r => page_callback (fst r) = true) (map request_of (taskQueue s)) ->
  (total_visits (map request_of (taskQueue s)) <= fuel)%nat ->
  exists k s',
    flushWork fuel env s = Ok tt s' /\
    map request_of (taskQueue s') = queue_after k (map request_of (taskQueue s)) /\
    executed s' = executed s ++ map fst (calls_of k (map request_of (taskQueue s))) /\
    microtasks s' = microtasks s /\
    macrotasks s' = (if Nat.eqb (length (taskQueue s')) 0
                     then macrotasks s else S (macrotasks s)) /\
    isSchedulerRunning s' = (if Nat.eqb (length (taskQueue s')) 0
                             then false else isSchedulerRunning s) /\
    (k + total_visits (queue_after k (map request_of (taskQueue s))))%nat
    = total_visits (map request_of (taskQueue s)) /\
    (taskQueue s <> [] -> (1 <= k)%nat).
Proof.
  intros Hpage Hfuel.
  destruct (flushWork_loop_page env (now s) fuel fuel s Hfuel (le_n _) Hpage)
    as (k & Hout & Hsum & Hne).
  exists k.
  unfold flushWork, bind, performance_now, get, try_catch, console_error, modify.
  unfold loop_result in Hout.
  destruct (flushWork_loop fuel env (now s) s) as [[] s'|e s'|]; simpl in Hout;
    [| |contradiction];
    destruct Hout as (H1 & H2 & H3 & H4 & H5);
    cbn [taskQueue set_currentTask set_console];
    (destruct (taskQueue s') as [|t q'] eqn:Eq; unfold scheduleWork, modify;
     eexists; (split; [reflexivity|]);
     cbn [taskQueue executed microtasks macrotasks isSchedulerRunning
          set_currentTask set_console set_isSchedulerRunning set_macrotasks];
     rewrite Eq; simpl length; simpl Nat.eqb; cbv iota;
     (repeat split; try assumption; try congruence;
      apply Hne; rewrite Z.sub_diag; reflexivity)).
Qed.

(** One delivered [flushWork] message, then as many turns as it takes. *)
Lemma run_turns_armed (env : Env) (n fuel : nat) (s : State) :
  Forall (fun r => page_callback (fst r) = true) (map request_of (taskQueue s)) ->
  (total_visits (map request_of (taskQueue s)) <= n)%nat ->
  (total_visits (map request_of (taskQueue s)) <= fuel)%nat ->
  microtasks s = 0%nat ->
  macrotasks s = 1%nat ->
  exists s',
    run_turns (S n) fuel env s = Ok tt s' /\
    executed s' = executed s ++ map fst (calls_of n (map request_of (taskQueue s))) /\
    taskQueue s' = [] /\
    macrotasks s' = 0%nat.
Proof.
  intros Hpage Hn Hfuel Hmicro Hmacro.
  rewrite run_turns_eq, Hmacro.
  set (s0 := set_macrotasks (Nat.pred (macrotasks s)) s).
  assert (Eq0 : taskQueue s0 = taskQueue s) by reflexivity.
  destruct (flushWork_page env fuel s0) as
    (k & s1 & Hrun & Hq & Hex & Hmi & Hma & Hsum & Hne);
    [rewrite Eq0; assumption..|].
  rewrite Eq0 in Hq, Hex, Hsum.
  destruct (run_turns_page env n fuel s1) as (s2 & Hrun2 & Hex2 & Hq2 & Hma2).
  { rewrite Hq. apply page_callback_after. exact Hpage. }
  { rewrite Hq. lia. }
  { rewrite Hq. lia. }
  { rewrite Hmi. exact Hmicro. }
  { rewrite Hma. subst s0. cbn [macrotasks set_macrotasks]. rewrite Hmacro. simpl.
    destruct (length (taskQueue s1)); reflexivity. }
  exists s2.
  unfold turn, bind at 1. unfold bind at 1. unfold modify at 1. fold s0.
  unfold bind at 1. rewrite Hrun.
  rewrite microtask_checkpoint_idle by (rewrite Hmi; exact Hmicro).
  split; [exact Hrun2|].
  split; [|auto].
  rewrite Hex2, Hex, Hq. subst s0. cbn [executed set_macrotasks].
  rewrite <- app_assoc, <- map_app, <- calls_of_split.
  replace (k + n)%nat with (n + k)%nat by lia.
  rewrite calls_of_saturated by exact Hn. reflexivity.
Qed.

Lemma idle_armed (s : State) : idle s -> armed s.
Proof. intros (Hq & Hr & Hma & _). unfold armed. rewrite Hr. auto. Qed.

(** X2. A task that is cancelled before its turn is never run: scheduling
    the requests [l1], then a task, then the requests [l2], cancelling the
    task and letting the scheduler run makes exactly the calls, in the
    order, of scheduling [l1 ++ l2] alone (see C4), and leaves the
    scheduler with an empty queue and no pending message. *)
Theorem cancelled_task_is_never_run (env : Env) (s : State)
    (l1 l2 : list Request) (cb : Callback) (p : Z) :
  idle s ->
  Forall (fun r => page_callback (fst r) = true) (l1 ++ l2) ->
  let n := total_visits (l1 ++ l2) in
  exists task s1 s2,
    (schedule_all l1;;
     let* task := scheduleCallback cb p in
     schedule_all l2;;
     ret task) s = Ok task s1 /\
    request_of task = (cb, p) /\
    (cancelCallback task;; run_turns (S n) n env) s1 = Ok tt s2 /\
    executed s2 = executed s ++ map fst (calls_of n (priority_order snd (l1 ++ l2))) /\
    taskQueue s2 = [] /\ macrotasks s2 = 0%nat.
Proof.
  intros Hidle Hpage n.
  pose proof (idle_armed s Hidle) as Harmed.
  destruct Hidle as (Hq & Hrun & Hmac & Hmic).
  destruct (schedule_all_inv l1 s)
    as (sa & Ha & Hsa & Hidsa & Harmeda & _ & _ & Hea & Hma & Hqa & _);
    [rewrite Hq; constructor | unfold ids_issued; rewrite Hq; constructor | exact Harmed |].
  destruct (scheduleCallback_inv cb p sa Hsa Hidsa Harmeda)
    as (task & sb & Hb & Ht & Hqb & Hsb & Hidsb & Harmedb & Hrunb & Hnb & Heb & Hmb).
  destruct (schedule_all_inv l2 sb Hsb Hidsb Harmedb)
    as (sc & Hc & Hsc & Hidsc & Harmedc & Hrunc & _ & Hec & Hmc & _ & Hrem).
  specialize (Hrunc Hrunb).
  assert (Hlt : (taskIds sa < taskIds sb)%nat) by lia.
  specialize (Hrem (taskIds sa) Hlt).
  assert (Hqd : map request_of (remove_id (id task) (taskQueue sc))
                = priority_order snd (l1 ++ l2)).
  { replace (id task) with (taskIds sa) by (rewrite Ht; reflexivity).
    rewrite Hrem, Hqb.
    replace (taskIds sa) with (id task) by (rewrite Ht; reflexivity).
    rewrite remove_id_inserted
      by (rewrite Ht; simpl; apply ids_issued_not_in, Hidsa).
    rewrite Hqa, Hq. unfold priority_order. rewrite fold_left_app. reflexivity. }
  set (sd := set_taskQueue (remove_id (id task) (taskQueue sc)) sc).
  assert (Hvis : total_visits (priority_order snd (l1 ++ l2)) = n).
  { subst n. unfold priority_order. rewrite total_visits_priority_order.
    unfold total_visits. simpl. lia. }
  destruct (run_turns_armed env n n sd) as (s2 & H2 & He2 & Hq2 & Hma2).
  { subst sd. cbn [taskQueue set_taskQueue]. rewrite Hqd.
    destruct (priority_order_stable_sort snd (l1 ++ l2)) as (_ & Hperm & _).
    apply Permutation_sym in Hperm. apply (Permutation_Forall Hperm Hpage). }
  { subst sd. cbn [taskQueue set_taskQueue]. rewrite Hqd, Hvis. lia. }
  { subst sd. cbn [taskQueue set_taskQueue]. rewrite Hqd, Hvis. lia. }
  { subst sd. cbn [microtasks set_taskQueue]. congruence. }
  { subst sd. cbn [macrotasks set_taskQueue]. unfold armed in Harmedc.
    rewrite Hrunc in Harmedc. exact Harmedc. }
  exists task, sc, s2.
  split.
  { unfold bind at 1. rewrite Ha. unfold bind at 1. rewrite Hb.
    unfold bind at 1. rewrite Hc. reflexivity. }
  split; [rewrite Ht; reflexivity|].
  split.
  { unfold bind at 1. rewrite cancelCallback_run. fold sd. exact H2. }
  split; [|auto].
  rewrite He2. subst sd. cbn [executed taskQueue set_taskQueue].
  rewrite Hqd. congruence.
Qed.

Lemma cancelled_task_is_never_run_witness :
  exists task s1 s2,
    (schedule_all [(UserCallback 1 1 ReturnsUndefined, 5)];;
     let* task := scheduleCallback (UserCallback 9 1 ReturnsUndefined) 0 in
     schedule_all [(UserCallback 2 1 ReturnsUndefined, 0)];;
     ret task) initial_state = Ok task s1 /\
    (cancelCallback task;; run_turns 3 2 (plain_env 1)) s1 = Ok tt s2 /\
    executed s2 = [2; 1]%nat.
Proof.
  destruct (cancelled_task_is_never_run (plain_env 1) initial_state
              [(UserCallback 1 1 ReturnsUndefined, 5)]
              [(UserCallback 2 1 ReturnsUndefined, 0)]
              (UserCallback 9 1 ReturnsUndefined) 0)
    as (task & s1 & s2 & H1 & _ & H2 & H3 & _).
  { repeat split. }
  { repeat constructor. }
  exists task, s1, s2. split; [exact H1|]. split; [exact H2|]. exact H3.
Defined.

(** ** Scheduler: exceptions, time slices and wake-ups *)

(** X3. When the first task of the queue throws, [flushWork] returns
    normally: the exception is reported with [console.error], the task is
    gone from the queue, and the tasks behind it are not run in this turn,
    however little time has passed; they stay queued and a new [flushWork]
    message is posted for them ([isSchedulerRunning] is reset when there
    are none). *)
Theorem flushWork_stops_at_a_throwing_task (fuel : nat) (env : Env) (s : State)
    (task : Task) (rest : list Task) (name : nat) (cost : Z) (e : Val) :
  taskQueue s = task :: rest ->
  callback task = UserCallback name cost (ThrowsError e) ->
  exists s',
    flushWork (S fuel) env s = Ok tt s' /\
    taskQueue s' = rest /\
    executed s' = executed s ++ [name] /\
    console s' = console s ++ [SchedulerError (Thrown e)] /\
    currentTask s' = None /\
    now s' = now s + cost /\
    isSchedulerRunning s' = (if Nat.eqb (length rest) 0 then false else isSchedulerRunning s) /\
    macrotasks s' = (if Nat.eqb (length rest) 0 then macrotasks s else S (macrotasks s)).
Proof.
  intros Hq Hcb.
  unfold flushWork, bind at 1, performance_now, get at 1.
  unfold bind at 1, try_catch.
  rewrite flushWork_loop_eq, Hq, Z.sub_diag. simpl (0 >=? TIME_SLICE). cbv iota.
  rewrite Hcb. simpl is_function. cbv iota. unfold invoke. run_monad.
  unfold elapse, console_error. run_monad.
  cbn [taskQueue set_taskQueue set_currentTask set_now set_executed set_console].
  destruct rest as [|t rest']; unfold scheduleWork, modify;
    eexists; (split; [reflexivity|]); simpl; auto 10.
Qed.

Lemma flushWork_stops_at_a_throwing_task_witness :
  exists s',
    flushWork 1 (plain_env 1)
      (set_taskQueue [mkTask 0 (UserCallback 1 0 (ThrowsError (VStr "boom"))) 0 0;
                      mkTask 1 (UserCallback 2 0 ReturnsUndefined) 0 0] initial_state)
    = Ok tt s' /\
    executed s' = [1%nat] /\
    taskQueue s' = [mkTask 1 (UserCallback 2 0 ReturnsUndefined) 0 0] /\
    macrotasks s' = 1%nat.
Proof.
  destruct (flushWork_stops_at_a_throwing_task 0 (plain_env 1)
              (set_taskQueue [mkTask 0 (UserCallback 1 0 (ThrowsError (VStr "boom"))) 0 0;
                              mkTask 1 (UserCallback 2 0 ReturnsUndefined) 0 0] initial_state)
              (mkTask 0 (UserCallback 1 0 (ThrowsError (VStr "boom"))) 0 0)
              [mkTask 1 (UserCallback 2 0 ReturnsUndefined) 0 0] 1%nat 0 (VStr "boom"))
    as (s' & H1 & H2 & H3 & _ & _ & _ & _ & H8); [reflexivity | reflexivity |].
  exists s'. auto.
Defined.

Lemma total_cost_snoc (q : list Task) (t : Task) :
  total_cost (q ++ [t]) = total_cost q + cost_of (callback t).
Proof.
  induction q as [|y q IH]; simpl; [lia|]. rewrite IH. lia.
Qed.

(** The loop of [flushWork] on callbacks that return [undefined]: [k]
    tasks are run, one after the other. *)
Lemma flushWork_loop_slices (env : Env) (turnStart : Z) (q : list Task) :
  forall fuel s,
    taskQueue s = q ->
    Forall (fun t => returns_nothing (callback t) = true) q ->
    (length q <= fuel)%nat ->
    exists k s',
      flushWork_loop fuel env turnStart s = Ok tt s' /\
      (k <= length q)%nat /\
      taskQueue s' = drop k q /\
      executed s' = executed s ++ map (fun t => callback_name (callback t)) (take k q) /\
      now s' = now s + total_cost (take k q) /\
      macrotasks s' = macrotasks s /\
      isSchedulerRunning s' = isSchedulerRunning s /\
      console s' = console s /\
      (forall j, (j < k)%nat -> now s - turnStart + total_cost (take j q) < TIME_SLICE) /\
      ((k < length q)%nat -> TIME_SLICE <= now s - turnStart + total_cost (take k q)).
Proof.
  induction q as [|t q IH]; intros fuel s Hq Hall Hfuel.
  - exists 0%nat, s. rewrite flushWork_loop_eq, Hq. simpl.
    rewrite app_nil_r, Z.add_0_r. repeat split; auto; intros; lia.
  - rewrite flushWork_loop_eq, Hq.
    destruct (Z.geb_spec (now s - turnStart) TIME_SLICE) as [Ey|Ey].
    { exists 0%nat, s. simpl. rewrite app_nil_r, Z.add_0_r.
      repeat split; auto; intros; lia. }
    destruct fuel as [|fuel]; [simpl in Hfuel; lia|].
    inversion Hall as [|? ? Hcb Hrest]; subst.
    destruct t as [tid cb p tst]. simpl in Hcb. simpl callback.
    destruct cb as [|name cost [| |]|]; try discriminate Hcb.
    simpl is_function. cbv iota. unfold invoke. run_monad. unfold elapse. run_monad.
    match goal with |- context [flushWork_loop fuel env turnStart ?st] =>
      destruct (IH fuel st) as (k & s' & H & Hk & H1 & H2 & H3 & H4 & H5 & H6 & H7 & H8)
    end; [reflexivity | exact Hrest | simpl in Hfuel; lia |].
    cbn [executed now macrotasks isSchedulerRunning console
         set_taskQueue set_currentTask set_now set_executed] in H2, H3, H4, H5, H6, H7, H8.
    exists (S k), s'. split; [exact H|].
    simpl length. simpl drop. simpl take. simpl map.
    cbn [total_cost fold_right callback cost_of callback_name].
    fold (total_cost (take k q)).
    split; [lia|]. split; [exact H1|].
    split; [rewrite H2, <- app_assoc; reflexivity|].
    split; [rewrite H3; lia|].
    split; [exact H4|]. split; [exact H5|]. split; [exact H6|].
    split.
    + intros [|j] Hj; simpl take; cbn [total_cost fold_right callback cost_of].
      * lia.
      * fold (total_cost (take j q)). specialize (H7 j ltac:(lia)). lia.
    + intros Hlt. specialize (H8 ltac:(lia)). lia.
Qed.

(** X4. [flushWork] looks at the clock between tasks only.  On a queue of
    callbacks that return [undefined] it runs the first [k] tasks in queue
    order, each to its end; before each of them less than [TIME_SLICE]
    milliseconds of this turn had been used, and when tasks are left the
    [k] that ran have used [TIME_SLICE] or more.  At least one task runs
    when the queue is not empty.  The tasks left stay queued and one more
    [flushWork] message is posted; when none is left the scheduler is
    marked as not running. *)
Theorem flushWork_yields_between_tasks (env : Env) (fuel : nat) (s : State) :
  Forall (fun t => returns_nothing (callback t) = true) (taskQueue s) ->
  (length (taskQueue s) <= fuel)%nat ->
  exists k s',
    flushWork fuel env s = Ok tt s' /\
    (k <= length (taskQueue s))%nat /\
    (taskQueue s <> [] -> (1 <= k)%nat) /\
    taskQueue s' = drop k (taskQueue s) /\
    executed s'
    = executed s ++ map (fun t => callback_name (callback t)) (take k (taskQueue s)) /\
    now s' = now s + total_cost (take k (taskQueue s)) /\
    (forall j, (j < k)%nat -> total_cost (take j (taskQueue s)) < TIME_SLICE) /\
    ((k < length (taskQueue s))%nat ->
     TIME_SLICE <= total_cost (take k (taskQueue s)) /\
     macrotasks s' = S (macrotasks s) /\
     isSchedulerRunning s' = isSchedulerRunning s) /\
    (k = length (taskQueue s) ->
     macrotasks s' = macrotasks s /\ isSchedulerRunning s' = false).
Proof.
  intros Hall Hfuel.
  destruct (flushWork_loop_slices env (now s) (taskQueue s) fuel s eq_refl Hall Hfuel)
    as (k & s1 & H & Hk & H1 & H2 & H3 & H4 & H5 & H6 & H7 & H8).
  rewrite Z.sub_diag in H7, H8. simpl in H7, H8.
  exists k.
  unfold flushWork, bind at 1, performance_now, get at 1.
  unfold bind at 1, try_catch. rewrite H. run_monad.
  cbn [taskQueue set_currentTask]. rewrite H1.
  assert (Hone : taskQueue s <> [] -> (1 <= k)%nat).
  { intros Hne. destruct k as [|k]; [|lia]. exfalso.
    destruct (taskQueue s) as [|t q]; [congruence|].
    simpl in H8. specialize (H8 ltac:(lia)). unfold TIME_SLICE in H8. lia. }
  destruct (drop k (taskQueue s)) as [|t q'] eqn:Ed; unfold scheduleWork, modify;
    eexists; (split; [reflexivity|]);
    cbn [taskQueue executed now macrotasks isSchedulerRunning
         set_currentTask set_isSchedulerRunning set_macrotasks];
    (split; [exact Hk|]); (split; [exact Hone|]);
    (split; [exact H1 || (rewrite H1; exact Ed)|]);
    (split; [exact H2|]); (split; [exact H3|]); (split; [exact H7|]).
  - split; [|auto]. intros Hlt. exfalso.
    apply (f_equal (@length _)) in Ed. rewrite length_drop in Ed. simpl in Ed. lia.
  - split; [intros Hlt; auto|].
    intros ->. rewrite drop_all in Ed. discriminate.
Qed.

Lemma flushWork_yields_between_tasks_witness :
  exists s',
    flushWork 3 (plain_env 1)
      (set_taskQueue [mkTask 0 (UserCallback 1 2 ReturnsUndefined) 0 0;
                      mkTask 1 (UserCallback 2 4 ReturnsUndefined) 0 0;
                      mkTask 2 (UserCallback 3 1 ReturnsUndefined) 0 0] initial_state)
    = Ok tt s' /\
    executed s' = [1; 2]%nat /\
    taskQueue s' = [mkTask 2 (UserCallback 3 1 ReturnsUndefined) 0 0].
Proof.
  destruct (flushWork_yields_between_tasks (plain_env 1) 3
              (set_taskQueue [mkTask 0 (UserCallback 1 2 ReturnsUndefined) 0 0;
                              mkTask 1 (UserCallback 2 4 ReturnsUndefined) 0 0;
                              mkTask 2 (UserCallback 3 1 ReturnsUndefined) 0 0]
                 initial_state))
    as (k & s' & H & Hk & H1 & H2 & H3 & H4 & H5 & H6 & H7).
  { repeat constructor. }
  { simpl. lia. }
  exists s'. split; [exact H|].
  vm_compute in H. injection H as <-. split; reflexivity.
Defined.

Lemma scheduleCallback_armed (cb : Callback) (p : Z) (s : State) :
  armed s ->
  exists task s',
    scheduleCallback cb p s = Ok task s' /\
    armed s' /\ isSchedulerRunning s' = true /\ macrotasks s' = 1%nat.
Proof.
  intros Harmed. eexists. eexists. split; [apply scheduleCallback_eq|].
  unfold armed in *.
  destruct (isSchedulerRunning s) eqn:E;
    cbn [isSchedulerRunning macrotasks set_taskQueue set_taskIds
         set_macrotasks set_isSchedulerRunning];
    rewrite ?E; [auto|].
  destruct Harmed as [-> _]. auto.
Qed.

(** X5. The scheduler never strands a task and never posts a second
    message: in every state where [armed] holds it still holds after
    [scheduleCallback], [requestIdleCallback], [render] and
    [cancelCallback], and after a turn over callbacks of the page.  After
    the first three the scheduler is marked as running with exactly one
    [flushWork] message pending; after a turn it is marked as running
    exactly when tasks are left. *)
Theorem scheduler_stays_armed (env : Env) (fuel : nat) (s : State) :
  armed s ->
  (forall cb p, exists task s',
     scheduleCallback cb p s = Ok task s' /\
     armed s' /\ isSchedulerRunning s' = true /\ macrotasks s' = 1%nat) /\
  (forall cb, exists task s',
     requestIdleCallback cb s = Ok task s' /\
     armed s' /\ isSchedulerRunning s' = true /\ macrotasks s' = 1%nat) /\
  (forall element container, exists s',
     render element container s = Ok tt s' /\
     armed s' /\ isSchedulerRunning s' = true /\ macrotasks s' = 1%nat) /\
  (forall task, exists s', cancelCallback task s = Ok tt s' /\ armed s') /\
  (isSchedulerRunning s = true ->
   microtasks s = 0%nat ->
   Forall (fun r => page_callback (fst r) = true) (map request_of (taskQueue s)) ->
   (total_visits (map request_of (taskQueue s)) <= fuel)%nat ->
   exists s', turn fuel env s = Ok tt s' /\ armed s' /\
              (taskQueue s' = [] <-> isSchedulerRunning s' = false)).
Proof.
  intros Harmed.
  split; [intros cb p; apply scheduleCallback_armed, Harmed|].
  split; [intros cb; unfold requestIdleCallback; apply scheduleCallback_armed, Harmed|].
  split.
  { intros element container. unfold render. run_monad. unfold newFiber. run_monad.
    match goal with |- context [scheduleCallback WorkLoop 0 ?st] =>
      destruct (scheduleCallback_armed WorkLoop 0 st) as (task & s' & H & H1 & H2 & H3);
        [exact Harmed|]
    end.
    exists s'. rewrite H. auto. }
  split.
  { intros task. eexists. split; [apply cancelCallback_run|].
    unfold armed in *. cbn [isSchedulerRunning macrotasks taskQueue set_taskQueue].
    destruct (isSchedulerRunning s); [exact Harmed|].
    destruct Harmed as [Hm Hq]. rewrite Hq. auto. }
  intros Hrun Hmicro Hpage Hfuel.
  unfold armed in Harmed. rewrite Hrun in Harmed.
  set (s0 := set_macrotasks (Nat.pred (macrotasks s)) s).
  destruct (flushWork_page_full env fuel s0)
    as (k & s1 & H & _ & _ & Hmi & Hma & Hr & _ & _); [assumption..|].
  exists s1. unfold turn, bind at 1. unfold modify at 1. fold s0.
  unfold bind at 1. rewrite H.
  rewrite microtask_checkpoint_idle by (rewrite Hmi; exact Hmicro).
  split; [reflexivity|].
  subst s0. cbn [macrotasks isSchedulerRunning set_macrotasks] in Hma, Hr.
  rewrite Harmed, Hrun in *. simpl in Hma.
  unfold armed. rewrite Hr.
  destruct (taskQueue s1) as [|t q]; simpl in *; rewrite ?Hma; split; auto;
    split; congruence.
Qed.

Lemma scheduler_stays_armed_witness :
  armed initial_state /\
  exists task s',
    scheduleCallback WorkLoop 0 initial_state = Ok task s' /\
    armed s' /\ isSchedulerRunning s' = true /\ macrotasks s' = 1%nat.
Proof.
  assert (H : armed initial_state) by (split; reflexivity).
  split; [exact H|].
  apply (proj1 (scheduler_stays_armed (plain_env 1) 0 initial_state H) WorkLoop 0).
Defined.

Lemma insert_behind_before_last {A} (prio : A -> Z) (x z : A) (q : list A) :
  prio x < prio z ->
  insert_behind prio x (q ++ [z]) = insert_behind prio x q ++ [z].
Proof.
  intros Hlt. induction q as [|y q IH]; simpl.
  - destruct (Z.leb_spec (prio z) (prio x)); [lia | reflexivity].
  - destruct (prio y <=? prio x); [rewrite IH|]; reflexivity.
Qed.

Lemma priority_order_last {A} (prio : A -> Z) (z : A) (l : list A) :
  Forall (fun x => prio x < prio z) l ->
  priority_order prio (z :: l) = priority_order prio l ++ [z].
Proof.
  intros Hall.
  assert (H : forall q, fold_left (fun q x => insert_behind prio x q) l (q ++ [z])
                        = fold_left (fun q x => insert_behind prio x q) l q ++ [z]).
  { induction Hall as [|x l Hx _ IH]; intros q; simpl; [reflexivity|].
    rewrite insert_behind_before_last by assumption. apply IH. }
  apply (H []).
Qed.

Lemma one_shot_page (cb : Callback) : one_shot cb = true -> page_callback cb = true.
Proof. destruct cb as [|? ? [| |]|]; simpl; congruence. Qed.

Lemma one_shot_visits (l : list Request) :
  Forall (fun r => one_shot (fst r) = true) l -> total_visits l = length l.
Proof.
  unfold total_visits. induction 1 as [|[cb p] l Hcb _ IH]; simpl; [reflexivity|].
  rewrite IH. destruct cb as [|? ? [| |]|]; simpl in *; congruence.
Qed.

(** X6. [requestIdleCallback] queues its callback at priority 1000: it
    runs after every task of a priority below 1000, also after those that
    are scheduled later than it. *)
Theorem idle_callback_runs_after_normal_tasks (env : Env) (s : State)
    (cb : Callback) (l : list Request) :
  idle s ->
  one_shot cb = true ->
  Forall (fun r => one_shot (fst r) = true) l ->
  Forall (fun r => snd r < 1000) l ->
  exists s1 s2,
    ((let* _ := requestIdleCallback cb in ret tt);; schedule_all l) s = Ok tt s1 /\
    run_turns (S (length l)) (S (length l)) env s1 = Ok tt s2 /\
    executed s2
    = executed s ++ map request_name (priority_order snd l) ++ [callback_name cb] /\
    taskQueue s2 = [] /\ macrotasks s2 = 0%nat.
Proof.
  intros Hidle Hcb Hone Hlow.
  assert (Hall : Forall (fun r => one_shot (fst r) = true) ((cb, 1000) :: l))
    by (constructor; assumption).
  destruct (run_batch env s ((cb, 1000) :: l) Hidle)
    as (s1 & s2 & H1 & H2 & He & Hq & Hm).
  { eapply Forall_impl; [exact Hall|]. intros r. apply one_shot_page. }
  rewrite (one_shot_visits _ Hall) in H2, He. simpl length in H2, He.
  exists s1, s2. split; [exact H1|]. split; [exact H2|]. split; [|auto].
  rewrite He.
  destruct (priority_order_stable_sort snd ((cb, 1000) :: l)) as (_ & Hperm & _).
  rewrite calls_of_one_shot.
  - rewrite map_map. simpl. rewrite (priority_order_last snd (cb, 1000) l) by exact Hlow.
    rewrite map_app. reflexivity.
  - apply Permutation_sym in Hperm. apply (Permutation_Forall Hperm Hall).
  - rewrite (Permutation_length Hperm). simpl. lia.
Qed.

Lemma idle_callback_runs_after_normal_tasks_witness :
  exists s1 s2,
    ((let* _ := requestIdleCallback (UserCallback 9 1 ReturnsUndefined) in ret tt);;
     schedule_all [(UserCallback 1 1 ReturnsUndefined, 5);
                   (UserCallback 2 1 ReturnsUndefined, 0)]) initial_state = Ok tt s1 /\
    run_turns 3 3 (plain_env 1) s1 = Ok tt s2 /\
    executed s2 = [2; 1; 9]%nat.
Proof.
  destruct (idle_callback_runs_after_normal_tasks (plain_env 1) initial_state
              (UserCallback 9 1 ReturnsUndefined)
              [(UserCallback 1 1 ReturnsUndefined, 5);
               (UserCallback 2 1 ReturnsUndefined, 0)])
    as (s1 & s2 & H1 & H2 & H3 & _).
  { repeat split. }
  { reflexivity. }
  { repeat constructor. }
  { repeat constructor. }
  exists s1, s2. split; [exact H1|]. split; [exact H2|]. exact H3.
Defined.

(** ** Host nodes: [updateDom] and [createDom] *)

Lemma set_hostLog_same (s : State) : set_hostLog (hostLog s ++ []) s = s.
Proof. rewrite app_nil_r. destruct s; reflexivity. Qed.

Lemma forEach_host {A} (g : A -> HostCall) (l : list A) : forall s,
  forEach (fun x => host (g x)) l s = Ok tt (set_hostLog (hostLog s ++ map g l) s).
Proof.
  induction l as [|x l IH]; intros s; simpl.
  - unfold ret. rewrite set_hostLog_same. reflexivity.
  - unfold bind, host, modify. rewrite IH.
    cbn [hostLog set_hostLog]. rewrite <- app_assoc. reflexivity.
Qed.

Lemma updateDom_run (dom : Handle) (prev next : Attrs) (s : State) :
  updateDom dom prev next s
  = Ok tt (set_hostLog
             (hostLog s
              ++ map (fun name => RemoveEventListener dom (eventTypeOf name) (get_attr name prev))
                   (List.filter (fun key => negb (has_member key next) || isNew prev next key)
                      (List.filter isEvent (keys prev)))
              ++ map (fun name => SetProperty dom name (VStr ""))
                   (List.filter (isGone next) (List.filter isProperty (keys prev)))
              ++ map (fun name => SetProperty dom name (get_attr name next))
                   (List.filter (isNew prev next) (List.filter isProperty (keys next)))
              ++ map (fun name => AddEventListener dom (eventTypeOf name) (get_attr name next))
                   (List.filter (isNew prev next) (List.filter isEvent (keys next)))) s).
Proof.
  unfold updateDom, bind. rewrite !forEach_host.
  cbn [hostLog set_hostLog]. rewrite <- !app_assoc. reflexivity.
Qed.

Lemma has_attr_keys (k : string) (o : Attrs) : has_attr k o = true <-> In k (keys o).
Proof.
  induction o as [|[k' v] o IH]; simpl; [split; [discriminate | tauto]|].
  rewrite orb_true_iff, IH. destruct (String.eqb_spec k k'); split; intros H; auto.
  - destruct H as [H|H]; [discriminate | auto].
  - destruct H as [H|H]; [congruence | auto].
Qed.

Lemma get_attr_missing (k : string) (o : Attrs) :
  has_attr k o = false -> get_attr k o = VUndefined.
Proof.
  induction o as [|[k' v] o IH]; simpl; [reflexivity|].
  destruct (String.eqb k k'); simpl; [discriminate | exact IH].
Qed.

Lemma same_member_true (a b : Member) : same_member a b = true <-> a = b.
Proof.
  destruct a as [x|x], b as [y|y]; simpl.
  - rewrite strict_eq_true. split; congruence.
  - split; discriminate.
  - split; discriminate.
  - rewrite String.eqb_eq. split; congruence.
Qed.

Lemma isNew_differ (prev next : Attrs) (key : string) :
  isNew prev next key = true <-> member key prev <> member key next.
Proof.
  unfold isNew. rewrite negb_true_iff. split.
  - intros H E. apply same_member_true in E. congruence.
  - intros H. destruct (same_member _ _) eqn:E; [|reflexivity].
    apply same_member_true in E. contradiction.
Qed.

Lemma member_own (key : string) (o : Attrs) :
  has_attr key o = true -> member key o = Value (get_attr key o).
Proof. intros H. unfold member. rewrite H. reflexivity. Qed.

(** Under a name that [Object.prototype] does not have, a read gives the
    entry of the object itself, or [undefined]. *)
Lemma member_plain (key : string) (o : Attrs) :
  inherited key = false -> member key o = Value (get_attr key o).
Proof.
  intros H. unfold member. rewrite H.
  destruct (has_attr key o) eqn:E; [reflexivity|].
  rewrite (get_attr_missing _ _ E). reflexivity.
Qed.

(** No member of [Object.prototype] has a name that starts with [on]. *)
Lemma event_not_inherited (key : string) : isEvent key = true -> inherited key = false.
Proof.
  intros H. destruct (inherited key) eqn:E; [|reflexivity].
  unfold inherited in E. apply existsb_exists in E as (x & Hin & Hx).
  apply String.eqb_eq in Hx. subst x.
  simpl in Hin.
  repeat (destruct Hin as [<-|Hin]; [discriminate H|]).
  contradiction.
Qed.

Lemma isNew_event (prev next : Attrs) (key : string) :
  isEvent key = true ->
  (isNew prev next key = true <-> get_attr key prev <> get_attr key next).
Proof.
  intros H. apply event_not_inherited in H.
  rewrite isNew_differ, !(member_plain _ _ H). split.
  - intros Hne E. apply Hne. rewrite E. reflexivity.
  - intros Hne E. injection E as E. contradiction.
Qed.

(** X7. [updateDom] makes no host call at all when [prev] and [next] name
    the same attributes and give every one of them values that are [===].
    (For one and the same props object this holds unless one of its values
    is not [===] to itself.) *)
Theorem updateDom_same_props_is_silent (dom : Handle) (prev next : Attrs) (s : State) :
  (forall name, has_attr name prev = has_attr name next) ->
  (forall name, has_attr name next = true ->
                strict_eq (get_attr name prev) (get_attr name next) = true) ->
  updateDom dom prev next s = Ok tt s.
Proof.
  intros Hkeys Hsame.
  assert (Hold : forall y, has_attr y next = true -> isNew prev next y = false).
  { intros y Hy. unfold isNew.
    rewrite (member_own y next Hy), (member_own y prev) by (rewrite Hkeys; exact Hy).
    simpl. rewrite (Hsame y Hy). reflexivity. }
  rewrite updateDom_run.
  rewrite (filter_none _ (List.filter isEvent (keys prev))).
  2:{ intros y Hy. apply filter_In in Hy as [Hy _]. apply has_attr_keys in Hy.
      rewrite Hkeys in Hy. unfold has_member. rewrite Hy, (Hold y Hy). reflexivity. }
  rewrite (filter_none (isGone next)).
  2:{ intros y Hy. apply filter_In in Hy as [Hy _]. apply has_attr_keys in Hy.
      rewrite Hkeys in Hy. unfold isGone, has_member. rewrite Hy. reflexivity. }
  rewrite !(filter_none (isNew prev next))
    by (intros y Hy; apply filter_In in Hy as [Hy _]; apply has_attr_keys in Hy;
        exact (Hold y Hy)).
  simpl. rewrite set_hostLog_same. reflexivity.
Qed.

Lemma updateDom_same_props_is_silent_witness :
  updateDom 1%nat [("id", VStr "a"); ("onClick", VFun 1)]
                  [("onClick", VFun 1); ("id", VStr "a")] initial_state
  = Ok tt initial_state.
Proof.
  apply (updateDom_same_props_is_silent 1%nat
           [("id", VStr "a"); ("onClick", VFun 1)]
           [("onClick", VFun 1); ("id", VStr "a")] initial_state).
  - intros name. simpl.
    destruct (String.eqb name "id"), (String.eqb name "onClick"); reflexivity.
  - intros name. simpl.
    destruct (String.eqb_spec name "id") as [->|_]; [reflexivity|].
    destruct (String.eqb name "onClick"); simpl; [reflexivity | discriminate].
Defined.

Lemma updateDom_calls (dom : Handle) (prev next : Attrs) (s : State) :
  exists calls,
    updateDom dom prev next s = Ok tt (set_hostLog (hostLog s ++ calls) s) /\
    Forall (update_of dom prev next) calls.
Proof.
  eexists. split; [apply updateDom_run|].
  repeat (apply Forall_app; split); apply List.Forall_forall; intros c Hc;
    apply in_map_iff in Hc as (name & <- & Hin);
    apply filter_In in Hin as [Hin Hf]; apply filter_In in Hin as [Hin Hp];
    apply has_attr_keys in Hin; simpl.
  - split; [reflexivity|]. exists name. repeat split; try assumption.
    apply orb_true_iff in Hf as [Hf|Hf].
    + left. apply negb_true_iff in Hf. unfold has_member in Hf.
      apply orb_false_iff in Hf as [Hf _]. exact Hf.
    + right. apply (isNew_event prev next name Hp), Hf.
  - split; [reflexivity|]. split; [exact Hp|]. right.
    unfold isGone in Hf. apply negb_true_iff in Hf. auto.
  - split; [reflexivity|]. split; [exact Hp|]. left.
    apply isNew_differ in Hf. auto.
  - split; [reflexivity|]. exists name.
    apply (isNew_event prev next name Hp) in Hf. auto 10.
Qed.

(** X9. Every host call of [updateDom dom prev next] is on [dom] and is
    for an attribute that differs between [prev] and [next]: a property is
    assigned its new value when [prev] and [next] give different things
    under its name (for a name of [Object.prototype] that [prev] does not
    have itself, [prev] gives the inherited member), or [''] when [next]
    has the name in no way; a listener is removed with the old handler and
    added with the new one.  It never creates, appends or removes a node,
    and never assigns [children] or an [on...] attribute as a property. *)
Theorem updateDom_touches_only_what_changed (dom : Handle) (prev next : Attrs) (s : State) :
  exists calls,
    updateDom dom prev next s = Ok tt (set_hostLog (hostLog s ++ calls) s) /\
    Forall (update_of dom prev next) calls.
Proof. apply updateDom_calls. Qed.

Lemma dom_prop_app (l1 l2 : list HostCall) (h : Handle) (name : string) : forall before,
  dom_prop (l1 ++ l2) h name before = dom_prop l2 h name (dom_prop l1 h name before).
Proof.
  induction l1 as [|c l1 IH]; intros before; simpl; [reflexivity|].
  destruct c; apply IH.
Qed.

Lemma dom_prop_listeners {A} (g : A -> HostCall) (l : list A) (h : Handle) (name : string) :
  (forall x, match g x with SetProperty _ _ _ => False | _ => True end) ->
  forall before, dom_prop (map g l) h name before = before.
Proof.
  intros Hg. induction l as [|x l IH]; intros before; simpl; [reflexivity|].
  specialize (Hg x). destruct (g x); try contradiction; apply IH.
Qed.

Lemma dom_prop_assignments (f : string -> Val) (l : list string) (h : Handle) (name : string) :
  forall before,
    dom_prop (map (fun n => SetProperty h n (f n)) l) h name before
    = if existsb (String.eqb name) l then f name else before.
Proof.
  induction l as [|n l IH]; intros before; simpl; [reflexivity|].
  rewrite IH, Nat.eqb_refl. simpl.
  destruct (String.eqb_spec name n) as [->|Hne]; simpl.
  - destruct (existsb _ l); reflexivity.
  - reflexivity.
Qed.

Lemma existsb_eqb_In (name : string) (l : list string) :
  existsb (String.eqb name) l = true <-> In name l.
Proof.
  rewrite existsb_exists. split.
  - intros (x & Hin & E). apply String.eqb_eq in E. congruence.
  - intros Hin. exists name. split; [exact Hin | apply String.eqb_refl].
Qed.

Lemma updateDom_sync (dom : Handle) (prev next : Attrs) (s : State) :
  (forall name, has_attr name next = true -> has_attr name prev = false ->
                inherited name = false -> get_attr name next <> VUndefined) ->
  (forall name, isProperty name = true -> has_attr name prev = true ->
                dom_prop (hostLog s) dom name VUndefined = get_attr name prev) ->
  exists s',
    updateDom dom prev next s = Ok tt s' /\
    (forall name, isProperty name = true -> has_attr name next = true ->
                  dom_prop (hostLog s') dom name VUndefined = get_attr name next) /\
    (forall name, isProperty name = true -> has_attr name prev = true ->
                  has_attr name next = false ->
                  dom_prop (hostLog s') dom name VUndefined
                  = if inherited name then get_attr name prev else VStr "").
Proof.
  intros Hdef Hsync. eexists. split; [apply updateDom_run|].
  cbn [hostLog set_hostLog].
  split; intros name Hprop Hin; [|intros Hgone];
    rewrite !dom_prop_app;
    rewrite (dom_prop_listeners (fun n => RemoveEventListener dom (eventTypeOf n) (get_attr n prev)))
      by (intros; exact I);
    rewrite (dom_prop_listeners (fun n => AddEventListener dom (eventTypeOf n) (get_attr n next)))
      by (intros; exact I);
    rewrite (dom_prop_assignments (fun _ => VStr ""));
    rewrite (dom_prop_assignments (fun n => get_attr n next)).
  - destruct (existsb (String.eqb name)
                (List.filter (isNew prev next) (List.filter isProperty (keys next)))) eqn:E3;
      [reflexivity|].
    assert (Hsame : member name prev = Value (get_attr name next)).
    { destruct (isNew prev next name) eqn:En.
      - exfalso. apply not_true_iff_false in E3. apply E3, existsb_eqb_In.
        apply filter_In. split; [|exact En].
        apply filter_In. split; [apply has_attr_keys, Hin | exact Hprop].
      - unfold isNew in En. apply negb_false_iff, same_member_true in En.
        rewrite En. apply member_own, Hin. }
    destruct (existsb (String.eqb name)
                (List.filter (isGone next) (List.filter isProperty (keys prev)))) eqn:E2.
    { exfalso. apply existsb_eqb_In, filter_In in E2 as [_ Hg].
      unfold isGone, has_member in Hg. rewrite Hin in Hg. discriminate. }
    unfold member in Hsame. destruct (has_attr name prev) eqn:Hp.
    + rewrite Hsync by assumption. congruence.
    + destruct (inherited name) eqn:Hi; [discriminate Hsame|].
      exfalso. apply (Hdef name Hin Hp Hi). congruence.
  - destruct (existsb (String.eqb name)
                (List.filter (isNew prev next) (List.filter isProperty (keys next)))) eqn:E3.
    { exfalso. apply existsb_eqb_In, filter_In in E3 as [E3 _].
      apply filter_In in E3 as [E3 _]. apply has_attr_keys in E3. congruence. }
    destruct (existsb (String.eqb name)
                (List.filter (isGone next) (List.filter isProperty (keys prev)))) eqn:E2.
    + apply existsb_eqb_In, filter_In in E2 as [_ Hg].
      unfold isGone, has_member in Hg. rewrite Hgone in Hg. simpl in Hg.
      apply negb_true_iff in Hg. rewrite Hg. reflexivity.
    + destruct (inherited name) eqn:Hi; [apply Hsync; assumption|].
      exfalso. apply not_true_iff_false in E2. apply E2, existsb_eqb_In.
      apply filter_In. split.
      * apply filter_In. split; [apply has_attr_keys, Hin | exact Hprop].
      * unfold isGone, has_member. rewrite Hgone, Hi. reflexivity.
Qed.

(** X8. [updateDom] keeps the properties of the node in step with the
    attributes: if, before the call, every property named in [prev] has on
    the node the value [prev] gives it, then afterwards every property
    named in [next] has the value [next] gives it, and a property that
    [next] no longer names is [''], unless its name is the name of a
    member of [Object.prototype]: [next] still has such a name ([in]), and
    the property is left as it was.  (An attribute that is new in [next]
    under a name that is not inherited must not be [undefined]: its
    property would not be assigned.) *)
Theorem updateDom_keeps_properties_in_sync (dom : Handle) (prev next : Attrs) (s : State) :
  (forall name, has_attr name next = true -> has_attr name prev = false ->
                inherited name = false -> get_attr name next <> VUndefined) ->
  (forall name, isProperty name = true -> has_attr name prev = true ->
                dom_prop (hostLog s) dom name VUndefined = get_attr name prev) ->
  exists s',
    updateDom dom prev next s = Ok tt s' /\
    (forall name, isProperty name = true -> has_attr name next = true ->
                  dom_prop (hostLog s') dom name VUndefined = get_attr name next) /\
    (forall name, isProperty name = true -> has_attr name prev = true ->
                  has_attr name next = false ->
                  dom_prop (hostLog s') dom name VUndefined
                  = if inherited name then get_attr name prev else VStr "").
Proof. apply updateDom_sync. Qed.

Lemma updateDom_keeps_properties_in_sync_witness :
  exists s',
    updateDom 1%nat [("title", VStr "a"); ("id", VStr "x"); ("constructor", VStr "k")]
                    [("title", VStr "b"); ("className", VStr "c")]
      (set_hostLog [SetProperty 1%nat "title" (VStr "a"); SetProperty 1%nat "id" (VStr "x");
                    SetProperty 1%nat "constructor" (VStr "k")]
         initial_state) = Ok tt s' /\
    dom_prop (hostLog s') 1%nat "title" VUndefined = VStr "b" /\
    dom_prop (hostLog s') 1%nat "className" VUndefined = VStr "c" /\
    dom_prop (hostLog s') 1%nat "id" VUndefined = VStr "" /\
    dom_prop (hostLog s') 1%nat "constructor" VUndefined = VStr "k".
Proof.
  destruct (updateDom_keeps_properties_in_sync 1%nat
              [("title", VStr "a"); ("id", VStr "x"); ("constructor", VStr "k")]
              [("title", VStr "b"); ("className", VStr "c")]
              (set_hostLog [SetProperty 1%nat "title" (VStr "a");
                            SetProperty 1%nat "id" (VStr "x");
                            SetProperty 1%nat "constructor" (VStr "k")] initial_state))
    as (s' & H & Hnext & Hgone).
  { intros name. simpl.
    destruct (String.eqb name "title"); [discriminate|].
    destruct (String.eqb name "className"); simpl; [discriminate|]. discriminate. }
  { intros name _. simpl.
    destruct (String.eqb_spec name "title") as [->|Ht]; [reflexivity|].
    destruct (String.eqb_spec name "id") as [->|Hi]; [reflexivity|].
    destruct (String.eqb_spec name "constructor") as [->|Hc]; [reflexivity|]. discriminate. }
  exists s'. split; [exact H|].
  split; [apply (Hnext "title"); reflexivity|].
  split; [apply (Hnext "className"); reflexivity|].
  split; [apply (Hgone "id"); reflexivity|].
  apply (Hgone "constructor"); reflexivity.
Defined.

Lemma createDom_run (fiber : Fiber) (tag : string) (s : State) :
  type fiber = Some (Host tag) ->
  createDom fiber s
  = (let* dom := fresh_handle in
     host (creation tag dom);;
     updateDom dom [] (attrs (props fiber));;
     ret dom) s.
Proof.
  intros Ht. unfold createDom. rewrite Ht. unfold creation.
  unfold bind at 1. unfold bind at 3. unfold fresh_handle.
  generalize (nextHandle s) (set_nextHandle (S (nextHandle s)) s).
  intros h s1. 
  assert (E : (match tag with
               | "TEXT_ELEMENT" => host (CreateTextNode "" h)
               | _ => host (CreateElement tag h)
               end)
              = host (if String.eqb tag "TEXT_ELEMENT"
                      then CreateTextNode "" h else CreateElement tag h)).
  { clear.
    repeat (match goal with
            | |- context [match ?t with EmptyString => _ | String _ _ => _ end] =>
                is_var t; destruct t as [|[[] [] [] [] [] [] [] []] ?]
            end; try reflexivity; cbv beta iota). }
  rewrite E. reflexivity.
Qed.

Lemma createDom_calls (fiber : Fiber) (tag : string) (s : State) :
  type fiber = Some (Host tag) ->
  exists calls,
    createDom fiber s
    = Ok (nextHandle s)
         (set_hostLog (hostLog s ++ creation tag (nextHandle s) :: calls)
            (set_nextHandle (S (nextHandle s)) s)) /\
    Forall (update_of (nextHandle s) [] (attrs (props fiber))) calls /\
    updateDom (nextHandle s) [] (attrs (props fiber))
      (set_hostLog (hostLog s ++ [creation tag (nextHandle s)])
         (set_nextHandle (S (nextHandle s)) s))
    = Ok tt (set_hostLog (hostLog s ++ creation tag (nextHandle s) :: calls)
               (set_nextHandle (S (nextHandle s)) s)).
Proof.
  intros Ht.
  set (s1 := set_hostLog (hostLog s ++ [creation tag (nextHandle s)])
               (set_nextHandle (S (nextHandle s)) s)).
  destruct (updateDom_calls (nextHandle s) [] (attrs (props fiber)) s1)
    as (calls & Hrun & Hcalls).
  exists calls.
  assert (E : set_hostLog (hostLog s1 ++ calls) s1
              = set_hostLog (hostLog s ++ creation tag (nextHandle s) :: calls)
                  (set_nextHandle (S (nextHandle s)) s)).
  { subst s1. cbn [hostLog set_hostLog set_nextHandle]. rewrite <- app_assoc. reflexivity. }
  rewrite <- E. split; [|split; [exact Hcalls | exact Hrun]].
  rewrite (createDom_run fiber tag s Ht).
  unfold bind at 1. unfold fresh_handle. unfold bind at 1. unfold host at 1, modify.
  cbn [hostLog set_nextHandle]. fold s1.
  unfold bind. rewrite Hrun. reflexivity.
Qed.

(** X10. [createDom] of a host fiber makes one new node, a text node for
    ['TEXT_ELEMENT'] and an element of the fiber's tag otherwise, and then
    only assigns properties and adds listeners on that node: for every
    property the fiber's attributes name (none of them [undefined]) the
    node has the value they give. *)
Theorem createDom_makes_a_fresh_node (fiber : Fiber) (tag : string) (s : State) :
  type fiber = Some (Host tag) ->
  (forall name, has_attr name (attrs (props fiber)) = true ->
                get_attr name (attrs (props fiber)) <> VUndefined) ->
  exists calls,
    let dom := nextHandle s in
    let s' := set_hostLog (hostLog s ++ creation tag dom :: calls)
                (set_nextHandle (S dom) s) in
    createDom fiber s = Ok dom s' /\
    Forall (update_of dom [] (attrs (props fiber))) calls /\
    forall name, isProperty name = true -> has_attr name (attrs (props fiber)) = true ->
                 dom_prop (hostLog s') dom name VUndefined
                 = get_attr name (attrs (props fiber)).
Proof.
  intros Ht Hdef.
  destruct (createDom_calls fiber tag s Ht) as (calls & Hrun & Hcalls & Hupd).
  destruct (updateDom_sync (nextHandle s) [] (attrs (props fiber))
              (set_hostLog (hostLog s ++ [creation tag (nextHandle s)])
                 (set_nextHandle (S (nextHandle s)) s)))
    as (s2 & Hrun2 & Hsync & _).
  { intros name Hin _ _. apply Hdef, Hin. }
  { intros name _ Hin. discriminate Hin. }
  exists calls. cbv zeta. split; [exact Hrun|]. split; [exact Hcalls|].
  rewrite Hupd in Hrun2. injection Hrun2 as <-. exact Hsync.
Qed.

Lemma createDom_makes_a_fresh_node_witness :
  exists s',
    createDom (mkFiber (Some (Host "a")) (mkProps [("href", VStr "x")] []) None None None
                       None None (Some PLACEMENT) None) initial_state = Ok 1%nat s' /\
    hostLog s' = [CreateElement "a" 1%nat; SetProperty 1%nat "href" (VStr "x")] /\
    dom_prop (hostLog s') 1%nat "href" VUndefined = VStr "x".
Proof.
  destruct (createDom_makes_a_fresh_node
              (mkFiber (Some (Host "a")) (mkProps [("href", VStr "x")] []) None None None
                       None None (Some PLACEMENT) None) "a" initial_state)
    as (calls & H & _ & Hsync).
  { reflexivity. }
  { intros name. simpl. destruct (String.eqb name "href"); discriminate. }
  eexists. split; [exact H|].
  split; [|apply (Hsync "href"); reflexivity].
  vm_compute in H. injection H as <-. reflexivity.
Defined.

(** ** Reconciling the children of a first render *)

(** One round of the loop for an element without an old fiber: its fiber
    is allocated and linked to [la], the parent at index 0 and the
    previous sibling later. *)
Lemma reconcileLoop_place (fuel : nat) (w : Addr) (elements : list (option Element))
    (index : nat) (e : Element) (prev : option Addr) (la : Addr) (lf : Fiber) (s : State) :
  elements !! index = Some (Some e) ->
  (if (index =? 0)%nat then la = w else prev = Some la) ->
  fibers s !! la = Some lf ->
  let a := length (fibers s) in
  let new := mkFiber (Some (el_type e)) (el_props e) None (Some w) None None None
                     (Some PLACEMENT) None in
  reconcileLoop (S fuel) w elements index None prev s
  = reconcileLoop fuel w elements (S index) None (Some a)
      (set_fibers (<[la := (if (index =? 0)%nat then set_child else set_sibling) (Some a) lf]>
                     (fibers s) ++ [new]) s).
Proof.
  intros He Hla Hlf a new.
  assert (Hlt : (index < length elements)%nat) by (eapply lookup_lt_Some; eassumption).
  assert (Hla_lt : (la < length (fibers s))%nat) by (eapply lookup_lt_Some; eassumption).
  simpl reconcileLoop. rewrite He.
  apply Nat.ltb_lt in Hlt. rewrite Hlt.
  change (mjoin (Some (Some e))) with (Some e).
  change (negb true && true) with false. cbv iota.
  unfold readFiberOpt. run_monad.
  change (sameType None (Some e)) with false.
  change (negb false) with true. cbv iota.
  unfold newFiber at 1. run_monad.
  assert (Hw : (fibers s ++ [new]) !! la = Some lf).
  { rewrite lookup_app_l by exact Hla_lt. exact Hlf. }
  destruct (index =? 0)%nat eqn:E0.
  - subst la. unfold writeFiber. cbn [fibers set_fibers]. fold new. rewrite Hw.
    rewrite insert_app_l by exact Hla_lt. reflexivity.
  - rewrite Hla. unfold writeFiber. cbn [fibers set_fibers]. fold new. rewrite Hw.
    rewrite insert_app_l by exact Hla_lt. reflexivity.
Qed.

Lemma reconcileLoop_mount (w : Addr) (elements : list (option Element)) :
  forall (es : list Element) (index : nat) (prev : option Addr) (la : Addr) (lf : Fiber)
         (fuel : nat) (s : State),
    (forall j e, es !! j = Some e -> elements !! (index + j)%nat = Some (Some e)) ->
    es <> [] ->
    (if (index =? 0)%nat then la = w else prev = Some la) ->
    fibers s !! la = Some lf ->
    let a := length (fibers s) in
    reconcileLoop (length es + fuel) w elements index None prev s
    = reconcileLoop fuel w elements (index + length es)%nat None
        (Some (a + length es - 1)%nat)
        (set_fibers (<[la := (if (index =? 0)%nat then set_child else set_sibling) (Some a) lf]>
                       (fibers s) ++ placed w a es) s).
Proof.
  induction es as [|e es IH]; intros index prev la lf fuel s Hel Hne Hla Hlf a;
    [congruence|].
  assert (Hla_lt : (la < length (fibers s))%nat) by (eapply lookup_lt_Some; eassumption).
  simpl length. simpl Nat.add.
  rewrite (reconcileLoop_place _ w elements index e prev la lf s); try assumption.
  2:{ specialize (Hel 0%nat e eq_refl). rewrite Nat.add_0_r in Hel. exact Hel. }
  fold a.
  destruct es as [|e' es'].
  { simpl. replace (index + 1)%nat with (S index) by lia.
    replace (a + 1 - 1)%nat with a by lia. reflexivity. }
  set (new := mkFiber (Some (el_type e)) (el_props e) None (Some w) None None None
                      (Some PLACEMENT) None).
  set (heap1 := <[la := (if (index =? 0)%nat then set_child else set_sibling) (Some a) lf]>
                  (fibers s) ++ [new]).
  assert (Hlen1 : length heap1 = S a).
  { subst heap1. rewrite length_app, length_insert. simpl. lia. }
  assert (Hheap : <[a := set_sibling (Some (S a)) new]> heap1 ++ placed w (S a) (e' :: es')
                  = <[la := (if (index =? 0)%nat then set_child else set_sibling) (Some a) lf]>
                      (fibers s) ++ placed w a (e :: e' :: es')).
  { subst heap1.
    rewrite insert_app_r_alt by (rewrite length_insert; lia).
    rewrite length_insert. replace (a - length (fibers s))%nat with 0%nat by lia.
    simpl. rewrite <- app_assoc. reflexivity. }
  rewrite (IH (S index) (Some a) a new fuel (set_fibers heap1 s)).
  - cbn [fibers set_fibers]. rewrite Hlen1.
    change (S index =? 0)%nat with false. cbv iota. rewrite Hheap.
    replace (S index + length (e' :: es'))%nat with (index + S (length (e' :: es')))%nat by lia.
    replace (S a + length (e' :: es') - 1)%nat with (a + S (length (e' :: es')) - 1)%nat by lia.
    reflexivity.
  - intros j x Hx. replace (S index + j)%nat with (index + S j)%nat by lia.
    apply Hel. exact Hx.
  - discriminate.
  - reflexivity.
  - cbn [fibers set_fibers]. subst heap1.
    rewrite lookup_app_r by (rewrite length_insert; lia).
    rewrite length_insert. replace (a - length (fibers s))%nat with 0%nat by lia.
    reflexivity.
Qed.

Lemma lookup_map_Some (es : list Element) (front back : list (option Element))
    (j : nat) (e : Element) :
  es !! j = Some e ->
  (front ++ map Some es ++ back) !! (length front + j)%nat = Some (Some e).
Proof.
  intros H. rewrite lookup_app_r by lia.
  replace (length front + j - length front)%nat with j by lia.
  rewrite lookup_app_l by (rewrite length_map; eapply lookup_lt_Some; eassumption).
  change (map Some es) with (Some <$> es). rewrite list_lookup_fmap, H. reflexivity.
Qed.

(** The first fiber looked at by [reconcileChildren]. *)
Lemma reconcileChildren_first (fuel : nat) (w : Addr) (wf : Fiber)
    (elements : list (option Element)) (s : State) :
  fibers s !! w = Some wf ->
  alternate wf = None ->
  reconcileChildren fuel w elements s = reconcileLoop fuel w elements 0 None None s.
Proof.
  intros Hw Halt. unfold reconcileChildren, bind at 1, readFiber. rewrite Hw, Halt.
  reflexivity.
Qed.

(** X11. On a first render (the fiber has no alternate)
    [reconcileChildren] makes one fiber for each child element, in order:
    the fiber has the type and the props of its element, no node and no
    alternate, is tagged [PLACEMENT], has the parent fiber as [parent] and
    the fiber of the next element as [sibling]; the parent's [child]
    becomes the first of them.  Nothing else changes. *)
Theorem reconcileChildren_mounts_children (fuel : nat) (w : Addr) (wf : Fiber)
    (es : list Element) (s : State) :
  fibers s !! w = Some wf ->
  alternate wf = None ->
  es <> [] ->
  (length es <= fuel)%nat ->
  reconcileChildren fuel w (map Some es) s
  = Ok tt (set_fibers (<[w := set_child (Some (length (fibers s))) wf]> (fibers s)
                       ++ placed w (length (fibers s)) es) s).
Proof.
  intros Hw Halt Hne Hfuel.
  rewrite (reconcileChildren_first fuel w wf) by assumption.
  replace fuel with (length es + (fuel - length es))%nat by lia.
  rewrite (reconcileLoop_mount w (map Some es) es 0 None w wf); try assumption; try reflexivity.
  - simpl Nat.eqb. cbv iota. apply reconcileLoop_done. rewrite length_map. simpl. lia.
  - intros j e Hj. pose proof (lookup_map_Some es [] [] j e Hj) as H.
    simpl in H. rewrite app_nil_r in H. exact H.
Qed.

Lemma reconcileChildren_mounts_children_witness :
  reconcileChildren 2 0%nat [Some (li "A"); Some (li "B")]
    (set_fibers [rootFiber (Some 0%nat) (mkProps [] []) None] initial_state)
  = Ok tt (set_fibers
             [mkFiber None (mkProps [] []) (Some 0%nat) None (Some 1%nat) None None None None;
              mkFiber (Some (Host "li")) (mkProps [("id", VStr "A")] []) None (Some 0%nat)
                      None (Some 2%nat) None (Some PLACEMENT) None;
              mkFiber (Some (Host "li")) (mkProps [("id", VStr "B")] []) None (Some 0%nat)
                      None None None (Some PLACEMENT) None] initial_state).
Proof.
  apply (reconcileChildren_mounts_children 2 0%nat
           (rootFiber (Some 0%nat) (mkProps [] []) None) [li "A"; li "B"]
           (set_fibers [rootFiber (Some 0%nat) (mkProps [] []) None] initial_state)).
  - reflexivity.
  - reflexivity.
  - discriminate.
  - simpl. lia.
Defined.

(** X12. A [null] child that is followed by another child makes
    [reconcileChildren] throw on a first render: the loop leaves
    [prevSibling] at [null] after the [null] child and then assigns
    [prevSibling.sibling].  The fibers of the children before it, and the
    fiber of the child after it, have been allocated by then. *)
Theorem null_child_before_a_sibling_throws (fuel : nat) (w : Addr) (wf : Fiber)
    (es : list Element) (e : Element) (rest : list (option Element)) (s : State) :
  fibers s !! w = Some wf ->
  alternate wf = None ->
  (length es + 2 <= fuel)%nat ->
  exists s',
    reconcileChildren fuel w (map Some es ++ None :: Some e :: rest) s
    = Fail (TypeError "prevSibling is null") s' /\
    length (fibers s') = S (length (fibers s) + length es) /\
    deletions s' = deletions s /\ hostLog s' = hostLog s.
Proof.
  intros Hw Halt Hfuel.
  rewrite (reconcileChildren_first fuel w wf) by assumption.
  assert (Hk : exists k, fuel = (length es + (2 + k))%nat) by (exists (fuel - length es - 2)%nat; lia).
  destruct Hk as (k & ->). clear Hfuel.
  set (elements := map Some es ++ None :: Some e :: rest).
  assert (Hnull : elements !! length es = Some None).
  { subst elements. rewrite lookup_app_r by (rewrite length_map; lia).
    rewrite length_map, Nat.sub_diag. reflexivity. }
  assert (Hnext : elements !! S (length es) = Some (Some e)).
  { subst elements. rewrite lookup_app_r by (rewrite length_map; lia).
    rewrite length_map. replace (S (length es) - length es)%nat with 1%nat by lia.
    reflexivity. }
  assert (Hlen : (S (length es) < length elements)%nat)
    by (eapply lookup_lt_Some; eassumption).
  assert (Hstep : forall s1 prev,
            (exists wf1, fibers s1 !! w = Some wf1) ->
            exists s2,
              reconcileLoop (2 + k) w elements (length es) None prev s1
              = Fail (TypeError "prevSibling is null") s2 /\
              length (fibers s2) = S (length (fibers s1)) /\
              deletions s2 = deletions s1 /\ hostLog s2 = hostLog s1).
  { intros s1 prev (wf1 & Hw1). simpl Nat.add. simpl reconcileLoop.
    assert (E1 : (length es <? length elements)%nat = true) by (apply Nat.ltb_lt; lia).
    assert (E2 : (S (length es) <? length elements)%nat = true) by (apply Nat.ltb_lt; lia).
    rewrite E1, E2, Hnull, Hnext.
    change (mjoin (Some None)) with (@None Element).
    change (mjoin (Some (Some e))) with (Some e).
    change (negb true && true) with false. cbv iota.
    unfold readFiberOpt. run_monad.
    change (sameType None None) with false.
    change (sameType None (Some e)) with false.
    change (negb false) with true. cbv iota.
    assert (Hsecond : forall s3,
              length (fibers s3) = length (fibers s1) ->
              deletions s3 = deletions s1 -> hostLog s3 = hostLog s1 ->
              exists s2,
                match newFiber (mkFiber (Some (el_type e)) (el_props e) None (Some w) None None
                                        None (Some PLACEMENT) None) s3 with
                | Ok a s' => @Fail unit (TypeError "prevSibling is null") s'
                | Fail e0 s' => Fail e0 s'
                | OutOfFuel => OutOfFuel
                end
                = Fail (TypeError "prevSibling is null") s2 /\
                length (fibers s2) = S (length (fibers s1)) /\
                deletions s2 = deletions s1 /\ hostLog s2 = hostLog s1).
    { intros s3 Hl Hd Hh. unfold newFiber.
      eexists. split; [reflexivity|].
      cbn [fibers deletions hostLog set_fibers]. rewrite length_app. simpl.
      split; [lia|]. auto. }
    destruct (length es =? 0)%nat.
    - unfold writeFiber. rewrite Hw1. apply Hsecond; cbn [fibers set_fibers deletions hostLog];
        [rewrite length_insert|..]; reflexivity.
    - apply Hsecond; reflexivity. }
  destruct es as [|e0 es0].
  { destruct (Hstep s None) as (s2 & H & Hl & Hd & Hh); [eauto|].
    simpl length in *. simpl Nat.add in *.
    exists s2. rewrite H. rewrite Nat.add_0_r. auto. }
  rewrite (reconcileLoop_mount w elements (e0 :: es0) 0 None w wf);
    try assumption; try reflexivity; try discriminate.
  2:{ intros j x Hj. pose proof (lookup_map_Some (e0 :: es0) [] (None :: Some e :: rest) j x Hj) as H.
      exact H. }
  change (0 + length (e0 :: es0))%nat with (length (e0 :: es0)).
  match goal with |- context [reconcileLoop _ w elements _ None ?p ?st] =>
    destruct (Hstep st p) as (s2 & H & Hl & Hd & Hh) end.
  { cbn [fibers set_fibers]. simpl Nat.eqb. cbv iota.
    assert (Hw_lt : (w < length (fibers s))%nat) by (eapply lookup_lt_Some; eassumption).
    eexists. rewrite lookup_app_l by (rewrite length_insert; exact Hw_lt).
    apply list_lookup_insert_eq. exact Hw_lt. }
  exists s2. rewrite H. split; [reflexivity|].
  cbn [fibers set_fibers deletions hostLog] in Hl, Hd, Hh.
  rewrite length_app, length_insert in Hl.
  assert (Hpl : forall es b, length (placed w b es) = length es).
  { clear. induction es as [|x es IH]; intros b; simpl; [reflexivity|]. rewrite IH. reflexivity. }
  rewrite Hpl in Hl. split; [lia|]. auto.
Qed.

Lemma null_child_before_a_sibling_throws_witness :
  exists s',
    reconcileChildren 2 0%nat [None; Some (li "B")]
      (set_fibers [rootFiber (Some 0%nat) (mkProps [] []) None] initial_state)
    = Fail (TypeError "prevSibling is null") s'.
Proof.
  destruct (null_child_before_a_sibling_throws 2 0%nat
              (rootFiber (Some 0%nat) (mkProps [] []) None) [] (li "B") []
              (set_fibers [rootFiber (Some 0%nat) (mkProps [] []) None] initial_state))
    as (s' & H & _).
  - reflexivity.
  - reflexivity.
  - simpl. lia.
  - exists s'. exact H.
Defined.

(** ** Reconciling the children of a later render *)

Lemma set_deletions_id (s : State) (d : option (list Addr)) :
  deletions s = d -> set_deletions d s = s.
Proof. intros <-. destruct s; reflexivity. Qed.

Lemma sameType_keeps (f : Fiber) (p : Slot) :
  type f = Some (old_type p) ->
  sameType (Some f) (Some (new_element p)) = keeps p.
Proof. intros H. unfold sameType, keeps. rewrite H. reflexivity. Qed.

Lemma insert_is_alter (heap : list Fiber) (a : Addr) (f : Fiber) (g : Fiber -> Fiber) :
  heap !! a = Some f -> <[a := g f]> heap = alter g a heap.
Proof.
  intros H. apply list_eq. intros i. destruct (Nat.eq_dec a i) as [->|Hne].
  - rewrite list_lookup_insert_eq by (eapply lookup_lt_Some; eassumption).
    rewrite list_lookup_alter_eq, H. reflexivity.
  - rewrite list_lookup_insert_ne, list_lookup_alter_ne by assumption. reflexivity.
Qed.

Lemma length_mark_deleted (ds : list Addr) : forall heap,
  length (mark_deleted ds heap) = length heap.
Proof.
  induction ds as [|a ds IH]; intros heap; simpl; [reflexivity|].
  unfold mark_deleted in IH. rewrite IH, length_alter. reflexivity.
Qed.

Lemma mark_deleted_app_l (ds : list Addr) : forall heap more,
  Forall (fun a => (a < length heap)%nat) ds ->
  mark_deleted ds (heap ++ more) = mark_deleted ds heap ++ more.
Proof.
  induction ds as [|a ds IH]; intros heap more Hall; simpl; [reflexivity|].
  inversion Hall as [|? ? Ha Hrest]; subst.
  rewrite alter_app_l by exact Ha. apply IH.
  rewrite length_alter. exact Hrest.
Qed.

Lemma mark_deleted_insert (ds : list Addr) (la : Addr) (x : Fiber) : forall heap,
  Forall (fun a => a <> la) ds ->
  mark_deleted ds (<[la := x]> heap) = <[la := x]> (mark_deleted ds heap).
Proof.
  induction ds as [|a ds IH]; intros heap Hall; simpl; [reflexivity|].
  inversion Hall as [|? ? Ha Hrest]; subst.
  rewrite <- (IH _ Hrest). f_equal.
  rewrite !list_insert_alter. apply list_alter_alter_ne. exact Ha.
Qed.

Lemma mark_deleted_lookup_other (ds : list Addr) (x : Addr) : forall heap,
  Forall (fun a => a <> x) ds -> mark_deleted ds heap !! x = heap !! x.
Proof.
  induction ds as [|a ds IH]; intros heap Hall; simpl; [reflexivity|].
  inversion Hall as [|? ? Ha Hrest]; subst.
  unfold mark_deleted in IH. rewrite IH by exact Hrest.
  apply list_lookup_alter_ne. exact Ha.
Qed.

Lemma old_slots_frame (heap heap' : list Fiber) (l : list Slot) :
  forall first,
    (forall a f, In a (map old_addr l) -> heap !! a = Some f ->
                 exists f', heap' !! a = Some f' /\ type f' = type f /\
                            dom f' = dom f /\ sibling f' = sibling f) ->
    old_slots heap first l -> old_slots heap' first l.
Proof.
  induction l as [|p l IH]; intros first Hsame; simpl; [tauto|].
  intros (-> & f & Hf & Ht & Hd & Hrest). split; [reflexivity|].
  destruct (Hsame (old_addr p) f (or_introl eq_refl) Hf) as (f' & Hf' & Ht' & Hd' & Hs').
  exists f'. split; [exact Hf'|]. split; [congruence|]. split; [congruence|].
  rewrite Hs'. apply IH; [|exact Hrest].
  intros a' g Hin Hg. apply Hsame; [right; exact Hin|exact Hg].
Qed.

Lemma old_slots_allocated (heap : list Fiber) (l : list Slot) :
  forall first, old_slots heap first l ->
                Forall (fun a => (a < length heap)%nat) (map old_addr l).
Proof.
  induction l as [|p l IH]; intros first; simpl; [constructor|].
  intros (_ & f & Hf & _ & _ & Hrest). constructor.
  - eapply lookup_lt_Some, Hf.
  - eapply IH, Hrest.
Qed.

Lemma replaced_cons (p : Slot) (l : list Slot) :
  replaced (p :: l) = replaced [p] ++ replaced l.
Proof. unfold replaced. simpl. destruct (keeps p); reflexivity. Qed.

Lemma replaced_subset (l : list Slot) (P : Addr -> Prop) :
  Forall P (map old_addr l) -> Forall P (replaced l).
Proof.
  unfold replaced. induction l as [|p l IH]; simpl; intros H; [constructor|].
  inversion H; subst. destruct (keeps p); simpl; auto.
Qed.

(** One round of the loop at a position that has an old fiber and an
    element. *)
Lemma reconcileLoop_slot (fuel : nat) (w : Addr) (elements : list (option Element))
    (index : nat) (p : Slot) (f : Fiber) (prev : option Addr) (la : Addr) (lf : Fiber)
    (ds : list Addr) (s : State) :
  elements !! index = Some (Some (new_element p)) ->
  fibers s !! old_addr p = Some f ->
  type f = Some (old_type p) -> dom f = old_dom p ->
  (if (index =? 0)%nat then la = w else prev = Some la) ->
  fibers s !! la = Some lf ->
  la <> old_addr p ->
  deletions s = Some ds ->
  let m := length (fibers s) in
  reconcileLoop (S fuel) w elements index (Some (old_addr p)) prev s
  = reconcileLoop fuel w elements (S index) (sibling f) (Some m)
      (set_deletions (Some (ds ++ replaced [p]))
         (set_fibers (<[la := (if (index =? 0)%nat then set_child else set_sibling) (Some m) lf]>
                        (mark_deleted (replaced [p]) (fibers s))
                      ++ [diff_fiber w p None]) s)).
Proof.
  intros He Hf Ht Hd Hla Hlf Hne Hds m.
  assert (Hlt : (index < length elements)%nat) by (eapply lookup_lt_Some; eassumption).
  assert (Ha_lt : (old_addr p < m)%nat) by (eapply lookup_lt_Some; eassumption).
  assert (Hla_lt : (la < m)%nat) by (eapply lookup_lt_Some; eassumption).
  simpl reconcileLoop. rewrite He.
  apply Nat.ltb_lt in Hlt. rewrite Hlt.
  change (mjoin (Some (Some (new_element p)))) with (Some (new_element p)).
  change (negb true && false) with false. cbv iota.
  unfold readFiber at 1. run_monad. rewrite Hf. cbv iota.
  rewrite (sameType_keeps f p Ht).
  unfold replaced, diff_fiber. simpl List.filter.
  destruct (keeps p) eqn:Ek;
    [change (negb true) with false | change (negb false) with true]; cbv iota.
  - unfold newFiber at 1. run_monad. rewrite Ht, Hd. simpl map. simpl mark_deleted.
    set (new := mkFiber (Some (old_type p)) (el_props (new_element p)) (old_dom p) (Some w)
                        None None (Some (old_addr p)) (Some UPDATE) None).
    unfold readFiber at 1. cbn [fibers set_fibers].
    rewrite (lookup_app_l_Some _ _ _ _ Hf). cbv iota.
    assert (Hw : (fibers s ++ [new]) !! la = Some lf) by (apply lookup_app_l_Some, Hlf).
    rewrite app_nil_r.
    destruct (index =? 0)%nat.
    + subst la. unfold writeFiber. cbn [fibers set_fibers]. rewrite Hw.
      rewrite insert_app_l by exact Hla_lt. rewrite set_deletions_id by exact Hds.
      reflexivity.
    + rewrite Hla. unfold writeFiber. cbn [fibers set_fibers]. rewrite Hw.
      rewrite insert_app_l by exact Hla_lt. rewrite set_deletions_id by exact Hds.
      reflexivity.
  - unfold newFiber at 1. run_monad. simpl map. simpl mark_deleted.
    set (new := mkFiber (Some (el_type (new_element p))) (el_props (new_element p)) None
                        (Some w) None None None (Some PLACEMENT) None).
    unfold writeFiber at 1. cbn [fibers set_fibers].
    rewrite (lookup_app_l_Some _ _ _ _ Hf). cbv iota.
    unfold pushDeletion. cbn [deletions set_fibers]. rewrite Hds.
    unfold readFiber at 1. cbn [fibers set_fibers set_deletions].
    rewrite list_lookup_insert_eq by (rewrite length_app; simpl; lia).
    cbn [sibling set_effectTag].
    assert (Hheap : <[old_addr p := set_effectTag (Some DELETION) f]> (fibers s ++ [new])
                    = alter (set_effectTag (Some DELETION)) (old_addr p) (fibers s) ++ [new]).
    { rewrite insert_app_l by exact Ha_lt. rewrite (insert_is_alter _ _ _ _ Hf). reflexivity. }
    rewrite Hheap.
    assert (Hw : (alter (set_effectTag (Some DELETION)) (old_addr p) (fibers s) ++ [new]) !! la
                 = Some lf).
    { rewrite lookup_app_l by (rewrite length_alter; exact Hla_lt).
      rewrite list_lookup_alter_ne by congruence. exact Hlf. }
    destruct (index =? 0)%nat.
    + subst la. unfold writeFiber. cbn [fibers set_fibers set_deletions]. rewrite Hw.
      rewrite insert_app_l by (rewrite length_alter; exact Hla_lt). reflexivity.
    + rewrite Hla. unfold writeFiber. cbn [fibers set_fibers set_deletions]. rewrite Hw.
      rewrite insert_app_l by (rewrite length_alter; exact Hla_lt). reflexivity.
Qed.

Lemma mark_deleted_keeps (ds : list Addr) (a : Addr) : forall heap g,
  heap !! a = Some g ->
  exists g', mark_deleted ds heap !! a = Some g' /\
             type g' = type g /\ dom g' = dom g /\ sibling g' = sibling g.
Proof.
  induction ds as [|d ds IH]; intros heap g Hg; simpl; [eauto|].
  destruct (Nat.eq_dec d a) as [->|Hne].
  - destruct (IH (alter (set_effectTag (Some DELETION)) a heap) (set_effectTag (Some DELETION) g))
      as (g' & H & Ht & Hd & Hs).
    { rewrite list_lookup_alter_eq, Hg. reflexivity. }
    exists g'. auto.
  - apply IH. rewrite list_lookup_alter_ne by exact Hne. exact Hg.
Qed.

Lemma diff_fiber_sibling (w : Addr) (p : Slot) (sib : option Addr) :
  set_sibling sib (diff_fiber w p None) = diff_fiber w p sib.
Proof. unfold diff_fiber. destruct (keeps p); reflexivity. Qed.

Lemma reconcileLoop_diff (w : Addr) (elements : list (option Element)) :
  forall (l : list Slot) (index : nat) (prev : option Addr) (la : Addr) (lf : Fiber)
         (fuel : nat) (s : State) (ds : list Addr) (first : option Addr),
    old_slots (fibers s) first l ->
    l <> [] ->
    (forall j p, l !! j = Some p ->
                 elements !! (index + j)%nat = Some (Some (new_element p))) ->
    (if (index =? 0)%nat then la = w else prev = Some la) ->
    fibers s !! la = Some lf ->
    Forall (fun a => a <> la) (map old_addr l) ->
    deletions s = Some ds ->
    let m := length (fibers s) in
    reconcileLoop (length l + fuel) w elements index first prev s
    = reconcileLoop fuel w elements (index + length l)%nat None
        (Some (m + length l - 1)%nat)
        (set_deletions (Some (ds ++ replaced l))
           (set_fibers
              (<[la := (if (index =? 0)%nat then set_child else set_sibling) (Some m) lf]>
                 (mark_deleted (replaced l) (fibers s)) ++ diffed w m l) s)).
Proof.
  induction l as [|p l IH];
    intros index prev la lf fuel s ds first Hchain Hne Hel Hla Hlf Hnla Hds m; [congruence|].
  simpl in Hchain. destruct Hchain as (-> & f & Hf & Ht & Hd & Hrest).
  assert (Hla_lt : (la < m)%nat) by (eapply lookup_lt_Some; eassumption).
  inversion Hnla as [|? ? Hpa Hnla']; subst.
  simpl length. simpl Nat.add.
  rewrite (reconcileLoop_slot _ w elements index p f prev la lf ds s); try assumption.
  2:{ specialize (Hel 0%nat p eq_refl). rewrite Nat.add_0_r in Hel. exact Hel. }
  2:{ congruence. }
  fold m.
  pose proof (old_slots_allocated _ _ _ Hrest) as Halloc.
  destruct l as [|p' l'].
  { simpl in Hrest. rewrite Hrest. simpl.
    replace (index + 1)%nat with (S index) by lia.
    replace (m + 1 - 1)%nat with m by lia. reflexivity. }
  set (X := (if (index =? 0)%nat then set_child else set_sibling) (Some m) lf).
  set (left1 := <[la := X]> (mark_deleted (replaced [p]) (fibers s))).
  assert (Hlen_left : length left1 = m).
  { subst left1. rewrite length_insert, length_mark_deleted. reflexivity. }
  set (s1 := set_deletions (Some (ds ++ replaced [p]))
               (set_fibers (left1 ++ [diff_fiber w p None]) s)).
  assert (Hlen1 : length (fibers s1) = S m).
  { subst s1. cbn [fibers set_fibers set_deletions]. rewrite length_app, Hlen_left.
    simpl. lia. }
  rewrite (IH (S index) (Some m) m (diff_fiber w p None) fuel s1 (ds ++ replaced [p])).
  - rewrite Hlen1. change (S index =? 0)%nat with false. cbv iota.
    replace (S index + length (p' :: l'))%nat with (index + S (length (p' :: l')))%nat by lia.
    replace (S m + length (p' :: l') - 1)%nat with (m + S (length (p' :: l')) - 1)%nat by lia.
    assert (Hheap : <[m := set_sibling (Some (S m)) (diff_fiber w p None)]>
                      (mark_deleted (replaced (p' :: l')) (fibers s1))
                    ++ diffed w (S m) (p' :: l')
                    = <[la := X]> (mark_deleted (replaced (p :: p' :: l')) (fibers s))
                      ++ diffed w m (p :: p' :: l')).
    { subst s1. cbn [fibers set_fibers set_deletions].
      rewrite mark_deleted_app_l.
      2:{ apply replaced_subset. rewrite Hlen_left. exact Halloc. }
      subst left1. rewrite mark_deleted_insert.
      2:{ apply replaced_subset. exact Hnla'. }
      rewrite insert_app_r_alt
        by (rewrite length_insert, !length_mark_deleted; fold m; lia).
      rewrite length_insert, !length_mark_deleted. fold m.
      replace (m - m)%nat with 0%nat by lia.
      rewrite (replaced_cons p (p' :: l')).
      unfold mark_deleted at 3. rewrite fold_left_app.
      fold (mark_deleted (replaced [p]) (fibers s)).
      fold (mark_deleted (replaced (p' :: l')) (mark_deleted (replaced [p]) (fibers s))).
      simpl insert. rewrite diff_fiber_sibling. rewrite <- app_assoc. reflexivity. }
    assert (Hds' : (ds ++ replaced [p]) ++ replaced (p' :: l')
                   = ds ++ replaced (p :: p' :: l')).
    { rewrite (replaced_cons p (p' :: l')), app_assoc. reflexivity. }
    rewrite Hheap, Hds'. reflexivity.
  - eapply old_slots_frame; [|exact Hrest].
    intros a g Hin Hg. subst s1 left1. cbn [fibers set_fibers set_deletions].
    assert (Ha_lt : (a < m)%nat) by (eapply lookup_lt_Some; eassumption).
    rewrite lookup_app_l by (rewrite length_insert, length_mark_deleted; exact Ha_lt).
    rewrite list_lookup_insert_ne.
    + apply mark_deleted_keeps. exact Hg.
    + rewrite List.Forall_forall in Hnla'. intros E. apply (Hnla' a Hin). congruence.
  - discriminate.
  - intros j q Hq. replace (S index + j)%nat with (index + S j)%nat by lia.
    apply Hel. exact Hq.
  - reflexivity.
  - subst s1. cbn [fibers set_fibers set_deletions].
    apply list_lookup_middle. symmetry. exact Hlen_left.
  - eapply Forall_impl; [exact Halloc|]. simpl. intros a Ha. lia.
  - reflexivity.
Qed.

(** X24. On a later render [reconcileChildren] compares the children with
    the old fibers position by position and by type only.  Where the old
    fiber has the type of the element, the new fiber is an update of it
    that keeps its node (its [alternate] is the old fiber, its tag
    [UPDATE]); where the types differ, the new fiber is to be placed
    ([PLACEMENT], no node, no alternate) and the old fiber is tagged
    [DELETION] and pushed on the deletion list, in the order of the
    positions.  The new fibers are chained as siblings under the parent;
    nothing else changes.  (Stated for as many children as there are old
    fibers, none of them [null].) *)
Theorem reconcileChildren_diffs_by_position (fuel : nat) (w alt : Addr) (wf af : Fiber)
    (l : list Slot) (ds : list Addr) (s : State) :
  fibers s !! w = Some wf ->
  alternate wf = Some alt ->
  fibers s !! alt = Some af ->
  old_slots (fibers s) (child af) l ->
  Forall (fun p => old_addr p <> w) l ->
  l <> [] ->
  deletions s = Some ds ->
  (length l <= fuel)%nat ->
  let n := length (fibers s) in
  reconcileChildren fuel w (map (fun p => Some (new_element p)) l) s
  = Ok tt (set_deletions (Some (ds ++ replaced l))
             (set_fibers (<[w := set_child (Some n) wf]>
                            (mark_deleted (replaced l) (fibers s)) ++ diffed w n l) s)).
Proof.
  intros Hw Halt Haf Hchain Hnw Hne Hds Hfuel n.
  unfold reconcileChildren, bind at 1, readFiber at 1. rewrite Hw, Halt.
  unfold bind at 1. unfold bind at 1, readFiber at 1. rewrite Haf. unfold ret at 1.
  cbv beta iota.
  assert (Hk : exists k, fuel = (length l + k)%nat) by (exists (fuel - length l)%nat; lia).
  destruct Hk as (k & ->).
  rewrite (reconcileLoop_diff w _ l 0 None w wf k s ds (child af));
    try assumption; try reflexivity.
  - apply reconcileLoop_done. rewrite length_map. simpl. lia.
  - intros j p Hj. simpl. rewrite list_lookup_fmap, Hj. reflexivity.
  - rewrite List.Forall_map. exact Hnw.
Qed.

Lemma reconcileChildren_diffs_by_position_witness :
  exists s',
    reconcileChildren 2 5%nat [Some (li "B"); Some (El (Host "span") [] [])] retyped_state
    = Ok tt s' /\
    deletions s' = Some [3%nat] /\
    tags (fibers s')
    = [None; Some PLACEMENT; Some PLACEMENT; Some DELETION; None; Some UPDATE;
       Some UPDATE; Some PLACEMENT].
Proof.
  eexists. split.
  - apply (reconcileChildren_diffs_by_position 2 5%nat 1%nat
             (mkFiber (Some (Host "ul"))
                      (mkProps [] [Some (li "B"); Some (El (Host "span") [] [])])
                      (Some 1%nat) (Some 4%nat) None None (Some 1%nat) (Some UPDATE) None)
             (mkFiber (Some (Host "ul"))
                      (mkProps [] [Some (li "A"); Some (El (Host "p") [] [])])
                      (Some 1%nat) (Some 0%nat) (Some 2%nat) None None (Some PLACEMENT) None)
             [mkSlot 2%nat (Host "li") (Some 2%nat) (li "B");
              mkSlot 3%nat (Host "p") (Some 3%nat) (El (Host "span") [] [])]
             [] retyped_state).
    all: try reflexivity.
    all: try discriminate.
    all: try (simpl; lia).
    all: simpl; eauto 20.
  - split; reflexivity.
Defined.

(** ** What the commit and the render phase leave alone *)

Lemma outcome_bind {A B} (R : State -> State -> Prop) (c : M A) (k : A -> M B) (s : State) :
  (forall s1 s2 s3, R s1 s2 -> R s2 s3 -> R s1 s3) ->
  outcome R s (c s) ->
  (forall a s1, R s s1 -> outcome R s1 (k a s1)) ->
  outcome R s (bind c k s).
Proof.
  intros Htrans Hc Hk. unfold bind. destruct (c s) as [a s1|e s1|]; simpl in *; auto.
  specialize (Hk a s1 Hc). destruct (k a s1); simpl in *; eauto.
Qed.

Lemma only_host_calls_refl (s : State) : only_host_calls s s.
Proof. exists []. symmetry. apply set_hostLog_same. Qed.

Lemma only_host_calls_trans (s1 s2 s3 : State) :
  only_host_calls s1 s2 -> only_host_calls s2 s3 -> only_host_calls s1 s3.
Proof.
  intros (c1 & ->) (c2 & ->). exists (c1 ++ c2).
  cbn [hostLog set_hostLog]. rewrite app_assoc. reflexivity.
Qed.

Lemma readFiber_outcome (R : State -> State -> Prop) (a : Addr) (s : State) :
  R s s -> outcome R s (readFiber a s).
Proof. intros H. unfold readFiber. destruct (fibers s !! a); exact H. Qed.

Lemma domParentOf_same (fuel : nat) : forall (a : option Addr) (s : State),
  outcome eq s (domParentOf fuel a s).
Proof.
  induction fuel as [|fuel IH]; intros a s; simpl; [exact I|].
  destruct a as [a|]; [|reflexivity].
  unfold bind, readFiber. destruct (fibers s !! a) as [f|]; [|reflexivity].
  destruct (dom f); [reflexivity | apply IH].
Qed.

Lemma commitDeletion_host (fuel : nat) : forall (a : option Addr) (p : Handle) (s : State),
  outcome only_host_calls s (commitDeletion fuel a p s).
Proof.
  induction fuel as [|fuel IH]; intros a p s; simpl; [exact I|].
  destruct a as [a|]; [|apply only_host_calls_refl].
  unfold bind, readFiber. destruct (fibers s !! a) as [f|]; [|apply only_host_calls_refl].
  destruct (dom f) as [d|]; [|apply IH].
  eexists. reflexivity.
Qed.

Lemma only_host_calls_fibers (s s' : State) :
  only_host_calls s s' -> fibers s' = fibers s.
Proof. intros (c & ->). reflexivity. Qed.

Lemma commitWork_host (fuel : nat) : forall (a : option Addr) (s : State),
  outcome only_host_calls s (commitWork fuel a s).
Proof.
  induction fuel as [|fuel IH]; intros a s; destruct a as [a|]; simpl;
    try exact I; try apply only_host_calls_refl.
  apply outcome_bind; [exact only_host_calls_trans | apply readFiber_outcome, only_host_calls_refl|].
  intros f s1 H1.
  apply outcome_bind; [exact only_host_calls_trans | |].
  { pose proof (domParentOf_same fuel (parent f) s1) as H.
    destruct (domParentOf fuel (parent f) s1); simpl in *; subst;
      try apply only_host_calls_refl; exact I. }
  intros p s2 H2.
  apply outcome_bind; [exact only_host_calls_trans | |].
  { destruct (effectTag f) as [[| |]|]; try apply only_host_calls_refl.
    - destruct (dom f); [eexists; reflexivity | apply only_host_calls_refl].
    - destruct (dom f) as [d|]; [|apply only_host_calls_refl].
      destruct (alternate f) as [alt|]; [|apply only_host_calls_refl].
      apply outcome_bind; [exact only_host_calls_trans | apply readFiber_outcome, only_host_calls_refl|].
      intros o s3 H3. rewrite updateDom_run. eexists. reflexivity.
    - apply commitDeletion_host. }
  intros _ s3 H3.
  apply outcome_bind; [exact only_host_calls_trans | apply readFiber_outcome, only_host_calls_refl|].
  intros f1 s4 H4.
  apply outcome_bind; [exact only_host_calls_trans | apply IH|].
  intros _ s5 H5.
  apply outcome_bind; [exact only_host_calls_trans | apply readFiber_outcome, only_host_calls_refl|].
  intros f2 s6 H6. apply IH.
Qed.

Lemma forEach_outcome {A} (R : State -> State -> Prop) (f : A -> M unit) (l : list A) :
  (forall s, R s s) ->
  (forall s1 s2 s3, R s1 s2 -> R s2 s3 -> R s1 s3) ->
  (forall x s, outcome R s (f x s)) ->
  forall s, outcome R s (forEach f l s).
Proof.
  intros Hrefl Htrans Hf. induction l as [|x l IH]; intros s; simpl; [apply Hrefl|].
  apply outcome_bind; auto.
Qed.

Lemma commitRoot_outcome (fuel : nat) (s : State) :
  match commitRoot fuel s with
  | Ok _ s' =>
      exists calls,
        s' = set_wipRoot None (set_currentRoot (wipRoot s)
               (set_hostLog (hostLog s ++ calls) s))
  | Fail _ s' => exists calls, s' = set_hostLog (hostLog s ++ calls) s
  | OutOfFuel => True
  end.
Proof.
  unfold commitRoot. unfold bind at 1. unfold get at 1.
  destruct (deletions s) as [l|]; [|exists []; symmetry; apply set_hostLog_same].
  pose proof (forEach_outcome only_host_calls (fun a => commitWork fuel (Some a)) l
                only_host_calls_refl only_host_calls_trans
                (fun x s0 => commitWork_host fuel (Some x) s0) s) as H1.
  unfold bind at 1.
  destruct (forEach (fun a => commitWork fuel (Some a)) l s) as [[] s1|e s1|];
    simpl in H1; [|exact H1|exact I].
  unfold bind at 1. unfold get at 1.
  assert (Hw : wipRoot s1 = wipRoot s) by (destruct H1 as (c & ->); reflexivity).
  destruct (wipRoot s1) as [r|]; [|rewrite <- Hw; exact H1].
  unfold bind at 1. unfold bind at 1. unfold readFiber.
  destruct (fibers s1 !! r) as [f|]; [|exact H1].
  pose proof (commitWork_host fuel (child f) s1) as H2.
  destruct (commitWork fuel (child f) s1) as [[] s2|e s2|]; simpl in H2; [| |exact I].
  - destruct (only_host_calls_trans _ _ _ H1 H2) as (c & ->).
    exists c. unfold bind, modify. rewrite Hw. reflexivity.
  - apply (only_host_calls_trans _ _ _ H1 H2).
Qed.

(** X15. [commitRoot] changes nothing but the document and the two
    roots: host calls are added, and on a normal return [currentRoot]
    becomes the root that was in progress and [wipRoot] becomes [null].
    It runs no effect and no cleanup (not for deleted fibers either),
    leaves fibers, hooks and the deletion list as they are, and when it
    throws part-way the host calls made so far stay while the roots are
    not switched. *)
Theorem commitRoot_changes_the_host_and_the_roots_only (fuel : nat) (s : State) :
  match commitRoot fuel s with
  | Ok _ s' =>
      exists calls,
        s' = set_wipRoot None (set_currentRoot (wipRoot s)
               (set_hostLog (hostLog s ++ calls) s))
  | Fail _ s' => exists calls, s' = set_hostLog (hostLog s ++ calls) s
  | OutOfFuel => True
  end.
Proof. apply commitRoot_outcome. Qed.

(** X16. When [workLoop] returns normally no render is left in progress:
    there is no next unit of work and no root in progress. *)
Theorem workLoop_returns_with_nothing_in_progress (fuel : nat) (env : Env) (s s' : State) :
  workLoop fuel env s = Ok tt s' ->
  nextUnitOfWork s' = None /\ wipRoot s' = None.
Proof.
  unfold workLoop. unfold bind at 1.
  destruct (workLoop_units fuel env s) as [[] s1|e s1|] eqn:E; try discriminate.
  apply workLoop_units_runs_to_completion in E.
  unfold bind at 1, get at 1. rewrite E. unfold bind at 1, get at 1.
  destruct (wipRoot s1) as [r|] eqn:Ew.
  - pose proof (commitRoot_outcome fuel s1) as H. intros Hc. rewrite Hc in H.
    destruct H as (calls & ->). split; [exact E | reflexivity].
  - unfold ret. intros [= <-]. auto.
Qed.

Lemma workLoop_returns_with_nothing_in_progress_witness :
  exists s',
    workLoop 10 (plain_env 1)
      (state_of_or initial_state (render (Some div_A) 0%nat initial_state)) = Ok tt s' /\
    nextUnitOfWork s' = None /\ wipRoot s' = None.
Proof.
  eexists. split; [vm_compute; reflexivity|].
  apply (workLoop_returns_with_nothing_in_progress 10 (plain_env 1)
           (state_of_or initial_state (render (Some div_A) 0%nat initial_state))).
  vm_compute. reflexivity.
Defined.

Lemma only_fibers_refl (s : State) : only_fibers s s.
Proof. exists (fibers s), (deletions s). destruct s; reflexivity. Qed.

Lemma only_fibers_trans (s1 s2 s3 : State) :
  only_fibers s1 s2 -> only_fibers s2 s3 -> only_fibers s1 s3.
Proof. intros (h1 & d1 & ->) (h2 & d2 & ->). exists h2, d2. reflexivity. Qed.

Lemma outcome_same {A} (R : State -> State -> Prop) (s : State) (r : Res A) :
  R s s -> outcome eq s r -> outcome R s r.
Proof. intros H Hr. destruct r; simpl in *; subst; auto. Qed.

Lemma writeFiber_only_fibers (a : Addr) (g : Fiber -> Fiber) (s : State) :
  outcome only_fibers s (writeFiber a g s).
Proof.
  unfold writeFiber. destruct (fibers s !! a) as [f|]; [|apply only_fibers_refl].
  exists (<[a := g f]> (fibers s)), (deletions s). destruct s; reflexivity.
Qed.

Lemma newFiber_only_fibers (f : Fiber) (s : State) : outcome only_fibers s (newFiber f s).
Proof. exists (fibers s ++ [f]), (deletions s). destruct s; reflexivity. Qed.

Lemma pushDeletion_only_fibers (a : Addr) (s : State) :
  outcome only_fibers s (pushDeletion a s).
Proof.
  unfold pushDeletion. destruct (deletions s) as [ds|] eqn:E; [|apply only_fibers_refl].
  exists (fibers s), (Some (ds ++ [a])). destruct s; reflexivity.
Qed.

Ltac only_fibers_step :=
  first
    [ apply only_fibers_refl
    | apply newFiber_only_fibers
    | apply writeFiber_only_fibers
    | apply pushDeletion_only_fibers
    | apply readFiber_outcome, only_fibers_refl
    | apply outcome_bind; [exact only_fibers_trans | | intros ? ? _] ].

Lemma reconcileLoop_only_fibers (fuel : nat) :
  forall (w : Addr) (elements : list (option Element)) (index : nat)
         (oldFiber prev : option Addr) (s : State),
    outcome only_fibers s (reconcileLoop fuel w elements index oldFiber prev s).
Proof.
  induction fuel as [|fuel IH]; intros w elements index oldFiber prev s; simpl.
  - destruct (negb (index <? length elements)%nat && negb (is_some oldFiber));
      [apply only_fibers_refl | exact I].
  - destruct (negb (index <? length elements)%nat && negb (is_some oldFiber));
      [apply only_fibers_refl|].
    only_fibers_step.
    { destruct oldFiber; simpl; repeat only_fibers_step. }
    only_fibers_step.
    { destruct a as [o|]; [|only_fibers_step].
      destruct (mjoin (elements !! index)); [|only_fibers_step].
      destruct oldFiber; [|only_fibers_step].
      destruct (sameType _ _); repeat only_fibers_step. }
    only_fibers_step.
    { destruct (mjoin (elements !! index)); [|only_fibers_step].
      destruct (negb _); repeat only_fibers_step. }
    only_fibers_step.
    { destruct oldFiber; [|only_fibers_step].
      destruct (negb _); repeat only_fibers_step. }
    only_fibers_step.
    { destruct oldFiber; repeat only_fibers_step. }
    only_fibers_step.
    { destruct (index =? 0)%nat; [only_fibers_step|].
      destruct (mjoin (elements !! index)); [|only_fibers_step].
      destruct prev; only_fibers_step. }
    apply IH.
Qed.

Lemma reconcileChildren_only_fibers (fuel : nat) (w : Addr)
    (elements : list (option Element)) (s : State) :
  outcome only_fibers s (reconcileChildren fuel w elements s).
Proof.
  unfold reconcileChildren. only_fibers_step; [only_fibers_step|].
  only_fibers_step; [|apply reconcileLoop_only_fibers].
  destruct (alternate a); repeat only_fibers_step.
Qed.

Lemma nextSiblingUp_same (fuel : nat) : forall (a : option Addr) (s : State),
  outcome eq s (nextSiblingUp fuel a s).
Proof.
  induction fuel as [|fuel IH]; intros a s; destruct a as [a|]; simpl;
    try exact I; try reflexivity.
  unfold bind, readFiber. destruct (fibers s !! a) as [f|]; [|reflexivity].
  destruct (sibling f); [reflexivity | apply IH].
Qed.

(** X13. Reconciliation changes the fiber heap and the deletion list and
    nothing else, whether it returns or throws: it makes no host call,
    touches no hook and schedules nothing. *)
Theorem reconcileChildren_touches_fibers_only (fuel : nat) (w : Addr)
    (elements : list (option Element)) (s : State) :
  match reconcileChildren fuel w elements s with
  | Ok _ s' => exists heap ds, s' = set_deletions ds (set_fibers heap s)
  | Fail _ s' => exists heap ds, s' = set_deletions ds (set_fibers heap s)
  | OutOfFuel => True
  end.
Proof.
  pose proof (reconcileChildren_only_fibers fuel w elements s) as H.
  destruct (reconcileChildren fuel w elements s); exact H.
Qed.

(** X14. Rendering a host fiber does not touch the document: the only
    host calls of [performUnitOfWork] are, when the fiber has no node yet,
    the creation of its node and the first assignment of its attributes;
    a fiber that has its node makes no host call at all.  Apart from them
    the unit of work advances the clock by its cost and changes the fiber
    heap and the deletion list. *)
Theorem host_render_leaves_the_document_alone (fuel : nat) (env : Env) (fiber : Addr)
    (f : Fiber) (tag : string) (s : State) :
  fibers s !! fiber = Some f ->
  type f = Some (Host tag) ->
  exists calls,
    Forall (update_of (nextHandle s) [] (attrs (props f))) calls /\
    let s0 := match dom f with
              | Some _ => s
              | None => set_hostLog (hostLog s ++ creation tag (nextHandle s) :: calls)
                          (set_nextHandle (S (nextHandle s)) s)
              end in
    match performUnitOfWork fuel env fiber s with
    | Ok _ s' =>
        exists heap ds,
          s' = set_deletions ds (set_fibers heap (set_now (now s + unit_cost env) s0))
    | Fail _ s' =>
        exists heap ds,
          s' = set_deletions ds (set_fibers heap (set_now (now s + unit_cost env) s0))
    | OutOfFuel => True
    end.
Proof.
  intros Hf Ht.
  set (s1 := set_now (now s + unit_cost env) s).
  destruct (createDom_calls f tag s1 Ht) as (calls & Hcreate & Hcalls & _).
  change (nextHandle s1) with (nextHandle s) in Hcreate, Hcalls.
  change (hostLog s1) with (hostLog s) in Hcreate.
  exists calls. split; [exact Hcalls|]. cbv zeta.
  unfold performUnitOfWork, bind at 1, elapse, modify.
  fold s1. unfold bind at 1, readFiber at 1.
  change (fibers s1) with (fibers s). rewrite Hf, Ht.
  set (s0 := match dom f with
             | Some _ => s
             | None => set_hostLog (hostLog s ++ creation tag (nextHandle s) :: calls)
                         (set_nextHandle (S (nextHandle s)) s)
             end).
  assert (Hhost : outcome only_fibers (set_now (now s + unit_cost env) s0)
                    (updateHostComponent fuel fiber s1)).
  { unfold updateHostComponent, bind at 1, readFiber at 1.
    change (fibers s1) with (fibers s). rewrite Hf.
    unfold bind at 1. subst s0.
    destruct (dom f) as [d|].
    - unfold ret. apply reconcileChildren_only_fibers.
    - unfold bind at 1. rewrite Hcreate.
      match goal with |- context [writeFiber fiber ?g ?st] =>
        pose proof (writeFiber_only_fibers fiber g st) as Hw;
        destruct (writeFiber fiber g st) as [[] s2|e s2|] eqn:Ew
      end; simpl in Hw; [| exact Hw | exact I].
      pose proof (reconcileChildren_only_fibers fuel fiber (children (props f)) s2) as Hr.
      destruct (reconcileChildren fuel fiber (children (props f)) s2); simpl in *;
        try exact I; eapply only_fibers_trans; eassumption. }
  unfold bind at 1.
  destruct (updateHostComponent fuel fiber s1) as [[] s2|e s2|]; simpl in Hhost;
    [|exact Hhost|exact I].
  assert (Hrest : outcome only_fibers s2
            ((let* f' := readFiber fiber in
              match child f' with
              | Some c => ret (Some c)
              | None => nextSiblingUp fuel (Some fiber)
              end) s2)).
  { only_fibers_step; [only_fibers_step|].
    destruct (child a); [apply only_fibers_refl|].
    apply outcome_same; [apply only_fibers_refl | apply nextSiblingUp_same]. }
  match type of Hrest with outcome _ _ ?r =>
    destruct r as [n s3|e s3|]; simpl in Hrest; try exact I;
    eapply only_fibers_trans; eassumption
  end.
Qed.

Lemma host_render_leaves_the_document_alone_witness :
  exists calls,
    Forall (update_of 1%nat [] [("id", VStr "A")]) calls /\
    match performUnitOfWork 5 (plain_env 1) 1%nat
            (set_fibers [rootFiber (Some 0%nat) (mkProps [] [Some (li "A")]) None;
                         mkFiber (Some (Host "li")) (el_props (li "A")) None (Some 0%nat)
                                 None None None (Some PLACEMENT) None] initial_state) with
    | Ok _ s' => hostLog s' = CreateElement "li" 1%nat :: calls
    | _ => False
    end.
Proof.
  destruct (host_render_leaves_the_document_alone 5 (plain_env 1) 1%nat
              (mkFiber (Some (Host "li")) (el_props (li "A")) None (Some 0%nat)
                       None None None (Some PLACEMENT) None) "li"
              (set_fibers [rootFiber (Some 0%nat) (mkProps [] [Some (li "A")]) None;
                           mkFiber (Some (Host "li")) (el_props (li "A")) None (Some 0%nat)
                                   None None None (Some PLACEMENT) None] initial_state))
    as (calls & Hcalls & H); [reflexivity | reflexivity |].
  exists calls. split; [exact Hcalls|].
  cbv zeta in H.
  destruct (performUnitOfWork 5 (plain_env 1) 1%nat _) as [n s'|e s'|] eqn:E.
  - destruct H as (heap & ds & ->). reflexivity.
  - vm_compute in E. discriminate E.
  - vm_compute in E. discriminate E.
Defined.

Lemma commitDeletion_descends (p : Handle) (s : State) (path : list Addr) :
  forall (a b : option Addr) (fuel : nat),
    descends (fibers s) a path b ->
    (length path < fuel)%nat ->
    commitDeletion fuel a p s
    = match b with
      | None => Fail (TypeError "fiber.dom") s
      | Some x =>
          match fibers s !! x with
          | Some f =>
              match dom f with
              | Some d => Ok tt (set_hostLog (hostLog s ++ [RemoveChild p d]) s)
              | None => commitDeletion (fuel - length path) (Some x) p s
              end
          | None => Fail (TypeError "fiber") s
          end
      end.
Proof.
  induction path as [|x path IH]; intros a b fuel Hd Hfuel; simpl in Hd.
  - subst b. destruct fuel as [|fuel]; [simpl in Hfuel; lia|]. simpl.
    destruct a as [a|]; [|reflexivity].
    unfold bind, readFiber. destruct (fibers s !! a) as [f|]; [|reflexivity].
    destruct (dom f); reflexivity.
  - destruct Hd as (-> & f & Hf & Hdom & Hrest).
    destruct fuel as [|fuel]; [simpl in Hfuel; lia|]. simpl commitDeletion.
    unfold bind, readFiber. rewrite Hf, Hdom.
    rewrite (IH (child f) b fuel Hrest) by (simpl in Hfuel; lia).
    reflexivity.
Qed.

(** X17. [commitDeletion] of a fiber without a node goes down the first
    children until it finds a fiber with a node and removes that node from
    the parent node it was given; when the chain of first children ends
    before a node is found (a component that rendered [null]) it throws a
    [TypeError]. *)
Theorem commitDeletion_removes_the_first_host_descendant (fuel : nat) (a : Addr)
    (path : list Addr) (b : option Addr) (p : Handle) (s : State) :
  descends (fibers s) (Some a) path b ->
  (length path < fuel)%nat ->
  (b = None ->
   commitDeletion fuel (Some a) p s = Fail (TypeError "fiber.dom") s) /\
  (forall x f d,
     b = Some x -> fibers s !! x = Some f -> dom f = Some d ->
     commitDeletion fuel (Some a) p s
     = Ok tt (set_hostLog (hostLog s ++ [RemoveChild p d]) s)).
Proof.
  intros Hd Hfuel.
  pose proof (commitDeletion_descends p s path (Some a) b fuel Hd Hfuel) as H.
  split.
  - intros ->. exact H.
  - intros x f d -> Hf Hdom. rewrite Hf, Hdom in H. exact H.
Qed.

Lemma commitDeletion_removes_the_first_host_descendant_witness :
  commitDeletion 3 (Some 1%nat) 0%nat
    (set_fibers [rootFiber (Some 0%nat) (mkProps [] []) None;
                 mkFiber (Some (Component 0)) (mkProps [] []) None (Some 0%nat)
                         (Some 2%nat) None None (Some DELETION) None;
                 mkFiber (Some (Host "p")) (mkProps [] []) (Some 7%nat) (Some 1%nat)
                         None None None (Some PLACEMENT) None] initial_state)
  = Ok tt (set_hostLog [RemoveChild 0%nat 7%nat]
             (set_fibers [rootFiber (Some 0%nat) (mkProps [] []) None;
                 mkFiber (Some (Component 0)) (mkProps [] []) None (Some 0%nat)
                         (Some 2%nat) None None (Some DELETION) None;
                 mkFiber (Some (Host "p")) (mkProps [] []) (Some 7%nat) (Some 1%nat)
                         None None None (Some PLACEMENT) None] initial_state)).
Proof.
  match goal with |- commitDeletion _ _ _ ?st = _ =>
    assert (Hd : descends (fibers st) (Some 1%nat) [1%nat] (Some 2%nat))
      by (simpl; eauto 10);
    apply (proj2 (commitDeletion_removes_the_first_host_descendant 3 1%nat [1%nat]
                    (Some 2%nat) 0%nat st Hd ltac:(simpl; lia))
             2%nat (mkFiber (Some (Host "p")) (mkProps [] []) (Some 7%nat) (Some 1%nat)
                            None None None (Some PLACEMENT) None) 7%nat)
  end; reflexivity.
Defined.

(** ** Deletions and unmounting *)

(** X18. [commitWork] does not stop at a deleted fiber: it goes on to the
    fiber's old child with the effect tag that child still carries.  So
    for a deleted function component whose host child was placed by the
    last commit, the node of the child is removed from the parent node and
    then appended to it again. *)
Theorem deleted_component_appends_its_child_again (fuel : nat) (a b r : Addr)
    (f g rf : Fiber) (p d : Handle) (s : State) :
  fibers s !! a = Some f ->
  effectTag f = Some DELETION -> dom f = None ->
  parent f = Some r -> child f = Some b -> sibling f = None ->
  fibers s !! r = Some rf -> dom rf = Some p ->
  fibers s !! b = Some g ->
  effectTag g = Some PLACEMENT -> dom g = Some d ->
  parent g = Some a -> child g = None -> sibling g = None ->
  commitWork (4 + fuel) (Some a) s
  = Ok tt (set_hostLog (hostLog s ++ [RemoveChild p d; AppendChild p d]) s).
Proof.
  intros Hf Htag Hdom Hpar Hchild Hsib Hr Hrdom Hg Hgtag Hgdom Hgpar Hgchild Hgsib.
  simpl commitWork. simpl domParentOf. simpl commitDeletion.
  unfold bind, readFiber, host, modify, ret, throw.
  repeat (progress (cbv beta iota; cbn [fibers hostLog set_hostLog];
                    rewrite ?Hf, ?Hg, ?Hr, ?Htag, ?Hdom, ?Hpar, ?Hchild, ?Hsib, ?Hrdom,
                      ?Hgtag, ?Hgdom, ?Hgpar, ?Hgchild, ?Hgsib)).
  rewrite <- app_assoc. reflexivity.
Qed.

Lemma deleted_component_appends_its_child_again_witness :
  hostLog unmount_state = [CreateElement "div" 1%nat; AppendChild 0%nat 1%nat] /\
  deletions unmount_state = Some [1%nat] /\
  commitWork 4 (Some 1%nat) unmount_state
  = Ok tt (set_hostLog [CreateElement "div" 1%nat; AppendChild 0%nat 1%nat;
                        RemoveChild 0%nat 1%nat; AppendChild 0%nat 1%nat] unmount_state).
Proof.
  split; [reflexivity|]. split; [reflexivity|].
  apply (deleted_component_appends_its_child_again 0 1%nat 2%nat 0%nat
           (mkFiber (Some (Component 0)) (mkProps [] []) None (Some 0%nat) (Some 2%nat)
                    None None (Some DELETION) (Some []))
           (mkFiber (Some (Host "div")) (mkProps [] []) (Some 1%nat) (Some 1%nat) None
                    None None (Some PLACEMENT) None)
           (mkFiber None (mkProps [] [Some (El (Component 0) [] [])]) (Some 0%nat) None
                    (Some 1%nat) None None None None)
           0%nat 1%nat unmount_state); reflexivity.
Defined.

Ltac run_heap facts :=
  repeat (progress (unfold bind, get, elapse, readFiber, readFiberOpt, writeFiber,
                      pushDeletion, newFiber, host, modify, ret, throw;
                    cbv beta iota; simpl; facts)).

(** The render phase of [render(null, container)] over a root whose only
    child [c] has no sibling: [c] is tagged for deletion and the new root
    is left without a child. *)
Lemma workLoop_units_unmount (env : Env) (fuel : nat) (container : Handle)
    (r c : Addr) (rf cf : Fiber) (heap : list Fiber) (s : State) :
  let n := length heap in
  let root := rootFiber (Some container) (mkProps [] [None]) (Some r) in
  nextUnitOfWork s = Some n ->
  fibers s = heap ++ [root] ->
  deletions s = Some [] ->
  heap !! r = Some rf -> child rf = Some c ->
  heap !! c = Some cf -> sibling cf = None ->
  workLoop_units (3 + fuel) env s
  = Ok tt (set_nextUnitOfWork None
             (set_deletions (Some [c])
                (set_fibers (<[n := set_child None root]>
                               (<[c := set_effectTag (Some DELETION) cf]> (heap ++ [root])))
                   (set_now (now s + unit_cost env) s)))).
Proof.
  intros n root Hnext Hfib Hdel Hr Hrchild Hc Hcsib.
  assert (Hc_lt : (c < n)%nat) by (eapply lookup_lt_Some; eassumption).
  assert (Hr_lt : (r < n)%nat) by (eapply lookup_lt_Some; eassumption).
  assert (L1 : (heap ++ [root]) !! n = Some root)
    by (apply list_lookup_middle; reflexivity).
  assert (L2 : (heap ++ [root]) !! r = Some rf) by (apply lookup_app_l_Some, Hr).
  assert (L3 : (heap ++ [root]) !! c = Some cf) by (apply lookup_app_l_Some, Hc).
  assert (L4 : (<[c := set_effectTag (Some DELETION) cf]> (heap ++ [root])) !! c
               = Some (set_effectTag (Some DELETION) cf)).
  { apply list_lookup_insert_eq. rewrite length_app. simpl. lia. }
  assert (L5 : (<[c := set_effectTag (Some DELETION) cf]> (heap ++ [root])) !! n
               = Some root).
  { rewrite list_lookup_insert_ne by lia. exact L1. }
  assert (L6 : (<[n := set_child None root]>
                  (<[c := set_effectTag (Some DELETION) cf]> (heap ++ [root]))) !! n
               = Some (set_child None root)).
  { apply list_lookup_insert_eq. rewrite length_insert, length_app. simpl. lia. }
  subst root. simpl workLoop_units. unfold performUnitOfWork, updateHostComponent, reconcileChildren.
  simpl reconcileLoop. simpl nextSiblingUp.
  run_heap ltac:(rewrite ?Hnext, ?Hfib, ?Hdel, ?L1, ?L2, ?L3, ?L4, ?L5, ?L6, ?Hrchild, ?Hcsib).
  reflexivity.
Qed.

(** The commit of a render that deletes the host leaf [c]. *)
Lemma commitRoot_unmount (fuel : nat) (n r c : Addr) (nf rf cf : Fiber) (p d : Handle)
    (s : State) :
  deletions s = Some [c] ->
  wipRoot s = Some n ->
  fibers s !! n = Some nf -> child nf = None ->
  fibers s !! r = Some rf -> dom rf = Some p ->
  fibers s !! c = Some cf ->
  effectTag cf = Some DELETION -> dom cf = Some d -> parent cf = Some r ->
  child cf = None -> sibling cf = None ->
  commitRoot (2 + fuel) s
  = Ok tt (set_wipRoot None (set_currentRoot (Some n)
             (set_hostLog (hostLog s ++ [RemoveChild p d]) s))).
Proof.
  intros Hdel Hw Hn Hnchild Hr Hrdom Hc Hctag Hcdom Hcpar Hcchild Hcsib.
  unfold commitRoot. simpl commitWork. simpl domParentOf. simpl commitDeletion.
  run_heap ltac:(rewrite ?Hdel, ?Hw, ?Hn, ?Hnchild, ?Hr, ?Hrdom, ?Hc, ?Hctag, ?Hcdom,
                   ?Hcpar, ?Hcchild, ?Hcsib).
  reflexivity.
Qed.

Lemma render_run (element : option Element) (container : Handle) (s : State) :
  render element container s
  = (let* _ := scheduleCallback WorkLoop 0 in ret tt)
      (set_nextUnitOfWork (Some (length (fibers s)))
         (set_deletions (Some [])
            (set_wipRoot (Some (length (fibers s)))
               (set_fibers (fibers s ++ [rootFiber (Some container) (mkProps [] [element])
                                                   (currentRoot s)]) s)))).
Proof. reflexivity. Qed.

(** A turn of the scheduler whose only task is the work loop. *)
Lemma turn_workLoop (fuel : nat) (env : Env) (task : Task) (s s1 : State) :
  taskQueue s = [task] ->
  callback task = WorkLoop ->
  workLoop fuel env (set_currentTask (Some task) (set_taskQueue []
                       (set_macrotasks (Nat.pred (macrotasks s)) s))) = Ok tt s1 ->
  taskQueue s1 = [] ->
  microtasks s1 = 0%nat ->
  turn (S fuel) env s = Ok tt (set_isSchedulerRunning false (set_currentTask None s1)).
Proof.
  intros Hq Hcb Hwork Hq1 Hmic.
  unfold turn. unfold bind at 1, modify at 1. unfold bind at 1.
  unfold flushWork. unfold bind at 1, performance_now, get at 1.
  unfold bind at 1, try_catch. rewrite flushWork_loop_eq.
  cbn [taskQueue now set_macrotasks]. rewrite Hq, Z.sub_diag.
  change (0 >=? TIME_SLICE) with false. cbv iota.
  rewrite Hcb. simpl is_function. cbv iota. unfold invoke.
  unfold bind at 1. unfold bind at 1. unfold bind at 1. rewrite Hwork.
  unfold ret at 1. cbv beta iota. unfold ret at 1. unfold modify at 1.
  unfold bind at 1. cbv beta iota.
  rewrite flushWork_loop_eq. cbn [taskQueue set_currentTask]. rewrite Hq1.
  unfold bind at 1, modify at 1. unfold bind at 1, get at 1.
  cbn [taskQueue set_currentTask]. rewrite Hq1. unfold modify at 1.
  apply microtask_checkpoint_idle. exact Hmic.
Qed.

Lemma createRoot_unmount (container : Handle) :
  root_unmount (createRoot container) = unmountComponentAtNode container.
Proof. unfold unmountComponentAtNode. reflexivity. Qed.

(** X19. [unmountComponentAtNode(container)], and [unmount()] of the
    object [createRoot(container)] returns, are [render(null, container)]:
    when the committed root has one child, a host fiber without children,
    the next turn of the scheduler removes the node of that child from the
    node of the committed root, commits a root without children, runs no
    effect cleanup, and leaves the scheduler idle. *)
Theorem unmount_removes_a_host_leaf (env : Env) (fuel : nat) (container : Handle)
    (r c : Addr) (rf cf : Fiber) (p d : Handle) (s : State) :
  idle s ->
  currentRoot s = Some r ->
  fibers s !! r = Some rf -> dom rf = Some p -> child rf = Some c ->
  fibers s !! c = Some cf -> dom cf = Some d -> parent cf = Some r ->
  child cf = None -> sibling cf = None ->
  exists s',
    (unmountComponentAtNode container;; turn (4 + fuel) env) s = Ok tt s' /\
    (root_unmount (createRoot container);; turn (4 + fuel) env) s = Ok tt s' /\
    hostLog s' = hostLog s ++ [RemoveChild p d] /\
    currentRoot s' = Some (length (fibers s)) /\
    wipRoot s' = None /\
    fibers s' !! length (fibers s)
    = Some (rootFiber (Some container) (mkProps [] [None]) (Some r)) /\
    trace s' = trace s /\
    idle s'.
Proof.
  intros (Hq & Hrun & Hmac & Hmic) Hcur Hr Hrdom Hrchild Hc Hcdom Hcpar Hcchild Hcsib.
  set (n := length (fibers s)).
  set (root := rootFiber (Some container) (mkProps [] [None]) (Some r)).
  set (heapA := <[n := set_child None root]>
                  (<[c := set_effectTag (Some DELETION) cf]> (fibers s ++ [root]))).
  assert (Hc_lt : (c < n)%nat) by (eapply lookup_lt_Some; eassumption).
  assert (Hr_lt : (r < n)%nat) by (eapply lookup_lt_Some; eassumption).
  assert (Hcr : c <> r) by (intros ->; congruence).
  assert (Hlen : length (fibers s ++ [root]) = S n) by (rewrite length_app; simpl; lia).
  assert (LA_n : heapA !! n = Some (set_child None root)).
  { subst heapA. apply list_lookup_insert_eq. rewrite length_insert, Hlen. lia. }
  assert (LA_c : heapA !! c = Some (set_effectTag (Some DELETION) cf)).
  { subst heapA. rewrite list_lookup_insert_ne by lia.
    apply list_lookup_insert_eq. rewrite Hlen. lia. }
  assert (LA_r : heapA !! r = Some rf).
  { subst heapA. rewrite !list_lookup_insert_ne by congruence || lia.
    apply lookup_app_l_Some, Hr. }
  assert (Hrender : exists sR task,
            unmountComponentAtNode container s = Ok tt sR /\
            taskQueue sR = [task] /\ callback task = WorkLoop /\
            macrotasks sR = 1%nat /\ microtasks sR = 0%nat /\
            nextUnitOfWork sR = Some n /\ wipRoot sR = Some n /\
            deletions sR = Some [] /\ fibers sR = fibers s ++ [root] /\
            hostLog sR = hostLog s /\ trace sR = trace s).
  { unfold unmountComponentAtNode. rewrite render_run. unfold bind at 1.
    rewrite scheduleCallback_eq. cbv zeta.
    cbn [isSchedulerRunning taskQueue macrotasks set_nextUnitOfWork set_deletions
         set_wipRoot set_fibers].
    rewrite Hrun, Hq, Hmac, Hcur. unfold ret. simpl insert_behind.
    eexists. eexists. split; [reflexivity|]. simpl. rewrite Hmic. auto 12. }
  destruct Hrender as (sR & task & HR & HqR & Hcb & HmacR & HmicR & HnextR & HwR & HdelR
                       & HfibR & HlogR & HtrR).
  set (s0 := set_currentTask (Some task) (set_taskQueue []
               (set_macrotasks (Nat.pred (macrotasks sR)) sR))).
  assert (Hunits : workLoop_units (3 + fuel) env s0
                   = Ok tt (set_nextUnitOfWork None
                              (set_deletions (Some [c])
                                 (set_fibers heapA (set_now (now s0 + unit_cost env) s0))))).
  { apply (workLoop_units_unmount env fuel container r c rf cf (fibers s) s0);
      try assumption. }
  assert (Hwork : exists s1,
            workLoop (3 + fuel) env s0 = Ok tt s1 /\
            taskQueue s1 = [] /\ microtasks s1 = 0%nat /\ macrotasks s1 = 0%nat /\
            hostLog s1 = hostLog s ++ [RemoveChild p d] /\
            currentRoot s1 = Some n /\ wipRoot s1 = None /\
            fibers s1 = heapA /\ trace s1 = trace s).
  { unfold workLoop. unfold bind at 1. rewrite Hunits.
    unfold bind at 1, get at 1. unfold bind at 1, get at 1.
    cbn [nextUnitOfWork wipRoot set_nextUnitOfWork set_deletions set_fibers set_now].
    subst s0. cbn [wipRoot set_currentTask set_taskQueue set_macrotasks]. rewrite HwR.
    erewrite (commitRoot_unmount (1 + fuel) n r c _ rf _ p d);
      [| reflexivity | cbn [wipRoot set_nextUnitOfWork set_deletions set_fibers set_now
                            set_currentTask set_taskQueue set_macrotasks]; exact HwR
       | exact LA_n | reflexivity | exact LA_r | exact Hrdom | exact LA_c | reflexivity
       | exact Hcdom | exact Hcpar | exact Hcchild | exact Hcsib].
    eexists. split; [reflexivity|]. simpl. rewrite HmicR, HmacR, HlogR, HtrR. auto 12. }
  destruct Hwork as (s1 & Hwork & Hq1 & Hmic1 & Hmac1 & Hlog1 & Hcur1 & Hw1 & Hfib1 & Htr1).
  subst s0.
  pose proof (turn_workLoop (3 + fuel) env task sR s1 HqR Hcb Hwork Hq1 Hmic1) as Hturn.
  exists (set_isSchedulerRunning false (set_currentTask None s1)).
  assert (Hall : (unmountComponentAtNode container;; turn (4 + fuel) env) s
                 = Ok tt (set_isSchedulerRunning false (set_currentTask None s1))).
  { unfold bind. rewrite HR. exact Hturn. }
  split; [exact Hall|].
  split; [rewrite createRoot_unmount; exact Hall|].
  cbn [hostLog currentRoot wipRoot fibers trace set_isSchedulerRunning set_currentTask].
  split; [exact Hlog1|]. split; [exact Hcur1|]. split; [exact Hw1|].
  split; [rewrite Hfib1; exact LA_n|]. split; [exact Htr1|].
  repeat split; assumption.
Qed.

Lemma unmount_removes_a_host_leaf_witness :
  exists s',
    (unmountComponentAtNode 0%nat;; turn 4 (plain_env 1)) mounted_leaf = Ok tt s' /\
    hostLog s' = [CreateElement "li" 1%nat; SetProperty 1%nat "id" (VStr "A");
                  AppendChild 0%nat 1%nat; RemoveChild 0%nat 1%nat] /\
    currentRoot s' = Some 2%nat.
Proof.
  destruct (unmount_removes_a_host_leaf (plain_env 1) 0 0%nat 0%nat 1%nat
              (mkFiber None (mkProps [] [Some (li "A")]) (Some 0%nat) None (Some 1%nat)
                       None None None None)
              (mkFiber (Some (Host "li")) (el_props (li "A")) (Some 1%nat) (Some 0%nat)
                       None None None (Some PLACEMENT) None)
              0%nat 1%nat mounted_leaf)
    as (s' & H & _ & Hlog & Hcur & _); try reflexivity.
  { repeat split. }
  exists s'. split; [exact H|]. split; [exact Hlog | exact Hcur].
Defined.

(** ** Hooks across renders *)

Lemma setState_other (env : Env) (h h' : Addr) (action : Val) (s s' : State) :
  setState env h action s = Ok tt s' ->
  h' <> h ->
  hookHeap s' !! h' = hookHeap s !! h'.
Proof.
  unfold setState, bind. intros H Hne.
  destruct (hookHeap s !! h) as [[v q| |]|]; try discriminate H.
  assert (Hl : (<[h := StateHook v (q ++ [action])]> (hookHeap s)) !! h' = hookHeap s !! h')
    by (apply list_lookup_insert_ne; congruence).
  unfold hooks_scheduleUpdate in H. destruct (has_window env).
  - apply scheduleUpdate_hookHeap in H. simpl in H. rewrite H. exact Hl.
  - injection H as <-. exact Hl.
Qed.

Lemma setState_all_other (env : Env) (h h' : Addr) (us : list Val) : forall s s',
  forEach (setState env h) us s = Ok tt s' ->
  h' <> h ->
  hookHeap s' !! h' = hookHeap s !! h'.
Proof.
  induction us as [|u us IH]; intros s s'; simpl.
  - unfold ret. intros [= <-] _. reflexivity.
  - unfold bind at 1.
    destruct (setState env h u s) as [[] s1|e s1|] eqn:E; try discriminate.
    intros H Hne. rewrite (IH s1 s' H Hne). eapply setState_other; eassumption.
Qed.

(** X20. A setter pushes onto the queue of the hook object it was made
    with.  A render folds the queue of the one hook object it finds at the
    position in the alternate fiber: updates pushed through the setter of
    any other hook object, such as the setter of an earlier render, do not
    reach the state. *)
Theorem updates_through_a_stale_setter_are_lost (env : Env) (initial st : Val)
    (q us : list Val) (stale h cf : Addr) (f : Fiber) (hs : list (option Addr))
    (s0 s1 s : State) :
  stale <> h ->
  hookHeap s0 !! h = Some (StateHook st q) ->
  forEach (setState env stale) us s0 = Ok tt s1 ->
  hookHeap s !! h = hookHeap s1 !! h ->
  oldHookOf s = Ok (Some h) s ->
  currentFiber s = Some cf ->
  fibers s !! cf = Some f ->
  hooks f = Some hs ->
  exists setter s',
    useState (call_fun env) initial s
    = Ok (fold_left (applyAction (call_fun env)) q st, setter) s'.
Proof.
  intros Hne Hh Hset Hsame Hold Hcf Hf Hhs.
  assert (Hh1 : hookHeap s !! h = Some (StateHook st q)).
  { rewrite Hsame, (setState_all_other env stale h us s0 s1 Hset); [exact Hh | congruence]. }
  eexists. eexists. eapply useState_run; eassumption.
Qed.

Lemma updates_through_a_stale_setter_are_lost_witness :
  exists s1 setter s',
    forEach (setState (plain_env 1) 1%nat) [VNum 7; VNum 8]
      (set_hookHeap [StateHook (VNum 5) []; StateHook (VNum 0) []] initial_state) = Ok tt s1 /\
    hookHeap s1 = [StateHook (VNum 5) []; StateHook (VNum 0) [VNum 7; VNum 8]] /\
    useState (fun _ v => v) (VNum 0)
      (set_hookHeap (hookHeap s1) (mid_render (StateHook (VNum 5) [])))
    = Ok (VNum 5, setter) s'.
Proof.
  eexists. 
  destruct (updates_through_a_stale_setter_are_lost (plain_env 1) (VNum 0) (VNum 5) []
              [VNum 7; VNum 8] 1%nat 0%nat 1%nat
              (mkFiber (Some (Component 0)) (mkProps [] []) None None None None
                       (Some 0%nat) (Some UPDATE) (Some [])) []
              (set_hookHeap [StateHook (VNum 5) []; StateHook (VNum 0) []] initial_state)
              (set_hookHeap [StateHook (VNum 5) []; StateHook (VNum 0) [VNum 7; VNum 8]]
                 initial_state)
              (set_hookHeap [StateHook (VNum 5) []; StateHook (VNum 0) [VNum 7; VNum 8]]
                 (mid_render (StateHook (VNum 5) []))))
    as (setter & s' & H); try reflexivity; try discriminate.
  exists setter, s'. split; [reflexivity|]. split; [reflexivity|]. exact H.
Defined.

Lemma flushEffects_one (fuel : nat) (effect : EffectFn) (hook : Addr) (s : State)
    (e0 : EffectFn) (d0 : option (list Val)) (c0 : option Cleanup) :
  effectQueue s = [(effect, hook)] ->
  hookHeap s !! hook = Some (EffectHook e0 d0 c0) ->
  exists s',
    flushEffects (S fuel) s = Ok tt s' /\
    trace s' = trace s ++ [RanEffect (eff_name effect)] /\
    effectQueue s' = [] /\
    hookHeap s' !! hook
    = Some (EffectHook e0 d0 (match eff_result effect with
                              | Returns (Some c') => Some c'
                              | _ => c0
                              end)).
Proof.
  intros Hq Hh. rewrite flushEffects_eq, Hq.
  unfold bind at 1, modify at 1. unfold bind at 1, try_catch, runQueuedEffect.
  unfold bind at 1, log, modify.
  destruct (eff_result effect) as [[c'|]|v].
  - cbn [hookHeap set_trace set_effectQueue]. rewrite Hh.
    rewrite flushEffects_eq. cbn [effectQueue set_hookHeap set_trace set_effectQueue].
    eexists. split; [reflexivity|].
    cbn [trace effectQueue hookHeap set_hookHeap set_trace set_effectQueue].
    repeat split. apply list_lookup_insert_eq. eapply lookup_lt_Some, Hh.
  - unfold ret. rewrite flushEffects_eq. cbn [effectQueue set_trace set_effectQueue].
    eexists. split; [reflexivity|]. cbn [trace effectQueue hookHeap set_trace set_effectQueue].
    auto.
  - unfold throw, console_error, modify. rewrite flushEffects_eq.
    cbn [effectQueue set_trace set_effectQueue set_console].
    eexists. split; [reflexivity|].
    cbn [trace effectQueue hookHeap set_trace set_effectQueue set_console]. auto.
Qed.

(** X21. When an effect fires again, the cleanup of the previous run is
    called during the render, before the effect is queued.  The new hook
    starts with that same cleanup, and it is replaced only if the effect,
    when it is flushed, returns a function: after an effect that returns
    nothing or throws, the hook still holds the cleanup that has already
    run. *)
Theorem cleanup_is_kept_until_an_effect_returns_a_new_one (fuel : nat) (effect : EffectFn)
    (deps : option (list Val)) (s : State) (cf : Addr) (f : Fiber)
    (hs : list (option Addr)) (o : Hook) (c : Cleanup) :
  currentFiber s = Some cf ->
  fibers s !! cf = Some f ->
  hooks f = Some hs ->
  readOldHook s = Ok (Some o) s ->
  hasChanged (Some o) deps s = Ok true s ->
  hook_cleanup o = Some c ->
  cl_throws c = None ->
  effectQueue s = [] ->
  let hook := length (hookHeap s) in
  exists s1 s2,
    useEffect effect deps s = Ok tt s1 /\
    trace s1 = trace s ++ [RanCleanup (cl_name c)] /\
    effectQueue s1 = [(effect, hook)] /\
    flushEffects (S fuel) s1 = Ok tt s2 /\
    trace s2 = trace s ++ [RanCleanup (cl_name c); RanEffect (eff_name effect)] /\
    hookHeap s2 !! hook
    = Some (EffectHook effect deps (match eff_result effect with
                                    | Returns (Some c') => Some c'
                                    | _ => Some c
                                    end)).
Proof.
  intros Hc Hf Hhs Hread Hch Hcl Hok Hq hook.
  assert (Hrun : exists s1,
             useEffect effect deps s = Ok tt s1 /\
             trace s1 = trace s ++ [RanCleanup (cl_name c)] /\
             effectQueue s1 = [(effect, hook)] /\
             hookHeap s1 = hookHeap s ++ [EffectHook effect deps (Some c)]).
  { unfold useEffect. unfold bind at 1. rewrite Hread.
    unfold bind at 1. rewrite Hch.
    unfold bind at 1. unfold newHook at 1. rewrite Hcl.
    unfold callCleanup, log, scheduleEffect. run_monad. rewrite Hok. run_monad.
    erewrite storeHook_run; [|exact Hc|exact Hf|exact Hhs].
    eexists. split; [reflexivity|].
    cbn [trace effectQueue hookHeap set_hookIndex set_fibers set_microtasks
         set_effectQueue set_trace set_hookHeap].
    rewrite Hq. auto. }
  destruct Hrun as (s1 & H1 & Ht1 & Hq1 & Hh1).
  destruct (flushEffects_one fuel effect hook s1 effect deps (Some c) Hq1)
    as (s2 & H2 & Ht2 & _ & Hh2).
  { rewrite Hh1. apply list_lookup_middle. reflexivity. }
  exists s1, s2. split; [exact H1|]. split; [exact Ht1|]. split; [exact Hq1|].
  split; [exact H2|]. split; [|exact Hh2].
  rewrite Ht2, Ht1, <- app_assoc. reflexivity.
Qed.

Lemma cleanup_is_kept_until_an_effect_returns_a_new_one_witness :
  exists s1 s2,
    useEffect (plain_effect 2) None
      (mid_render (EffectHook (plain_effect 1) None (Some (mkCleanup 10 None)))) = Ok tt s1 /\
    flushEffects 1 s1 = Ok tt s2 /\
    trace s2 = [RanCleanup 10; RanEffect 2] /\
    hookHeap s2 !! 1%nat = Some (EffectHook (plain_effect 2) None (Some (mkCleanup 10 None))).
Proof.
  destruct (cleanup_is_kept_until_an_effect_returns_a_new_one 0 (plain_effect 2) None
              (mid_render (EffectHook (plain_effect 1) None (Some (mkCleanup 10 None))))
              1%nat
              (mkFiber (Some (Component 0)) (mkProps [] []) None None None None
                       (Some 0%nat) (Some UPDATE) (Some [])) []
              (EffectHook (plain_effect 1) None (Some (mkCleanup 10 None)))
              (mkCleanup 10 None))
    as (s1 & s2 & H1 & _ & _ & H2 & Ht & Hh); try reflexivity.
  exists s1, s2. auto.
Defined.

(** X22. Hooks are matched by position only.  When the hook found at the
    position in the alternate fiber is of another kind, [useState] throws
    a [TypeError] (it has no [queue]), [useEffect] with a non-empty
    dependency list throws a [TypeError] when that hook has no [deps], and
    [useRef] returns a box holding that hook's [current], [undefined] when
    it has none, instead of the initial value. *)
Theorem hook_of_another_kind_at_the_same_position (call : nat -> Val -> Val)
    (initial : Val) (effect : EffectFn) (s : State) (o : Hook) :
  readOldHook s = Ok (Some o) s ->
  (hook_queue o = None ->
   useState call initial s = Fail (TypeError "actions.forEach") s) /\
  (hook_deps o = None ->
   forall d ds,
     useEffect effect (Some (d :: ds)) s = Fail (TypeError "oldHook.deps is undefined") s) /\
  (forall cf f hs,
     currentFiber s = Some cf -> fibers s !! cf = Some f -> hooks f = Some hs ->
     exists s',
       useRef initial s = Ok (length (hookHeap s)) s' /\
       hookHeap s' = hookHeap s ++ [RefHook (hook_current o)]).
Proof.
  intros Hread. split; [|split].
  - intros Hq. unfold useState, bind at 1. rewrite Hread.
    unfold bind at 1. rewrite Hq. reflexivity.
  - intros Hd d ds. unfold useEffect, bind at 1. rewrite Hread.
    unfold bind at 1. unfold hasChanged. rewrite Hd. reflexivity.
  - intros cf f hs Hc Hf Hhs. unfold useRef, bind at 1. rewrite Hread.
    unfold bind at 1, newHook at 1. unfold bind at 1.
    erewrite storeHook_run; [|exact Hc|exact Hf|exact Hhs].
    eexists. split; reflexivity.
Qed.

Lemma hook_of_another_kind_at_the_same_position_witness :
  useState increment (VNum 0) (mid_render (RefHook (VNum 3)))
  = Fail (TypeError "actions.forEach") (mid_render (RefHook (VNum 3))) /\
  exists s',
    useRef (VNum 0) (mid_render (StateHook (VNum 3) [])) = Ok 1%nat s' /\
    hookHeap s' = [StateHook (VNum 3) []; RefHook VUndefined].
Proof.
  split.
  - apply (proj1 (hook_of_another_kind_at_the_same_position increment (VNum 0)
                    (plain_effect 1) (mid_render (RefHook (VNum 3))) (RefHook (VNum 3))
                    eq_refl)).
    reflexivity.
  - apply (proj2 (proj2 (hook_of_another_kind_at_the_same_position increment (VNum 0)
                    (plain_effect 1) (mid_render (StateHook (VNum 3) []))
                    (StateHook (VNum 3) []) eq_refl))
             1%nat
             (mkFiber (Some (Component 0)) (mkProps [] []) None None None None
                      (Some 0%nat) (Some UPDATE) (Some [])) []);
      reflexivity.
Defined.

Lemma scheduleUpdate_run (c : Addr) (cf : Fiber) (s : State) :
  currentRoot s = Some c ->
  fibers s !! c = Some cf ->
  exists s',
    scheduleUpdate s = Ok tt s' /\
    fibers s' = fibers s ++ [rootFiber (dom cf) (props cf) (Some c)] /\
    taskQueue s'
    = insert_behind priority (mkTask (taskIds s) WorkLoop 0 (now s)) (taskQueue s) /\
    wipRoot s' = Some (length (fibers s)) /\
    nextUnitOfWork s' = Some (length (fibers s)) /\
    deletions s' = Some [] /\
    currentRoot s' = Some c /\
    hookHeap s' = hookHeap s /\
    hostLog s' = hostLog s.
Proof.
  intros Hc Hf. unfold scheduleUpdate, bind at 1, get at 1. rewrite Hc.
  unfold bind at 1, readFiber. rewrite Hf.
  unfold bind at 1, newFiber. unfold bind at 1, modify at 1.
  unfold bind at 1, modify at 1. unfold bind at 1, modify at 1.
  unfold bind at 1. rewrite scheduleCallback_eq. cbv zeta.
  destruct (isSchedulerRunning _) eqn:E; unfold ret;
    (eexists; split; [reflexivity|]); simpl; rewrite ?Hc; auto 10.
Qed.

Lemma length_insert_behind {A} (prio : A -> Z) (x : A) (q : list A) :
  length (insert_behind prio x q) = S (length q).
Proof. apply (Permutation_length (insert_behind_perm prio x q)). Qed.

Lemma setState_run (env : Env) (h : Addr) (action st : Val) (q : list Val) (s : State) :
  has_window env = true ->
  hookHeap s !! h = Some (StateHook st q) ->
  setState env h action s
  = scheduleUpdate (set_hookHeap (<[h := StateHook st (q ++ [action])]> (hookHeap s)) s).
Proof.
  intros Hwin Hh. unfold setState, bind. rewrite Hh.
  unfold hooks_scheduleUpdate. rewrite Hwin. reflexivity.
Qed.

Lemma setState_all_run (env : Env) (h c : Addr) (cf : Fiber) (us : list Val) :
  has_window env = true ->
  forall s st q,
    currentRoot s = Some c ->
    fibers s !! c = Some cf ->
    hookHeap s !! h = Some (StateHook st q) ->
    exists s',
      forEach (setState env h) us s = Ok tt s' /\
      hookHeap s' !! h = Some (StateHook st (q ++ us)) /\
      length (taskQueue s') = (length (taskQueue s) + length us)%nat /\
      fibers s' = fibers s ++ repeat (rootFiber (dom cf) (props cf) (Some c)) (length us) /\
      currentRoot s' = Some c /\
      hostLog s' = hostLog s /\
      (us <> [] ->
       wipRoot s' = Some (length (fibers s) + length us - 1)%nat /\
       nextUnitOfWork s' = Some (length (fibers s) + length us - 1)%nat /\
       deletions s' = Some []).
Proof.
  intros Hwin. induction us as [|u us IH]; intros s st q Hc Hf Hh.
  - exists s. simpl. unfold ret. rewrite !app_nil_r, Nat.add_0_r.
    split; [reflexivity|]. split; [exact Hh|]. split; [reflexivity|].
    split; [reflexivity|]. split; [exact Hc|]. split; [reflexivity|]. congruence.
  - simpl forEach. unfold bind at 1. rewrite (setState_run env h u st q s Hwin Hh).
    set (s0 := set_hookHeap (<[h := StateHook st (q ++ [u])]> (hookHeap s)) s).
    destruct (scheduleUpdate_run c cf s0 Hc Hf)
      as (s1 & H1 & Hfib & Hq1 & Hw1 & Hn1 & Hd1 & Hc1 & Hh1 & Hl1).
    rewrite H1.
    destruct (IH s1 st (q ++ [u])) as (s2 & H2 & Hh2 & Hq2 & Hfib2 & Hc2 & Hl2 & Hlast).
    { exact Hc1. }
    { rewrite Hfib. apply lookup_app_l_Some. exact Hf. }
    { rewrite Hh1. subst s0. cbn [hookHeap set_hookHeap].
      apply list_lookup_insert_eq. eapply lookup_lt_Some, Hh. }
    exists s2. split; [exact H2|].
    split; [rewrite Hh2, <- app_assoc; reflexivity|].
    split.
    { rewrite Hq2, Hq1, length_insert_behind. subst s0. simpl. lia. }
    split.
    { rewrite Hfib2, Hfib. subst s0. cbn [fibers set_hookHeap].
      rewrite <- app_assoc. reflexivity. }
    split; [exact Hc2|]. split; [rewrite Hl2, Hl1; reflexivity|].
    intros _. destruct us as [|u' us'].
    + simpl in H2. unfold ret in H2. injection H2 as <-.
      rewrite Hw1, Hn1, Hd1. subst s0. cbn [fibers set_hookHeap]. simpl length.
      replace (length (fibers s) + 1 - 1)%nat with (length (fibers s)) by lia. auto.
    + destruct Hlast as (Hw & Hn & Hd); [discriminate|].
      rewrite Hw, Hn, Hd, Hfib, length_app. subst s0. cbn [fibers set_hookHeap].
      simpl length.
      replace (length (fibers s) + 1 + S (length us') - 1)%nat
        with (length (fibers s) + S (S (length us')) - 1)%nat by lia.
      auto.
Qed.

(** X23. After the first commit every call of a setter makes a new root
    in progress and schedules one more run of the work loop; nothing is
    coalesced and nothing is rendered at once, inside
    [unstable_batchedUpdates] and [flushSync] as outside of them (both
    only call the function they are given). *)
Theorem every_setState_schedules_a_render_of_its_own (env : Env) (h c : Addr) (cf : Fiber)
    (us : list Val) (st : Val) (q : list Val) (s : State) :
  has_window env = true ->
  currentRoot s = Some c ->
  fibers s !! c = Some cf ->
  hookHeap s !! h = Some (StateHook st q) ->
  exists s',
    unstable_batchedUpdates (forEach (setState env h) us) s = Ok tt s' /\
    flushSync (forEach (setState env h) us) s = Ok tt s' /\
    hookHeap s' !! h = Some (StateHook st (q ++ us)) /\
    length (taskQueue s') = (length (taskQueue s) + length us)%nat /\
    fibers s' = fibers s ++ repeat (rootFiber (dom cf) (props cf) (Some c)) (length us) /\
    currentRoot s' = Some c /\
    hostLog s' = hostLog s /\
    (us <> [] ->
     wipRoot s' = Some (length (fibers s) + length us - 1)%nat /\
     nextUnitOfWork s' = Some (length (fibers s) + length us - 1)%nat /\
     deletions s' = Some []).
Proof.
  intros Hwin Hc Hf Hh.
  destruct (setState_all_run env h c cf us Hwin s st q Hc Hf Hh) as (s' & H & Hrest).
  exists s'. unfold unstable_batchedUpdates, flushSync. auto.
Qed.

Lemma every_setState_schedules_a_render_of_its_own_witness :
  exists s',
    unstable_batchedUpdates (forEach (setState counter_env 0%nat) [VFun 0; VFun 0])
      mounted_counter = Ok tt s' /\
    hookHeap s' !! 0%nat = Some (StateHook (VNum 0) [VFun 0; VFun 0]) /\
    length (taskQueue s') = 2%nat /\
    hostLog s' = hostLog mounted_counter.
Proof.
  destruct (every_setState_schedules_a_render_of_its_own counter_env 0%nat 0%nat
              (mkFiber None (mkProps [] [Some (El (Component 0) [] [])]) (Some 0%nat) None
                       (Some 1%nat) None None None None)
              [VFun 0; VFun 0] (VNum 0) [] mounted_counter)
    as (s' & H & _ & Hh & Hq & _ & _ & Hlog & _); try reflexivity.
  exists s'. auto.
Defined.
